(** * Retrieval-and-synthesis core of the PDF annotation widget

    A shallow embedding of
    - [src/utils/docx-converter.js]       (module [Docx]),
    - [src/utils/excel-csv-converter.js]  (module [Excel]),
    - the S3 downloader                   (module [S3]),
    together with the JavaScript built-ins they rely on (module [JS]).

    JavaScript strings are sequences of UTF-16 code units; [length],
    [substring], [padStart] ... count code units, whereas the bytes handed to
    [Blob] are produced by [TextEncoder], i.e. UTF-8.  Both views are kept
    apart here: a [jsstring] is a [list N] of code units, a byte stream a
    [list N] of octets. *)

From Stdlib Require Hexadecimal.
From Stdlib Require Floats.SpecFloat.
From Stdlib Require DecimalNat.
From Stdlib Require Import String Ascii Decimal.
From Stdlib Require Import ZArith NArith Lia Bool List.
Import ListNotations.

(* ================================================================== *)
(** * JavaScript built-ins *)
(* ================================================================== *)

Module JS.

Definition jsstring := list N.
Definition bytes := list N.

(** ** String literals

    [js] reads a literal the way a JavaScript source literal is read:
    [\n], [\r], [\t], [\\] and [\uXXXX] are escapes, every other character
    stands for itself. *)

Definition hexval (a : ascii) : N :=
  let c := N_of_ascii a in
  (if (48 <=? c) && (c <=? 57) then c - 48
   else if (65 <=? c) && (c <=? 70) then c - 55
   else if (97 <=? c) && (c <=? 102) then c - 87
   else 0)%N.

Fixpoint unescape (l : list ascii) : jsstring :=
  match l with
  | [] => []
  | "\"%char :: rest =>
      match rest with
      | "n"%char :: r => 10%N :: unescape r
      | "r"%char :: r => 13%N :: unescape r
      | "t"%char :: r => 9%N :: unescape r
      | "\"%char :: r => 92%N :: unescape r
      | "u"%char :: h1 :: h2 :: h3 :: h4 :: r =>
          (((hexval h1 * 16 + hexval h2) * 16 + hexval h3) * 16 + hexval h4)%N
            :: unescape r
      | _ => unescape rest
      end
  | c :: rest => N_of_ascii c :: unescape rest
  end.

Definition js (s : string) : jsstring := unescape (list_ascii_of_string s).
Arguments js s%_string.

(** ** Number to string *)

Fixpoint digits (u : Decimal.uint) : jsstring :=
  match u with
  | Decimal.Nil => []
  | Decimal.D0 r => 48%N :: digits r
  | Decimal.D1 r => 49%N :: digits r
  | Decimal.D2 r => 50%N :: digits r
  | Decimal.D3 r => 51%N :: digits r
  | Decimal.D4 r => 52%N :: digits r
  | Decimal.D5 r => 53%N :: digits r
  | Decimal.D6 r => 54%N :: digits r
  | Decimal.D7 r => 55%N :: digits r
  | Decimal.D8 r => 56%N :: digits r
  | Decimal.D9 r => 57%N :: digits r
  end.

(** [String(n)] for a non-negative integer. *)
Definition dec (n : nat) : jsstring := digits (Nat.to_uint n).

(** The numeric options of the converters (font size, page size, ...) are
    decimals with at most two fractional digits; such a number is held in
    hundredths ([59528] is [595.28]).  [numToString] is [String(x)] for it. *)
Definition num := N.

Definition int (n : N) : num := (n * 100)%N.

Definition numToString (x : num) : jsstring :=
  let i := (x / 100)%N in
  let f := (x mod 100)%N in
  digits (N.to_uint i) ++
  (if (f =? 0)%N then []
   else js "." ++ [(48 + f / 10)%N] ++
        (if (f mod 10 =? 0)%N then [] else [(48 + f mod 10)%N])).

(** ** Arithmetic on numbers

    A JavaScript number is an IEEE-754 binary64 value, and [-], [*] and [/]
    round to the nearest one, ties to even.  [toNumber x] is the number the
    engine holds for the decimal [x]: the binary64 value nearest to it. *)

Definition number := SpecFloat.spec_float.

Definition ofZ (z : Z) : number := SpecFloat.binary_normalize 53 1024 z 0 false.

Definition toNumber (x : num) : number :=
  SpecFloat.SFdiv 53 1024 (ofZ (Z.of_N x)) (ofZ 100).

Definition sub (x y : number) : number := SpecFloat.SFsub 53 1024 x y.
Definition mul (x y : number) : number := SpecFloat.SFmul 53 1024 x y.
Definition div (x y : number) : number := SpecFloat.SFdiv 53 1024 x y.

(** [Math.floor(x)]; [None] when [x] is [NaN] or infinite. *)
Definition floor (x : number) : option Z :=
  match x with
  | SpecFloat.S754_zero _ => Some 0%Z
  | SpecFloat.S754_finite s m e =>
      Some (((if s then Z.neg m else Z.pos m) * 2 ^ Z.max e 0)
            / 2 ^ Z.max (- e) 0)%Z
  | _ => None
  end.

(** ** String methods *)

Definition substring0 (n : nat) (s : jsstring) : jsstring := firstn n s.

Definition padStart (n : nat) (c : N) (s : jsstring) : jsstring :=
  repeat c (n - length s) ++ s.

Definition padEnd (n : nat) (c : N) (s : jsstring) : jsstring :=
  s ++ repeat c (n - length s).

(** [s.replace(/c/g, rep)] for a single character [c]. *)
Definition replaceChar (c : N) (rep : jsstring) (s : jsstring) : jsstring :=
  flat_map (fun x => if (x =? c)%N then rep else [x]) s.

Fixpoint join (sep : jsstring) (l : list jsstring) : jsstring :=
  match l with
  | [] => []
  | [x] => x
  | x :: r => x ++ sep ++ join sep r
  end.

(** [s.split(c)] for a single-character separator: never the empty list. *)
Fixpoint split_aux (c : N) (cur : jsstring) (s : jsstring) : list jsstring :=
  match s with
  | [] => [rev cur]
  | x :: r => if (x =? c)%N then rev cur :: split_aux c [] r
              else split_aux c (x :: cur) r
  end.

Definition split (c : N) (s : jsstring) : list jsstring := split_aux c [] s.

Fixpoint prefixb (p s : jsstring) : bool :=
  match p, s with
  | [], _ => true
  | a :: p', b :: s' => (a =? b)%N && prefixb p' s'
  | _ :: _, [] => false
  end.

(** [a === b] on strings *)
Fixpoint eqs (a b : jsstring) : bool :=
  match a, b with
  | [], [] => true
  | x :: a', y :: b' => (x =? y)%N && eqs a' b'
  | _, _ => false
  end.

(** [s.includes(p)] *)
Fixpoint includes (p s : jsstring) : bool :=
  prefixb p s ||
  match s with
  | [] => false
  | _ :: r => includes p r
  end.

(** White space and line terminators: what [\s] matches and [trim] strips. *)
Definition is_space (c : N) : bool :=
  ((9 <=? c) && (c <=? 13) || (c =? 32) || (c =? 160) || (c =? 5760)
   || (8192 <=? c) && (c <=? 8202) || (c =? 8232) || (c =? 8233)
   || (c =? 8239) || (c =? 8287) || (c =? 12288) || (c =? 65279))%N.

Fixpoint trimStart (s : jsstring) : jsstring :=
  match s with
  | [] => []
  | c :: r => if is_space c then trimStart r else s
  end.

Definition trimEnd (s : jsstring) : jsstring := rev (trimStart (rev s)).

Definition trim (s : jsstring) : jsstring := trimEnd (trimStart s).

(** [s.split(/\s+/)]: the pieces between maximal runs of white space; a run
    at either end leaves an empty piece there. *)
Fixpoint split_ws_aux (cur : jsstring) (in_sep : bool) (s : jsstring)
  : list jsstring :=
  match s with
  | [] => [rev cur]
  | c :: r =>
      if is_space c then
        if in_sep then split_ws_aux [] true r
        else rev cur :: split_ws_aux [] true r
      else split_ws_aux (c :: cur) false r
  end.

Definition split_ws (s : jsstring) : list jsstring := split_ws_aux [] false s.

(** [s.replace(/\s+/g, ' ')] *)
Fixpoint collapse_ws (in_run : bool) (s : jsstring) : jsstring :=
  match s with
  | [] => []
  | c :: r =>
      if is_space c then
        if in_run then collapse_ws true r else 32%N :: collapse_ws true r
      else c :: collapse_ws false r
  end.

(** [s.replace(/\n\s+/g, '\n')] *)
Fixpoint replace_nl_ws (skipping : bool) (s : jsstring) : jsstring :=
  match s with
  | [] => []
  | c :: r =>
      if skipping && is_space c then replace_nl_ws true r
      else if (c =? 10)%N then
        match r with
        | d :: _ => 10%N :: replace_nl_ws (is_space d) r
        | [] => [10%N]
        end
      else c :: replace_nl_ws false r
  end.

(** [s.replace(/\r\n/g, '\n')] *)
Fixpoint replace_crlf (s : jsstring) : jsstring :=
  match s with
  | [] => []
  | c :: r =>
      match r with
      | d :: r' =>
          if ((c =? 13) && (d =? 10))%N then 10%N :: replace_crlf r'
          else c :: replace_crlf r
      | [] => [c]
      end
  end.

(** ** [TextEncoder.encode]: UTF-16 code units to UTF-8 octets *)

Definition is_high_surrogate (c : N) : bool := ((55296 <=? c) && (c <=? 56319))%N.
Definition is_low_surrogate (c : N) : bool := ((56320 <=? c) && (c <=? 57343))%N.

Definition utf8_of_codepoint (cp : N) : bytes :=
  (if cp <? 128 then [cp]
   else if cp <? 2048 then [192 + cp / 64; 128 + cp mod 64]
   else if cp <? 65536 then
     [224 + cp / 4096; 128 + (cp / 64) mod 64; 128 + cp mod 64]
   else [240 + cp / 262144; 128 + (cp / 4096) mod 64;
         128 + (cp / 64) mod 64; 128 + cp mod 64])%N.

Definition pair_codepoint (hi lo : N) : N :=
  (65536 + (hi - 55296) * 1024 + (lo - 56320))%N.

(** A surrogate without its partner is encoded as U+FFFD. *)
Fixpoint encode (s : jsstring) : bytes :=
  match s with
  | [] => []
  | c :: rest =>
      if is_high_surrogate c then
        match rest with
        | d :: rest' =>
            if is_low_surrogate d
            then utf8_of_codepoint (pair_codepoint c d) ++ encode rest'
            else utf8_of_codepoint 65533 ++ encode rest
        | [] => utf8_of_codepoint 65533
        end
      else if is_low_surrogate c then utf8_of_codepoint 65533 ++ encode rest
      else utf8_of_codepoint c ++ encode rest
  end.

(** Code units below 128: the strings on which code units and octets agree. *)
Definition is_ascii (s : jsstring) : bool := forallb (fun c => (c <? 128)%N) s.

(** ** [encodeURIComponent] and [decodeURIComponent] *)

Definition is_alnum (c : N) : bool :=
  ((48 <=? c) && (c <=? 57) || (65 <=? c) && (c <=? 90)
   || (97 <=? c) && (c <=? 122))%N.

(** The characters [encodeURIComponent] leaves alone: letters, digits and
    [- _ . ! ~ * ' ( )]. *)
Definition uri_unescaped (c : N) : bool :=
  is_alnum c || existsb (N.eqb c) (js "-_.!~*'()").

Definition hexdigit (n : N) : N := (if n <? 10 then 48 + n else 55 + n)%N.

(** ["%XX"] with upper-case digits. *)
Definition pct (b : N) : jsstring :=
  [37%N; hexdigit (b / 16); hexdigit (b mod 16)].

(** [None] is the [URIError] thrown for a surrogate without its partner. *)
Fixpoint encodeURIComponent (s : jsstring) : option jsstring :=
  match s with
  | [] => Some []
  | c :: rest =>
      if uri_unescaped c then option_map (cons c) (encodeURIComponent rest)
      else if is_low_surrogate c then None
      else if is_high_surrogate c then
        match rest with
        | d :: rest' =>
            if is_low_surrogate d
            then option_map
                   (app (flat_map pct (utf8_of_codepoint (pair_codepoint c d))))
                   (encodeURIComponent rest')
            else None
        | [] => None
        end
      else option_map (app (flat_map pct (utf8_of_codepoint c)))
             (encodeURIComponent rest)
  end.

Definition is_hex (c : N) : bool :=
  ((48 <=? c) && (c <=? 57) || (65 <=? c) && (c <=? 70)
   || (97 <=? c) && (c <=? 102))%N.

Definition hexv (c : N) : N :=
  (if c <=? 57 then c - 48 else if c <=? 70 then c - 55 else c - 87)%N.

(** A URI is read as a sequence of plain code units and escaped octets. *)
Inductive token := Lit (c : N) | Esc (b : N).

Fixpoint tokens (s : jsstring) : option (list token) :=
  match s with
  | [] => Some []
  | c :: rest =>
      if (c =? 37)%N then
        match rest with
        | h1 :: h2 :: r =>
            if is_hex h1 && is_hex h2
            then option_map (cons (Esc (hexv h1 * 16 + hexv h2))) (tokens r)
            else None
        | _ => None
        end
      else option_map (cons (Lit c)) (tokens rest)
  end.

(** A decoded code point is accepted when it is not an overlong form
    ([lo] is the least value its length may encode), not a surrogate and at
    most U+10FFFF. *)
Definition valid_codepoint (lo cp : N) : bool :=
  ((lo <=? cp) && (cp <=? 1114111)
   && negb ((55296 <=? cp) && (cp <=? 57343)))%N.

Definition utf16_of_codepoint (cp : N) : jsstring :=
  (if cp <? 65536 then [cp]
   else [55296 + (cp - 65536) / 1024; 56320 + (cp - 65536) mod 1024])%N.

(** Escaped octets are decoded as UTF-8; [need] continuation octets are
    still expected for the code point whose leading bits are [acc]. *)
Fixpoint decode_tokens (need : nat) (acc lo : N) (ts : list token)
  : option jsstring :=
  match ts with
  | [] => match need with 0 => Some [] | S _ => None end
  | t :: r =>
      match need with
      | 0 =>
          match t with
          | Lit c => option_map (cons c) (decode_tokens 0 0 0 r)
          | Esc b =>
              (if b <? 128 then option_map (cons b) (decode_tokens 0 0 0 r)
               else if (192 <=? b) && (b <? 224) then decode_tokens 1 (b - 192) 128 r
               else if (224 <=? b) && (b <? 240) then decode_tokens 2 (b - 224) 2048 r
               else if (240 <=? b) && (b <? 248) then decode_tokens 3 (b - 240) 65536 r
               else None)%N
          end
      | S k =>
          match t with
          | Lit _ => None
          | Esc b =>
              if ((128 <=? b) && (b <? 192))%N then
                let acc' := (acc * 64 + (b - 128))%N in
                match k with
                | 0 =>
                    if valid_codepoint lo acc'
                    then option_map (app (utf16_of_codepoint acc'))
                           (decode_tokens 0 0 0 r)
                    else None
                | S _ => decode_tokens k acc' lo r
                end
              else None
          end
      end
  end.

(** [None] is the [URIError] thrown for a malformed escape sequence. *)
Definition decodeURIComponent (s : jsstring) : option jsstring :=
  match tokens s with
  | Some ts => decode_tokens 0 0 0 ts
  | None => None
  end.

(** [n.toString(16).toUpperCase()] *)
Fixpoint hexdigits (u : Hexadecimal.uint) : jsstring :=
  match u with
  | Hexadecimal.Nil => []
  | Hexadecimal.D0 r => 48%N :: hexdigits r
  | Hexadecimal.D1 r => 49%N :: hexdigits r
  | Hexadecimal.D2 r => 50%N :: hexdigits r
  | Hexadecimal.D3 r => 51%N :: hexdigits r
  | Hexadecimal.D4 r => 52%N :: hexdigits r
  | Hexadecimal.D5 r => 53%N :: hexdigits r
  | Hexadecimal.D6 r => 54%N :: hexdigits r
  | Hexadecimal.D7 r => 55%N :: hexdigits r
  | Hexadecimal.D8 r => 56%N :: hexdigits r
  | Hexadecimal.D9 r => 57%N :: hexdigits r
  | Hexadecimal.Da r => 65%N :: hexdigits r
  | Hexadecimal.Db r => 66%N :: hexdigits r
  | Hexadecimal.Dc r => 67%N :: hexdigits r
  | Hexadecimal.Dd r => 68%N :: hexdigits r
  | Hexadecimal.De r => 69%N :: hexdigits r
  | Hexadecimal.Df r => 70%N :: hexdigits r
  end.

Definition toString16Upper (n : N) : jsstring := hexdigits (N.to_hex_uint n).

(** [s.replace(/abc/g, rep)] for a three-character pattern. *)
Fixpoint replace3 (a b c : N) (rep : jsstring) (s : jsstring) : jsstring :=
  match s with
  | [] => []
  | x :: t =>
      match t with
      | y :: z :: r =>
          if ((x =? a) && (y =? b) && (z =? c))%N
          then rep ++ replace3 a b c rep r
          else x :: replace3 a b c rep t
      | _ => x :: replace3 a b c rep t
      end
  end.

(** ** Exceptions *)

Inductive result (A : Type) : Type :=
| Ok (a : A)
| Throw (message : jsstring).
Arguments Ok {A} a.
Arguments Throw {A} message.

(** [new Blob([data], { type })] *)
Record Blob := { blob_data : bytes; blob_type : jsstring }.

End JS.

Import JS.

(* ================================================================== *)
(** * The PDF writer shared by both converters *)
(* ================================================================== *)

(** [createPdfStructure] of [docx-converter.js] (lines 218-275) and of
    [excel-csv-converter.js] (lines 299-356) are the same statements; they
    differ in the [/BaseFont] name only, which is a parameter here. *)

Module Pdf.

(** [Array.prototype.slice(s, e)] for [0 <= s] and [0 <= e]. *)
Definition slice {A} (s e : nat) (l : list A) : list A :=
  firstn (e - s) (skipn s l).

(** [Math.ceil(n / m) || 1] for [0 < m]. *)
Definition totalPages (n m : nat) : nat :=
  let c := (n + m - 1) / m in
  if c =? 0 then 1 else c.

(** The three variables the source threads through the object section. *)
Record writer := {
  pdf : jsstring;
  currentPos : nat;
  xrefTable : list nat
}.

(** [xrefTable.push(currentPos); pdf += content; currentPos += content.length] *)
Definition emit (content : jsstring) (w : writer) : writer :=
  {| pdf := pdf w ++ content;
     currentPos := currentPos w + length content;
     xrefTable := xrefTable w ++ [currentPos w] |}.

Definition header : jsstring := js "%PDF-1.4\n".

Definition start : writer :=
  {| pdf := header; currentPos := length header; xrefTable := [] |}.

Definition catalogContent : jsstring :=
  js "1 0 obj\n<<\n/Type /Catalog\n/Pages 2 0 R\n>>\nendobj\n".

Definition pageRefs (totalPages : nat) : list jsstring :=
  map (fun i => dec (3 + i * 2) ++ js " 0 R") (seq 0 totalPages).

Definition pagesContent (totalPages : nat) : jsstring :=
  js "2 0 obj\n<<\n/Type /Pages\n/Kids [" ++ join (js " ") (pageRefs totalPages)
  ++ js "]\n/Count " ++ dec totalPages ++ js "\n>>\nendobj\n".

Definition pageContent (baseFont : jsstring) (pageWidth pageHeight : num)
    (pageObjId contentObjId : nat) : jsstring :=
  dec pageObjId ++ js " 0 obj\n<<\n/Type /Page\n/Parent 2 0 R\n/MediaBox [0 0 "
  ++ numToString pageWidth ++ js " " ++ numToString pageHeight
  ++ js "]\n/Resources <<\n/Font <<\n/F1 <<\n/Type /Font\n/Subtype /Type1\n/BaseFont /"
  ++ baseFont ++ js "\n>>\n>>\n>>\n/Contents " ++ dec contentObjId
  ++ js " 0 R\n>>\nendobj\n".

Definition streamHead (contentObjId : nat) (declared : nat) : jsstring :=
  dec contentObjId ++ js " 0 obj\n<<\n/Length " ++ dec declared
  ++ js "\n>>\nstream\n".

Definition streamTail : jsstring := js "\nendstream\nendobj\n".

Definition streamContent (contentObjId : nat) (contentStream : jsstring)
  : jsstring :=
  streamHead contentObjId (length contentStream) ++ contentStream ++ streamTail.

(** One round of the loop "Page objects and content streams". *)
Definition emitPage (baseFont : jsstring) (pageWidth pageHeight : num)
    (contentStreams : list jsstring) (w : writer) (pageNum : nat) : writer :=
  let pageObjId := 3 + pageNum * 2 in
  let contentObjId := pageObjId + 1 in
  let contentStream := nth pageNum contentStreams [] in
  emit (streamContent contentObjId contentStream)
    (emit (pageContent baseFont pageWidth pageHeight pageObjId contentObjId) w).

(** The object section: catalog, page tree, then the pages. *)
Definition objects (baseFont : jsstring) (pageWidth pageHeight : num)
    (totalPages : nat) (contentStreams : list jsstring) : writer :=
  fold_left (emitPage baseFont pageWidth pageHeight contentStreams)
    (seq 0 totalPages)
    (emit (pagesContent totalPages) (emit catalogContent start)).

Definition xrefEntry (pos : nat) : jsstring :=
  padStart 10 48%N (dec pos) ++ js " 00000 n \n".

(** Cross-reference table and trailer, appended to the object section. *)
Definition xrefAndTrailer (w : writer) : jsstring :=
  let xrefPos := currentPos w in
  js "xref\n"
  ++ (js "0 " ++ dec (length (xrefTable w) + 1) ++ js "\n")
  ++ js "0000000000 65535 f \n"
  ++ concat (map xrefEntry (xrefTable w))
  ++ js "trailer\n"
  ++ (js "<<\n/Size " ++ dec (length (xrefTable w) + 1) ++ js "\n/Root 1 0 R\n>>\n")
  ++ js "startxref\n"
  ++ (dec xrefPos ++ js "\n")
  ++ js "%%EOF\n".

(** The string handed to [new TextEncoder().encode]. *)
Definition document (w : writer) : jsstring := pdf w ++ xrefAndTrailer w.

End Pdf.

(* ================================================================== *)
(** * docx-converter.js *)
(* ================================================================== *)

Module Docx.

Record options := {
  fontSize : num;
  lineHeight : num;
  margin : num;
  pageWidth : num;
  pageHeight : num;
  maxCharsPerLine : nat
}.

(** The constructor's defaults. *)
Definition defaults : options :=
  {| fontSize := int 12; lineHeight := int 14; margin := int 50;
     pageWidth := 59528%N; pageHeight := 84189%N; maxCharsPerLine := 75 |}.

(** [Math.floor((pageHeight - (margin * 2)) / lineHeight)], computed as the
    source computes it, in binary64.  A quotient that is infinite or not a
    number (a zero line height) is given as [0]: like a count that is not
    positive, it is outside what [createPdfStructure] is modelled for. *)
Definition maxLinesPerPage (o : options) : Z :=
  match floor (div (sub (toNumber (pageHeight o))
                        (mul (toNumber (margin o)) (ofZ 2)))
                   (toNumber (lineHeight o))) with
  | Some n => n
  | None => 0%Z
  end.

(** The replace chain of [createPdfStructure], then [.substring(0, 75)]. *)
Definition escapeLine (line : jsstring) : jsstring :=
  substring0 75
    (replaceChar 10 (js "\\n")
      (replaceChar 13 (js "\\r")
        (replaceChar 41 (js "\\)")
          (replaceChar 40 (js "\\(")
            (replaceChar 92 (js "\\\\") line))))).

Definition showLine (o : options) (line : jsstring) : jsstring :=
  js "(" ++ escapeLine line ++ js ") Tj\n0 -" ++ numToString (lineHeight o)
  ++ js " Td\n".

(** The body of the loop "Build PDF content streams for each page". *)
Definition contentStream (o : options) (mlpp : nat) (lines : list jsstring)
    (pageNum : nat) : jsstring :=
  let startLine := pageNum * mlpp in
  let endLine := Nat.min (startLine + mlpp) (length lines) in
  let pageLines := Pdf.slice startLine endLine lines in
  js "BT\n/F1 12 Tf\n50 750 Td\n" ++ concat (map (showLine o) pageLines) ++ js "ET".

(** [createPdfStructure(lines)].  The page count is computed in floating
    point by the source; with a page geometry that leaves no room for a line
    ([maxLinesPerPage <= 0], or a zero line height) that arithmetic yields
    [Infinity], [NaN] or a negative count, which is outside this model:
    the result is [None] there. *)
Definition totalPages (o : options) (lines : list jsstring) : nat :=
  Pdf.totalPages (length lines) (Z.to_nat (maxLinesPerPage o)).

Definition contentStreams (o : options) (lines : list jsstring)
  : list jsstring :=
  map (contentStream o (Z.to_nat (maxLinesPerPage o)) lines)
    (seq 0 (totalPages o lines)).

(** The writer's variables when the last object has been written. *)
Definition objectSection (o : options) (lines : list jsstring) : Pdf.writer :=
  Pdf.objects (js "Helvetica") (pageWidth o) (pageHeight o)
    (totalPages o lines) (contentStreams o lines).

Definition createPdfStructure (o : options) (lines : list jsstring)
  : option bytes :=
  if (0 <? maxLinesPerPage o)%Z
  then Some (encode (Pdf.document (objectSection o lines)))
  else None.

(** [cleanText(text)] *)
Definition cleanText (text : jsstring) : jsstring :=
  trim
    (replace_nl_ws false
      (collapse_ws false
        (map (fun c => if ((32 <=? c) && (c <=? 126) || (c =? 10))%N
                       then c else 32%N)
          (replaceChar 9 (js "    ")
            (replaceChar 13 (js "\n")
              (replace_crlf text)))))).

(** The body of [for (const word of words)]: state is [(lines, currentLine)]. *)
Definition wrapWord (maxLength : nat) (st : list jsstring * jsstring)
    (word : jsstring) : list jsstring * jsstring :=
  let '(lines, currentLine) := st in
  let testLine :=
    match currentLine with
    | [] => word
    | _ :: _ => currentLine ++ js " " ++ word
    end in
  if length testLine <=? maxLength then (lines, testLine)
  else
    match currentLine with
    | _ :: _ =>
        (lines ++ [currentLine],
         if length word <=? maxLength then word else substring0 maxLength word)
    | [] => (lines ++ [substring0 maxLength word], [])
    end.

(** The body of [for (const paragraph of paragraphs)]. *)
Definition wrapParagraph (maxLength : nat) (lines : list jsstring)
    (paragraph : jsstring) : list jsstring :=
  match trim paragraph with
  | [] => lines ++ [[]]
  | _ :: _ =>
      let words := split_ws (trim paragraph) in
      let '(lines', currentLine) := fold_left (wrapWord maxLength) words (lines, []) in
      match currentLine with
      | [] => lines'
      | _ :: _ => lines' ++ [currentLine]
      end
  end.

(** [splitIntoLines(text)] *)
Definition splitIntoLines (o : options) (text : jsstring) : list jsstring :=
  fold_left (wrapParagraph (maxCharsPerLine o)) (split 10 text) [].

(** [createPdfManually(textContent)]: nothing in it throws on a string. *)
Definition createPdfManually (o : options) (textContent : jsstring)
  : option (result Blob) :=
  let cleanText := cleanText textContent in
  let lines := splitIntoLines o cleanText in
  match createPdfStructure o lines with
  | Some pdf => Some (Ok {| blob_data := pdf; blob_type := js "application/pdf" |})
  | None => None
  end.

Definition errorText (errorMessage : jsstring) : jsstring :=
  js "DOCX Conversion Error\n\nThe DOCX file could not be converted to PDF.\n\nError: "
  ++ errorMessage
  ++ js "\n\nThis may happen with:\n\u2022 Complex formatting\n\u2022 Password-protected files\n\u2022 Corrupted documents\n\nPlease try:\n\u2022 Converting to PDF manually\n\u2022 Using simpler formatting\n\u2022 Checking the original file".

Definition minimalPdf : jsstring :=
  js "%PDF-1.4\n1 0 obj\n<<\n/Type /Catalog\n/Pages 2 0 R\n>>\nendobj\n2 0 obj\n<<\n/Type /Pages\n/Kids [3 0 R]\n/Count 1\n>>\nendobj\n3 0 obj\n<<\n/Type /Page\n/Parent 2 0 R\n/MediaBox [0 0 595.28 841.89]\n/Resources <<\n/Font <<\n/F1 <<\n/Type /Font\n/Subtype /Type1\n/BaseFont /Helvetica\n>>\n>>\n>>\n/Contents 4 0 R\n>>\nendobj\n4 0 obj\n<<\n/Length 53\n>>\nstream\nBT\n/F1 12 Tf\n50 750 Td\n(DOCX Conversion Failed) Tj\nET\nendstream\nendobj\nxref\n0 5\n0000000000 65535 f \n0000000009 00000 n \n0000000058 00000 n \n0000000115 00000 n \n0000000344 00000 n \ntrailer\n<<\n/Size 5\n/Root 1 0 R\n>>\nstartxref\n447\n%%EOF".

(** [createErrorPdf(errorMessage)].  [createPdfManually] is [async] and its
    promise is returned without [await]: a rejection would pass through the
    [try] uncaught, so the [catch] branch with [minimalPdf] only covers what
    is thrown while the template string is built, which is nothing. *)
Definition createErrorPdf (o : options) (errorMessage : jsstring)
  : option (result Blob) :=
  match Ok (errorText errorMessage) with
  | Ok errorText => createPdfManually o errorText
  | Throw _ =>
      Some (Ok {| blob_data := encode minimalPdf;
                  blob_type := js "application/pdf" |})
  end.

(** [convertToPdf(docxBuffer)].  [extracted] is the outcome of
    [await this.extractTextFromDocx(docxBuffer)]: the text, or the error the
    JSZip-based extraction throws. *)
Definition convertToPdf (o : options) (extracted : result jsstring)
  : option (result Blob) :=
  let attempt : option (result Blob) :=
    match extracted with
    | Throw m => Some (Throw m)
    | Ok textContent =>
        match trim textContent with
        | [] => Some (Throw (js "No text content found in DOCX file"))
        | _ :: _ => createPdfManually o textContent
        end
    end in
  match attempt with
  | None => None
  | Some (Ok pdfBlob) => Some (Ok pdfBlob)
  | Some (Throw message) =>
      match createErrorPdf o message with
      | None => None
      | Some (Ok blob) => Some (Ok blob)
      | Some (Throw fallback) =>
          Some (Throw (js "DOCX conversion failed: " ++ message
                       ++ js ". Fallback also failed: " ++ fallback))
      end
  end.

End Docx.

(* ================================================================== *)
(** * excel-csv-converter.js *)
(* ================================================================== *)

Module Excel.

Record options := {
  fontSize : num;
  headerFontSize : num;
  maxRowsPerPage : nat;
  maxColumnsPerPage : nat;
  pageWidth : num;
  pageHeight : num;
  margin : num;
  lineHeight : num
}.

Definition defaults : options :=
  {| fontSize := int 10; headerFontSize := int 12; maxRowsPerPage := 30;
     maxColumnsPerPage := 6; pageWidth := int 842; pageHeight := int 595;
     margin := int 40; lineHeight := int 16 |}.

(** A row as [XLSX.utils.sheet_to_json(worksheet, { header: 1, raw: false,
    defval: '', blankrows: false })] returns it: the formatted text of each
    cell.  [Sheets wb name] is [None] when [workbook.Sheets[name]] is absent,
    and otherwise the rows of that call. *)
Definition row := list jsstring.

Record workbook := {
  SheetNames : list jsstring;
  Sheets : jsstring -> option (list row)
}.

(** [String(cell || '').trim()], cut to 15 characters and "..." past 18. *)
Definition formatCell (cell : jsstring) : jsstring :=
  let cellValue := trim cell in
  if 18 <? length cellValue then substring0 15 cellValue ++ js "..."
  else cellValue.

Definition dashes : jsstring := padEnd 20 45%N [].

(** The callback of [jsonData.forEach((row, index) => ...)]. *)
Definition addRow (o : options) (textContent : jsstring) (ir : nat * row)
  : jsstring :=
  let '(index, row) := ir in
  match row with
  | [] => textContent
  | _ :: _ =>
      let limitedRow := Pdf.slice 0 (maxColumnsPerPage o) row in
      let formattedCells := map formatCell limitedRow in
      let tableRow := join (js "| ") (map (padEnd 20 32%N) formattedCells) in
      let textContent := textContent ++ js "| " ++ tableRow ++ js "|\n" in
      if index =? 0 then
        let separator := join (js "+-") (map (fun _ => dashes) formattedCells) in
        textContent ++ js "+-" ++ separator ++ js "+\n"
      else textContent
  end.

(** The body of [for (const sheetName of workbook.SheetNames)]. *)
Definition addSheet (o : options) (wb : workbook) (textContent : jsstring)
    (sheetName : jsstring) : jsstring :=
  match Sheets wb sheetName with
  | None => textContent
  | Some jsonData =>
      let textContent :=
        if 1 <? length (SheetNames wb)
        then textContent ++ js "\n=== Sheet: " ++ sheetName ++ js " ===\n\n"
        else textContent in
      if 0 <? length jsonData then
        let textContent :=
          fold_left (addRow o) (combine (seq 0 (length jsonData)) jsonData)
            textContent in
        let textContent :=
          if 1 <? length jsonData then
            let lastRow := last jsonData [] in
            let bottomBorder :=
              join (js "+-")
                (map (fun _ => dashes) (Pdf.slice 0 (maxColumnsPerPage o) lastRow)) in
            textContent ++ js "+-" ++ bottomBorder ++ js "+\n"
          else textContent in
        textContent ++ js "\n"
      else textContent
  end.

(** [extractSimpleTableText(workbook)] *)
Definition extractSimpleTableText (o : options) (wb : workbook) : jsstring :=
  trim (fold_left (addSheet o wb) (SheetNames wb) []).

(** [cleanTableText(text)]: the characters the class keeps besides
    [\x20-\x7E] and the newline already lie in that range. *)
Definition cleanTableText (text : jsstring) : jsstring :=
  trim
    (replace_nl_ws false
      (collapse_ws false
        (map (fun c => if ((32 <=? c) && (c <=? 126) || (c =? 10)
                           || (c =? 124) || (c =? 43) || (c =? 45))%N
                       then c else 32%N)
          (replaceChar 9 (js "    ")
            (replaceChar 13 (js "\n")
              (replace_crlf text)))))).

(** [splitIntoLines(text)]: table lines are kept whole, the rest is wrapped
    at 90 characters like in the DOCX converter. *)
Definition wrapParagraph (lines : list jsstring) (paragraph : jsstring)
  : list jsstring :=
  match trim paragraph with
  | [] => lines ++ [[]]
  | _ :: _ =>
      if includes (js "|") paragraph || includes (js "+") paragraph
      then lines ++ [trim paragraph]
      else
        let words := split_ws (trim paragraph) in
        let maxLength := 90 in
        let '(lines', currentLine) :=
          fold_left (Docx.wrapWord maxLength) words (lines, []) in
        match currentLine with
        | [] => lines'
        | _ :: _ => lines' ++ [currentLine]
        end
  end.

Definition splitIntoLines (text : jsstring) : list jsstring :=
  fold_left wrapParagraph (split 10 text) [].

(** [escapePdfString(str)] *)
Definition escapePdfString (str : jsstring) : jsstring :=
  match str with
  | [] => []
  | _ :: _ =>
      substring0 90
        (replaceChar 10 (js "\\n")
          (replaceChar 13 (js "\\r")
            (replaceChar 41 (js "\\)")
              (replaceChar 40 (js "\\(")
                (replaceChar 92 (js "\\\\") str)))))
  end.

(** [Math.floor((pageHeight - (margin * 2)) / lineHeight)], computed as the
    source computes it, in binary64.  A quotient that is infinite or not a
    number (a zero line height) is given as [0]: like a count that is not
    positive, it is outside what [createPdfStructure] is modelled for. *)
Definition maxLinesPerPage (o : options) : Z :=
  match floor (div (sub (toNumber (pageHeight o))
                        (mul (toNumber (margin o)) (ofZ 2)))
                   (toNumber (lineHeight o))) with
  | Some n => n
  | None => 0%Z
  end.

Definition showLine (o : options) (line : jsstring) : jsstring :=
  js "(" ++ escapePdfString line ++ js ") Tj\n0 -" ++ numToString (lineHeight o)
  ++ js " Td\n".

(** [fileName || 'Converted File'] and the like. *)
Definition orElse (s fallback : jsstring) : jsstring :=
  match s with
  | [] => fallback
  | _ :: _ => s
  end.

(** The body of the loop "Build PDF content streams for each page". *)
Definition contentStream (o : options) (mlpp totalPages : nat)
    (lines : list jsstring) (fileName : jsstring) (pageNum : nat) : jsstring :=
  let startLine := pageNum * mlpp in
  let endLine := Nat.min (startLine + mlpp) (length lines) in
  let pageLines := Pdf.slice startLine endLine lines in
  js "BT\n/F1 12 Tf\n50 520 Td\n"
  ++ (if pageNum =? 0
      then (js "(Excel/CSV Table: "
            ++ escapePdfString (orElse fileName (js "Converted File"))
            ++ js ") Tj\n0 -20 Td\n")
           ++ js "0 -10 Td\n"
      else [])
  ++ (if 1 <? totalPages
      then js "/F1 10 Tf\n(Page " ++ dec (pageNum + 1) ++ js " of "
           ++ dec totalPages ++ js ") Tj\n0 -15 Td\n/F1 "
           ++ numToString (fontSize o) ++ js " Tf\n"
      else [])
  ++ concat (map (showLine o) pageLines)
  ++ js "ET".

(** [createPdfStructure(lines, fileName)]; [None] as for the DOCX converter. *)
Definition totalPages (o : options) (lines : list jsstring) : nat :=
  Pdf.totalPages (length lines) (Z.to_nat (maxLinesPerPage o)).

Definition contentStreams (o : options) (lines : list jsstring)
    (fileName : jsstring) : list jsstring :=
  map (contentStream o (Z.to_nat (maxLinesPerPage o)) (totalPages o lines)
         lines fileName)
    (seq 0 (totalPages o lines)).

Definition objectSection (o : options) (lines : list jsstring)
    (fileName : jsstring) : Pdf.writer :=
  Pdf.objects (js "Courier") (pageWidth o) (pageHeight o)
    (totalPages o lines) (contentStreams o lines fileName).

Definition createPdfStructure (o : options) (lines : list jsstring)
    (fileName : jsstring) : option bytes :=
  if (0 <? maxLinesPerPage o)%Z
  then Some (encode (Pdf.document (objectSection o lines fileName)))
  else None.

(** [createSimpleTablePdf(textContent, fileName)] *)
Definition createSimpleTablePdf (o : options) (textContent fileName : jsstring)
  : option (result Blob) :=
  let cleanText := cleanTableText textContent in
  let lines := splitIntoLines cleanText in
  match createPdfStructure o lines fileName with
  | Some pdf => Some (Ok {| blob_data := pdf; blob_type := js "application/pdf" |})
  | None => None
  end.

Definition errorText (errorMessage fileName : jsstring) : jsstring :=
  js "Excel/CSV Table Conversion Error\n\nThe Excel/CSV file could not be converted to PDF.\n\nFile: "
  ++ orElse fileName (js "Unknown") ++ js "\nError: " ++ errorMessage
  ++ js "\n\nThis may happen with:\n\u2022 Complex Excel formulas\n\u2022 Large files with many columns\n\u2022 Corrupted spreadsheet files\n\u2022 Unsupported Excel features\n\nPlease try:\n\u2022 Converting to PDF manually\n\u2022 Using simpler Excel/CSV format\n\u2022 Reducing file size\n\u2022 Checking the original file".

Definition minimalPdf : jsstring :=
  js "%PDF-1.4\n1 0 obj\n<<\n/Type /Catalog\n/Pages 2 0 R\n>>\nendobj\n2 0 obj\n<<\n/Type /Pages\n/Kids [3 0 R]\n/Count 1\n>>\nendobj\n3 0 obj\n<<\n/Type /Page\n/Parent 2 0 R\n/MediaBox [0 0 842 595]\n/Resources <<\n/Font <<\n/F1 <<\n/Type /Font\n/Subtype /Type1\n/BaseFont /Courier\n>>\n>>\n>>\n/Contents 4 0 R\n>>\nendobj\n4 0 obj\n<<\n/Length 58\n>>\nstream\nBT\n/F1 12 Tf\n50 520 Td\n(Excel/CSV Table Conversion Failed) Tj\nET\nendstream\nendobj\nxref\n0 5\n0000000000 65535 f \n0000000009 00000 n \n0000000058 00000 n \n0000000115 00000 n \n0000000356 00000 n \ntrailer\n<<\n/Size 5\n/Root 1 0 R\n>>\nstartxref\n464\n%%EOF".

(** [createErrorPdf(errorMessage, fileName)]: here the call in the [try] is
    synchronous, so whatever it throws is replaced by [minimalPdf]. *)
Definition createErrorPdf (o : options) (errorMessage fileName : jsstring)
  : option (result Blob) :=
  match createSimpleTablePdf o (errorText errorMessage fileName) fileName with
  | None => None
  | Some (Ok blob) => Some (Ok blob)
  | Some (Throw _) =>
      Some (Ok {| blob_data := encode minimalPdf;
                  blob_type := js "application/pdf" |})
  end.

Section Convert.

(** [String.prototype.toLowerCase] and [toUpperCase] (Unicode case tables),
    and the outcome of [XLSX.read] on the buffer: for the text of a [.csv]
    file ([true]) or for the raw array ([false]). *)
Variable toLowerCase toUpperCase : jsstring -> jsstring.
Variable XLSX_read : bool -> result workbook.

(** [getFileExtension(fileName)] *)
Definition getFileExtension (fileName : jsstring) : jsstring :=
  match fileName with
  | [] => js "unknown"
  | _ :: _ => orElse (last (split 46 (toLowerCase fileName)) []) (js "unknown")
  end.

(** [parseFile(fileBuffer, fileExtension)] *)
Definition parseFile (fileExtension : jsstring) : result workbook :=
  match XLSX_read (eqs fileExtension (js "csv")) with
  | Ok workbook => Ok workbook
  | Throw message =>
      Throw (js "Failed to parse " ++ toUpperCase fileExtension ++ js ": "
             ++ message)
  end.

(** [convertToPdf(fileBuffer, fileName = '')] *)
Definition convertToPdf (o : options) (fileName : jsstring)
  : option (result Blob) :=
  let attempt : option (result Blob) :=
    let fileExtension := getFileExtension fileName in
    match parseFile fileExtension with
    | Throw m => Some (Throw m)
    | Ok workbook =>
        match SheetNames workbook with
        | [] => Some (Throw (js "No sheets found in file"))
        | _ :: _ =>
            let textContent := extractSimpleTableText o workbook in
            match trim textContent with
            | [] => Some (Throw (js "No data found in file"))
            | _ :: _ => createSimpleTablePdf o textContent fileName
            end
        end
    end in
  match attempt with
  | None => None
  | Some (Ok pdfBlob) => Some (Ok pdfBlob)
  | Some (Throw message) =>
      match createErrorPdf o message fileName with
      | None => None
      | Some (Ok blob) => Some (Ok blob)
      | Some (Throw fallback) =>
          Some (Throw (js "Excel/CSV conversion failed: " ++ message
                       ++ js ". Fallback also failed: " ++ fallback))
      end
  end.

End Convert.

End Excel.

(* ================================================================== *)
(** * The S3 downloader ([SecureS3Downloader]) *)
(* ================================================================== *)

Module S3.

(** The replace chain applied to [encodeURIComponent(part)]. *)
Definition postEncode (e : jsstring) : jsstring :=
  replace3 37 50 48 (js "%20")
    (replaceChar 43 (js "%2B")
      (replaceChar 61 (js "%3D")
        (replaceChar 38 (js "%26")
          (replaceChar 63 (js "%3F")
            (replaceChar 35 (js "%23")
              (replaceChar 125 (js "%7D")
                (replaceChar 123 (js "%7B")
                  (replaceChar 93 (js "%5D")
                    (replaceChar 91 (js "%5B")
                      (replaceChar 41 (js "%29")
                        (replaceChar 40 (js "%28")
                          (flat_map
                             (fun c => if existsb (N.eqb c) (js "!'()*")
                                       then js "%" ++ toString16Upper c
                                       else [c])
                             e)))))))))))).

(** The callback of [pathParts.map]; [None] is the [URIError] that
    [encodeURIComponent] throws. *)
Definition encodePart (part : jsstring) : option jsstring :=
  option_map postEncode (encodeURIComponent part).

Fixpoint mapM {A B} (f : A -> option B) (l : list A) : option (list B) :=
  match l with
  | [] => Some []
  | a :: r =>
      match f a, mapM f r with
      | Some b, Some bs => Some (b :: bs)
      | _, _ => None
      end
  end.

(** [encodeS3Key(key)] *)
Definition encodeS3Key (key : jsstring) : option jsstring :=
  let decodedKey :=
    match decodeURIComponent key with
    | Some d => d
    | None => key
    end in
  let pathParts := split 47 decodedKey in
  option_map (join (js "/")) (mapM encodePart pathParts).

(** ** The world around a download *)

Record request := {
  url : jsstring;
  headers : list (jsstring * jsstring)
}.

Record response := {
  status : nat;
  statusText : jsstring;
  contentType : option jsstring;
  arrayBuffer : result bytes
}.

(** [response.ok] *)
Definition ok (r : response) : bool := (200 <=? status r) && (status r <=? 299).

(** What one call of [fetch] does: it rejects, or resolves to a response. *)
Inductive fetched :=
| Rejected (message : jsstring)
| Resolved (r : response).

Inductive strategy := PresignedUrl | DirectSigning | SimpleAuth.

Inductive event :=
| Progress (percentage : nat) (message : jsstring) (signedUrl : option jsstring)
| Fetch (r : request)
| Sleep (ms : nat).

(** The mutable state: [this.lastGeneratedPresignedUrl], the effects so far
    ([trace]: progress callbacks, requests, back-off delays), the download
    methods called so far ([invoked]), and how often the network and the
    clock have been consulted. *)
Record state := {
  lastGeneratedPresignedUrl : option jsstring;
  trace : list event;
  invoked : list strategy;
  fetches : nat;
  clockReads : nat
}.

Definition initial : state :=
  {| lastGeneratedPresignedUrl := None; trace := []; invoked := [];
     fetches := 0; clockReads := 0 |}.

(** Computations that may throw, over that state. *)
Definition M (A : Type) := state -> result A * state.

Definition ret {A} (a : A) : M A := fun s => (Ok a, s).
Definition throw {A} (message : jsstring) : M A := fun s => (Throw message, s).
Definition bind {A B} (m : M A) (k : A -> M B) : M B :=
  fun s => match m s with
           | (Ok a, s') => k a s'
           | (Throw e, s') => (Throw e, s')
           end.
Definition catch {A} (m : M A) (handler : jsstring -> M A) : M A :=
  fun s => match m s with
           | (Ok a, s') => (Ok a, s')
           | (Throw e, s') => handler e s'
           end.

Notation "x <- m ;; k" := (bind m (fun x => k))
  (at level 61, m at next level, right associativity).
Notation "m ;;; k" := (bind m (fun _ => k))
  (at level 61, right associativity).

Definition log (e : event) : M unit :=
  fun s => (Ok tt,
            {| lastGeneratedPresignedUrl := lastGeneratedPresignedUrl s;
               trace := trace s ++ [e]; invoked := invoked s;
               fetches := fetches s; clockReads := clockReads s |}).

Definition onProgress (percentage : nat) (message : jsstring)
    (signedUrl : option jsstring) : M unit :=
  log (Progress percentage message signedUrl).

Definition setLast (u : jsstring) : M unit :=
  fun s => (Ok tt,
            {| lastGeneratedPresignedUrl := Some u;
               trace := trace s; invoked := invoked s;
               fetches := fetches s; clockReads := clockReads s |}).

Definition getLast : M (option jsstring) :=
  fun s => (Ok (lastGeneratedPresignedUrl s), s).

Definition call (k : strategy) : M unit :=
  fun s => (Ok tt,
            {| lastGeneratedPresignedUrl := lastGeneratedPresignedUrl s;
               trace := trace s; invoked := invoked s ++ [k];
               fetches := fetches s; clockReads := clockReads s |}).

Definition liftOption {A} (message : jsstring) (o : option A) : M A :=
  match o with
  | Some a => ret a
  | None => throw message
  end.

Definition liftResult {A} (r : result A) : M A :=
  match r with
  | Ok a => ret a
  | Throw e => throw e
  end.

(** A key given to [CryptoJS.HmacSHA256]: a string or a word array. *)
Inductive hmacKey := KeyString (s : jsstring) | KeyWords (w : bytes).

Record download := {
  buffer : bytes;
  dlContentType : jsstring;
  size : nat;
  presignedUrl : option jsstring
}.

(** [URLSearchParams.prototype.toString]: the form-urlencoded serialisation
    of the UTF-8 octets of names and values. *)
Definition formEncode (s : jsstring) : jsstring :=
  flat_map
    (fun b => if is_alnum b || existsb (N.eqb b) (js "*-._") then [b]
              else if (b =? 32)%N then js "+" else pct b)
    (encode s).

Definition queryString (params : list (jsstring * jsstring)) : jsstring :=
  join (js "&") (map (fun p => formEncode (fst p) ++ js "=" ++ formEncode (snd p)) params).

(** [WordArray.prototype.toString]: lower-case hexadecimal. *)
Definition hexLower (w : bytes) : jsstring :=
  flat_map (fun b => [nth (N.to_nat (b / 16)) (js "0123456789abcdef") 48%N;
                      nth (N.to_nat (b mod 16)) (js "0123456789abcdef") 48%N]) w.

(** [iso.replace(/[:-]|\.\d{3}/g, '')] *)
Definition is_digit (c : N) : bool := ((48 <=? c) && (c <=? 57))%N.

Fixpoint amzDateOf (iso : jsstring) : jsstring :=
  match iso with
  | [] => []
  | c :: r =>
      if ((c =? 58) || (c =? 45))%N then amzDateOf r
      else
        match r with
        | d1 :: d2 :: d3 :: r' =>
            if (c =? 46)%N && is_digit d1 && is_digit d2 && is_digit d3
            then amzDateOf r'
            else c :: amzDateOf r
        | _ => c :: amzDateOf r
        end
  end.

Section Downloader.

(** The instance fields. *)
Variables accessKey secretKey sessionToken region : jsstring.

(** The libraries and the environment: CryptoJS ([SHA256] and [HmacSHA256]
    give the digest octets), [btoa] (which throws on a character above 255),
    the [k]-th reading of the clock as [toISOString] prints it, and what the
    [n]-th call of [fetch] does with a request. *)
Variable SHA256 : jsstring -> bytes.
Variable HmacSHA256 : jsstring -> hmacKey -> bytes.
Variable btoa : jsstring -> result jsstring.
Variable clock : nat -> jsstring.
Variable network : nat -> request -> fetched.

(** [new Date().toISOString()] *)
Definition now : M jsstring :=
  fun s => (Ok (clock (clockReads s)),
            {| lastGeneratedPresignedUrl := lastGeneratedPresignedUrl s;
               trace := trace s; invoked := invoked s;
               fetches := fetches s; clockReads := S (clockReads s) |}).

(** [await fetch(url, options)] *)
Definition fetch (r : request) : M response :=
  fun s =>
    let s' := {| lastGeneratedPresignedUrl := lastGeneratedPresignedUrl s;
                 trace := trace s ++ [Fetch r]; invoked := invoked s;
                 fetches := S (fetches s); clockReads := clockReads s |} in
    match network (fetches s) r with
    | Rejected message => (Throw message, s')
    | Resolved resp => (Ok resp, s')
    end.

(** The signing chain shared by [createPresignedUrl] and
    [createSignedHeaders]. *)
Definition signature (dateStamp service stringToSign : jsstring) : jsstring :=
  let kDate := HmacSHA256 dateStamp (KeyString (js "AWS4" ++ secretKey)) in
  let kRegion := HmacSHA256 region (KeyWords kDate) in
  let kService := HmacSHA256 service (KeyWords kRegion) in
  let kSigning := HmacSHA256 (js "aws4_request") (KeyWords kService) in
  hexLower (HmacSHA256 stringToSign (KeyWords kSigning)).

Definition host (bucketName : jsstring) : jsstring :=
  bucketName ++ js ".s3." ++ region ++ js ".amazonaws.com".

(** The canonical request and the signature of [createPresignedUrl], for a
    given reading [iso] of the clock. *)
Definition presignedParams (amzDate credentialScope : jsstring)
    (expirationSeconds : nat) : list (jsstring * jsstring) :=
  [ (js "X-Amz-Algorithm", js "AWS4-HMAC-SHA256");
    (js "X-Amz-Credential", accessKey ++ js "/" ++ credentialScope);
    (js "X-Amz-Date", amzDate);
    (js "X-Amz-Expires", dec expirationSeconds);
    (js "X-Amz-Security-Token", sessionToken);
    (js "X-Amz-SignedHeaders", js "host") ].

Definition presignedCanonicalRequest (bucketName encodedKey amzDate
    credentialScope : jsstring) (expirationSeconds : nat) : jsstring :=
  join (js "\n")
    [ js "GET"; js "/" ++ encodedKey;
      queryString (presignedParams amzDate credentialScope expirationSeconds);
      js "host:" ++ host bucketName ++ js "\n"; js "host"; js "UNSIGNED-PAYLOAD" ].

Definition stringToSign (amzDate credentialScope canonicalRequest : jsstring)
  : jsstring :=
  join (js "\n")
    [ js "AWS4-HMAC-SHA256"; amzDate; credentialScope;
      hexLower (SHA256 canonicalRequest) ].

(** [createPresignedUrl(bucketName, fileName, expirationSeconds = 3600)] *)
Definition createPresignedUrl (bucketName fileName : jsstring)
    (expirationSeconds : nat) : M jsstring :=
  catch
    (encodedKey <- liftOption (js "URI malformed") (encodeS3Key fileName) ;;
     let canonicalUri := js "/" ++ encodedKey in
     iso <- now ;;
     let amzDate := amzDateOf iso in
     let dateStamp := firstn 8 amzDate in
     let credentialScope :=
       dateStamp ++ js "/" ++ region ++ js "/s3/aws4_request" in
     let canonicalRequest :=
       presignedCanonicalRequest bucketName encodedKey amzDate credentialScope
         expirationSeconds in
     let sig :=
       signature dateStamp (js "s3")
         (stringToSign amzDate credentialScope canonicalRequest) in
     ret (js "https://" ++ host bucketName ++ canonicalUri ++ js "?"
          ++ queryString
               (presignedParams amzDate credentialScope expirationSeconds
                ++ [(js "X-Amz-Signature", sig)])))
    (fun message =>
       throw (js "Failed to create enhanced pre-signed URL: " ++ message)).

Definition headerCanonicalRequest (method bucketName encodedFileName
    amzDate : jsstring) : jsstring :=
  join (js "\n")
    [ method; js "/" ++ encodedFileName; [];
      js "host:" ++ host bucketName ++ js "\nx-amz-date:" ++ amzDate ++ js "\n";
      js "host;x-amz-date"; js "UNSIGNED-PAYLOAD" ].

(** [createSignedHeaders(method, bucketName, fileName)] *)
Definition createSignedHeaders (method bucketName fileName : jsstring)
  : M (list (jsstring * jsstring)) :=
  catch
    (iso <- now ;;
     let amzDate := amzDateOf iso in
     let dateStamp := firstn 8 amzDate in
     let credentialScope :=
       dateStamp ++ js "/" ++ region ++ js "/s3/aws4_request" in
     let credential := accessKey ++ js "/" ++ credentialScope in
     encodedFileName <- liftOption (js "URI malformed") (encodeS3Key fileName) ;;
     let canonicalRequest :=
       headerCanonicalRequest method bucketName encodedFileName amzDate in
     let sig :=
       signature dateStamp (js "s3")
         (stringToSign amzDate credentialScope canonicalRequest) in
     ret [ (js "Authorization",
            js "AWS4-HMAC-SHA256 Credential=" ++ credential
            ++ js ", SignedHeaders=host;x-amz-date, Signature=" ++ sig);
           (js "X-Amz-Date", amzDate);
           (js "X-Amz-Content-Sha256", js "UNSIGNED-PAYLOAD");
           (js "X-Amz-Security-Token", sessionToken) ])
    (fun message =>
       throw (js "Failed to create enhanced signed headers: " ++ message)).

(** [fetchWithRetry(url, options, retries = 3)]: round [i] of the loop, with
    [left] rounds to go.  A loop that runs out returns [undefined]. *)
Fixpoint fetchLoop (r : request) (retries left i : nat) : M (option response) :=
  match left with
  | 0 => ret None
  | S left' =>
      catch (resp <- fetch r ;; ret (Some resp))
        (fun error =>
           if i =? retries - 1 then throw error
           else log (Sleep (1000 * (i + 1))) ;;; fetchLoop r retries left' (S i))
  end.

Definition fetchWithRetry (r : request) : M (option response) :=
  fetchLoop r 3 3 0.

(** What follows [fetchWithRetry] in each of the three download methods. *)
Definition receive (failure : jsstring) (u : jsstring)
    (resp : option response) : M download :=
  match resp with
  | None => throw (js "Cannot read properties of undefined (reading 'ok')")
  | Some response =>
      if negb (ok response) then
        throw (failure ++ dec (status response) ++ js " " ++ statusText response)
      else
        onProgress 80 (js "Processing downloaded data...") (Some u) ;;;
        arrayBuffer <- liftResult (arrayBuffer response) ;;
        onProgress 100 (js "Download completed") (Some u) ;;;
        ret {| buffer := arrayBuffer;
               dlContentType :=
                 match contentType response with
                 | Some (c :: t) => c :: t
                 | _ => js "application/pdf"
                 end;
               size := length arrayBuffer;
               presignedUrl := Some u |}
  end.

(** [downloadWithPresignedUrl(bucketName, fileName, onProgress)] *)
Definition downloadWithPresignedUrl (bucketName fileName : jsstring)
  : M download :=
  onProgress 20 (js "Creating pre-signed URL...") None ;;;
  signedUrl <- createPresignedUrl bucketName fileName 3600 ;;
  setLast signedUrl ;;;
  onProgress 40 (js "Downloading via pre-signed URL...") (Some signedUrl) ;;;
  resp <- fetchWithRetry
            {| url := signedUrl;
               headers := [(js "Accept", js "application/pdf,*/*")] |} ;;
  receive (js "Pre-signed URL download failed: ") signedUrl resp.

(** [downloadWithDirectSigning(bucketName, fileName, onProgress)] *)
Definition downloadWithDirectSigning (bucketName fileName : jsstring)
  : M download :=
  onProgress 20 (js "Creating direct signed request...") None ;;;
  encodedFileName <- liftOption (js "URI malformed") (encodeS3Key fileName) ;;
  let u := js "https://" ++ host bucketName ++ js "/" ++ encodedFileName in
  signedHeaders <- createSignedHeaders (js "GET") bucketName fileName ;;
  setLast u ;;;
  onProgress 40 (js "Downloading with signed headers...") (Some u) ;;;
  resp <- fetchWithRetry
            {| url := u;
               headers := signedHeaders ++ [(js "Accept", js "application/pdf,*/*")] |} ;;
  receive (js "Direct signed download failed: ") u resp.

(** [downloadWithSimpleAuth(bucketName, fileName, onProgress)] *)
Definition downloadWithSimpleAuth (bucketName fileName : jsstring)
  : M download :=
  onProgress 20 (js "Trying simple authentication...") None ;;;
  encodedFileName <- liftOption (js "URI malformed") (encodeS3Key fileName) ;;
  let u := js "https://" ++ host bucketName ++ js "/" ++ encodedFileName in
  authHeader <- liftResult (btoa (accessKey ++ js ":" ++ secretKey)) ;;
  setLast u ;;;
  onProgress 40 (js "Downloading with basic auth...") (Some u) ;;;
  resp <- fetchWithRetry
            {| url := u;
               headers := [ (js "Authorization", js "Basic " ++ authHeader);
                            (js "Accept", js "application/pdf,*/*") ] |} ;;
  receive (js "Simple auth download failed: ") u resp.

(** The array [strategies] of [downloadFile]. *)
Definition run (k : strategy) (bucketName fileName : jsstring) : M download :=
  match k with
  | PresignedUrl => downloadWithPresignedUrl bucketName fileName
  | DirectSigning => downloadWithDirectSigning bucketName fileName
  | SimpleAuth => downloadWithSimpleAuth bucketName fileName
  end.

Definition strategies : list strategy := [PresignedUrl; DirectSigning; SimpleAuth].

(** The test in the [catch] of the loop: "a credential issue". *)
Definition credentialIssue (message : jsstring) : bool :=
  includes (js "403") message || includes (js "Access denied") message.

(** The [try] block of round [i]. *)
Definition attempt (bucketName fileName : jsstring) (i : nat) (k : strategy)
  : M download :=
  last <- getLast ;;
  onProgress (10 + i * 10)
    (js "Trying download method " ++ dec (i + 1) ++ js "...") last ;;;
  call k ;;;
  result <- run k bucketName fileName ;;
  last' <- getLast ;;
  ret {| buffer := buffer result; dlContentType := dlContentType result;
         size := size result; presignedUrl := last' |}.

(** The loop [for (let i = 0; i < strategies.length; i++)] from round [i]
    on, followed by [throw lastError || new Error(...)]. *)
Fixpoint tryAll (bucketName fileName : jsstring) (todo : list strategy)
    (i : nat) (lastError : option jsstring) : M download :=
  match todo with
  | [] =>
      throw (match lastError with
             | Some error => error
             | None => js "All download methods failed"
             end)
  | k :: rest =>
      catch (attempt bucketName fileName i k)
        (fun error =>
           if credentialIssue error then throw error
           else tryAll bucketName fileName rest (S i) (Some error))
  end.

(** [downloadFile(bucketName, fileName, onProgress)]; the outer [catch]
    logs and rethrows. *)
Definition downloadFile (bucketName fileName : jsstring) : M download :=
  catch
    (onProgress 5 (js "Initializing download...") None ;;;
     tryAll bucketName fileName strategies 0 None)
    (fun error => throw error).

End Downloader.

End S3.

(* ================================================================== *)
(** * Specification vocabulary *)
(* ================================================================== *)

(** The predicates and auxiliary functions the theorems below are stated
    with.  None of them is part of the program. *)

(** [pat] stands in [out] at byte position [pos]. *)
Definition at_offset (pos : nat) (pat out : bytes) : bool :=
  prefixb pat (skipn pos out).

(** The usual ceiling of [n / m]. *)
Definition ceil_div (n m : nat) : nat :=
  if n mod m =? 0 then n / m else n / m + 1.

(** A number is read off the output as a non-empty run of decimal digits. *)
Definition digit_value (c : N) : option nat :=
  if ((48 <=? c) && (c <=? 57))%N then Some (N.to_nat (c - 48)) else None.

Fixpoint read_digits (acc : nat) (bs : bytes) : option nat :=
  match bs with
  | [] => Some acc
  | c :: r =>
      match digit_value c with
      | Some d => read_digits (10 * acc + d) r
      | None => None
      end
  end.

Definition read_nat (bs : bytes) : option nat :=
  match bs with
  | [] => None
  | _ :: _ => read_digits 0 bs
  end.

Definition starts_with (pat out : bytes) : Prop := exists rest, out = pat ++ rest.

Definition ends_with (pat out : bytes) : Prop := exists front, out = front ++ pat.

(** Object [id] opens at byte [pos] of [out]: there stand the digits of
    [id], then [" 0 obj"]. *)
Definition object_at (out : bytes) (pos id : nat) : Prop :=
  exists ds,
    read_nat ds = Some id /\
    at_offset pos (ds ++ encode (js " 0 obj\n")) out = true.

(** At byte [pos] of [out] stands the content-stream object [id]: its
    dictionary declares [/Length declared], and [body] is what lies between
    [stream] and [endstream]. *)
Definition stream_at (out : bytes) (pos id declared : nat) (body : bytes)
  : Prop :=
  exists ds ls,
    read_nat ds = Some id /\
    read_nat ls = Some declared /\
    at_offset pos
      (ds ++ encode (js " 0 obj\n<<\n/Length ") ++ ls
       ++ encode (js "\n>>\nstream\n") ++ body
       ++ encode (js "\nendstream\nendobj\n")) out = true.

(** One line of the cross-reference table, recording the offset [pos]. *)
Definition xref_entry (entry : bytes) (pos : nat) : Prop :=
  exists ds, entry = ds ++ encode (js " 00000 n \n") /\ read_nat ds = Some pos.

(** From byte [tablePos] to its end, [out] is a cross-reference table whose
    lines record the offsets [offs], followed by a trailer with [/Root 1 0 R]
    and by [startxref] with the number [announced]. *)
Definition xref_at (out : bytes) (tablePos : nat) (offs : list nat)
    (announced : nat) : Prop :=
  exists count entries size sx,
    tablePos <= length out /\
    skipn tablePos out
    = encode (js "xref\n0 ") ++ count
      ++ encode (js "\n0000000000 65535 f \n") ++ concat entries
      ++ encode (js "trailer\n<<\n/Size ") ++ size
      ++ encode (js "\n/Root 1 0 R\n>>\nstartxref\n") ++ sx
      ++ encode (js "\n%%EOF\n") /\
    read_nat count = Some (length offs + 1) /\
    read_nat size = Some (length offs + 1) /\
    Forall2 xref_entry entries offs /\
    read_nat sx = Some announced.

(** What the cross-reference claim asks of the bytes [out] of a file that
    holds the content streams [streams], read off [out] alone:
    - the header opens and the end-of-file marker closes the file;
    - the table stands at the byte position that [startxref] announces;
    - the offset its line [k] records is the byte position of ["k+1 0 obj"];
    - object [4 + 2p] is the content stream of page [p], and the [/Length]
      it declares is the number of bytes of its body. *)
Definition well_formed (streams : list jsstring) (out : bytes) : Prop :=
  starts_with (encode (js "%PDF-1.4\n")) out /\
  ends_with (encode (js "%%EOF\n")) out /\
  exists (offs : list nat) (tablePos : nat),
    xref_at out tablePos offs tablePos /\
    length offs = 2 + 2 * length streams /\
    (forall k pos, nth_error offs k = Some pos -> object_at out pos (k + 1)) /\
    (forall p stream, nth_error streams p = Some stream ->
       exists pos,
         nth_error offs (3 + 2 * p) = Some pos /\
         stream_at out pos (4 + 2 * p) (length (encode stream)) (encode stream)).

(** The octets a string gains when it is encoded. *)
Definition excess (s : jsstring) : nat := length (encode s) - length s.

(** The octets gained before line [k] of the table: those of the content
    streams written before object [k + 1], the streams of the first
    [(k - 2) / 2] pages. *)
Definition drift (k : nat) (streams : list jsstring) : nat :=
  list_sum (map excess (firstn ((k - 2) / 2) streams)).

(** What the writer does for every input: it counts UTF-16 code units.  The
    file is framed as above, but each object stands [drift] octets after
    the offset recorded for it, a stream declares the number of code units
    of its body, and the table stands [drift] octets after the position
    that [startxref] announces. *)
Definition counted_in_code_units (streams : list jsstring) (out : bytes)
  : Prop :=
  starts_with (encode (js "%PDF-1.4\n")) out /\
  ends_with (encode (js "%%EOF\n")) out /\
  exists (offs : list nat) (tablePos announced : nat),
    xref_at out tablePos offs announced /\
    length offs = 2 + 2 * length streams /\
    tablePos = announced + drift (length offs) streams /\
    (forall k pos, nth_error offs k = Some pos ->
       object_at out (pos + drift k streams) (k + 1)) /\
    (forall p stream, nth_error streams p = Some stream ->
       exists pos,
         nth_error offs (3 + 2 * p) = Some pos /\
         stream_at out (pos + drift (3 + 2 * p) streams) (4 + 2 * p)
           (length stream) (encode stream)).

(** The first code unit of a piece, if any, is ASCII. *)
Definition ascii_head (s : list N) : bool :=
  match s with
  | [] => true
  | c :: _ => (c <? 128)%N
  end.

(** The positions [emit] records for a run of objects written from [p]. *)
Fixpoint offsets (p : nat) (cs : list jsstring) : list nat :=
  match cs with
  | [] => []
  | c :: r => p :: offsets (p + length c) r
  end.

Definition emitAll (cs : list jsstring) (w : Pdf.writer) : Pdf.writer :=
  fold_left (fun w c => Pdf.emit c w) cs w.

(** The objects in the order the source writes them. *)
Definition objectList (baseFont : jsstring) (pw ph : num) (tp : nat)
    (streams : list jsstring) : list jsstring :=
  Pdf.catalogContent :: Pdf.pagesContent tp ::
  flat_map (fun p => [Pdf.pageContent baseFont pw ph (3 + p * 2) (3 + p * 2 + 1);
                      Pdf.streamContent (3 + p * 2 + 1) (nth p streams [])])
    (seq 0 tp).

Definition ascii_lines (lines : list jsstring) : Prop :=
  Forall (fun line => is_ascii line = true) lines.





(** The lines a wrapping state stands for once the pending line is flushed. *)
Definition flush (st : list jsstring * jsstring) : list jsstring :=
  match snd st with
  | [] => fst st
  | _ :: _ => fst st ++ [snd st]
  end.

(** [t] is a line already, or the pending line, full and therefore bound to
    be pushed by whatever comes next. *)
Definition kept (m : nat) (t : jsstring) (st : list jsstring * jsstring) : Prop :=
  In t (fst st) \/ (snd st = t /\ t <> [] /\ length t = m).

Definition narrow : Docx.options :=
  {| Docx.fontSize := int 12; Docx.lineHeight := int 14;
     Docx.margin := int 50; Docx.pageWidth := 59528%N;
     Docx.pageHeight := 84189%N; Docx.maxCharsPerLine := 5 |}.

(** The characters of the keys the round trip is stated for: any code unit
    of the Basic Multilingual Plane that is neither a surrogate nor the
    escape character [%]. *)
Definition key_char (c : N) : Prop :=
  (c <> 37 /\ (c < 55296 \/ 57344 <= c < 65536))%N.

(** What [encodeS3Key] makes of a key of the single character [c]. *)
Definition image (c : N) : jsstring :=
  match S3.encodeS3Key [c] with
  | Some e => e
  | None => []
  end.

(** [encodeURIComponent] on one character that is not a surrogate. *)
Definition escape1 (c : N) : jsstring :=
  if uri_unescaped c then [c] else flat_map pct (utf8_of_codepoint c).

(** The characters none of the replacements of [postEncode] looks for. *)
Definition untouched (x : N) : bool :=
  negb (existsb (N.eqb x) (js "!'()*[]{}#?&=+")).

Definition encode1 (c : N) : jsstring := S3.postEncode (escape1 c).

(** [encodeS3Key] leaves the path separator alone. *)
Definition encode1' (c : N) : jsstring :=
  if (c =? 47)%N then [47%N] else encode1 c.

(** The table as the specification describes it.  A row is drawn as
    ["| cell | cell |"], every cell cut to 18 characters (15 and an
    ellipsis) and padded to 20; a separator is a row of dashes of the same
    width. *)
Definition table_cell (cell : jsstring) : jsstring :=
  padEnd 20 32%N (Excel.formatCell cell).

Definition table_line (cells : Excel.row) : jsstring :=
  js "| " ++ join (js "| ") (map table_cell cells) ++ js "|".

Definition separator_line (columns : nat) : jsstring :=
  js "+-" ++ join (js "+-") (repeat (repeat 45%N 20) columns) ++ js "+".

(** The lines of one sheet: the header row, a separator, the other rows,
    and a separator after the last of them. *)
Definition sheet_lines (maxColumns : nat) (rows : list Excel.row)
  : list jsstring :=
  match rows with
  | [] => []
  | header :: others =>
      [table_line (firstn maxColumns header);
       separator_line (length (firstn maxColumns header))]
      ++ map (fun r => table_line (firstn maxColumns r)) others
      ++ match others with
         | [] => []
         | _ :: _ =>
             [separator_line (length (firstn maxColumns (last others [])))]
         end
  end.

Definition unlines (ls : list jsstring) : jsstring :=
  concat (map (fun l => l ++ js "\n") ls).

Definition banner (sheetName : jsstring) : jsstring :=
  js "\n=== Sheet: " ++ sheetName ++ js " ===\n\n".

(** The text of one sheet; a blank line closes a sheet that has rows. *)
Definition sheet_text (o : Excel.options) (wb : Excel.workbook)
    (sheetName : jsstring) : jsstring :=
  match Excel.Sheets wb sheetName with
  | None => []
  | Some rows =>
      (if 1 <? length (Excel.SheetNames wb) then banner sheetName else [])
      ++ unlines (sheet_lines (Excel.maxColumnsPerPage o) rows)
      ++ match rows with [] => [] | _ :: _ => js "\n" end
  end.

(** Rows as [sheet_to_json] returns them with [blankrows: false]: none is
    empty. *)
Definition proper_rows (wb : Excel.workbook) : Prop :=
  forall name rows, Excel.Sheets wb name = Some rows ->
    Forall (fun r => r <> []) rows.

Definition ascii (s : jsstring) : Prop := Forall (fun c => (c < 128)%N) s.

(** The message [convertToPdf] hands to [createErrorPdf], when the
    conversion itself fails. *)
Definition docx_failure (extracted : result jsstring) : option jsstring :=
  match extracted with
  | Throw m => Some m
  | Ok textContent =>
      match trim textContent with
      | [] => Some (js "No text content found in DOCX file")
      | _ :: _ => None
      end
  end.

(** The text [convertToPdf] typesets: the extracted text, or the error page
    for the message. *)
Definition docx_source (extracted : result jsstring) : jsstring :=
  match docx_failure extracted with
  | Some message => Docx.errorText message
  | None =>
      match extracted with
      | Ok textContent => textContent
      | Throw _ => []
      end
  end.

Definition docx_lines (o : Docx.options) (extracted : result jsstring)
  : list jsstring :=
  Docx.splitIntoLines o (Docx.cleanText (docx_source extracted)).

(** The same for the Excel converter: the message it hands to
    [createErrorPdf] when the workbook cannot be read, has no sheet or gives
    a blank text, and the text it typesets. *)
Definition excel_failure (toLowerCase toUpperCase : jsstring -> jsstring)
    (XLSX_read : bool -> result Excel.workbook) (o : Excel.options)
    (fileName : jsstring) : option jsstring :=
  match Excel.parseFile toUpperCase XLSX_read
          (Excel.getFileExtension toLowerCase fileName) with
  | Throw message => Some message
  | Ok workbook =>
      match Excel.SheetNames workbook with
      | [] => Some (js "No sheets found in file")
      | _ :: _ =>
          match trim (Excel.extractSimpleTableText o workbook) with
          | [] => Some (js "No data found in file")
          | _ :: _ => None
          end
      end
  end.

Definition excel_source (toLowerCase toUpperCase : jsstring -> jsstring)
    (XLSX_read : bool -> result Excel.workbook) (o : Excel.options)
    (fileName : jsstring) : jsstring :=
  match excel_failure toLowerCase toUpperCase XLSX_read o fileName with
  | Some message => Excel.errorText message fileName
  | None =>
      match Excel.parseFile toUpperCase XLSX_read
              (Excel.getFileExtension toLowerCase fileName) with
      | Ok workbook => Excel.extractSimpleTableText o workbook
      | Throw _ => []
      end
  end.

Definition excel_lines (toLowerCase toUpperCase : jsstring -> jsstring)
    (XLSX_read : bool -> result Excel.workbook) (o : Excel.options)
    (fileName : jsstring) : list jsstring :=
  Excel.splitIntoLines
    (Excel.cleanTableText
       (excel_source toLowerCase toUpperCase XLSX_read o fileName)).

(** The state in which the loop starts: after [onProgress(5, ...)]. *)
Definition entering (s : S3.state) : S3.state :=
  snd (S3.onProgress 5 (js "Initializing download...") None s).

(** [failing attempt todo i s lastError s' lastError']: from state [s],
    rounds [i, i+1, ...] run the methods [todo] by [attempt]; each throws an
    error that is not a credential issue, and the loop stands in [s'] with
    [lastError']. *)
Inductive failing (attempt : nat -> S3.strategy -> S3.M S3.download) :
    list S3.strategy -> nat -> S3.state -> option jsstring ->
    S3.state -> option jsstring -> Prop :=
| failing_nil i s lastError : failing attempt [] i s lastError s lastError
| failing_cons k todo i s lastError e s1 s2 lastError2 :
    attempt i k s = (Throw e, s1) ->
    S3.credentialIssue e = false ->
    failing attempt todo (S i) s1 (Some e) s2 lastError2 ->
    failing attempt (k :: todo) i s lastError s2 lastError2.

(** A computation that calls no download method. *)
Definition quiet {A} (m : S3.M A) : Prop :=
  forall s, S3.invoked (snd (m s)) = S3.invoked s.

(** Case mapping on the letters A-Z, a-z: what [toLowerCase] and
    [toUpperCase] do on the file names used below. *)
Definition lowerAscii (s : jsstring) : jsstring :=
  map (fun c => if ((65 <=? c) && (c <=? 90))%N then (c + 32)%N else c) s.

Definition upperAscii (s : jsstring) : jsstring :=
  map (fun c => if ((97 <=? c) && (c <=? 122))%N then (c - 32)%N else c) s.

(** A downloader whose every request is rejected by the network, the
    [n]-th with the message ["net n"]. *)
Definition offline (n : nat) (r : S3.request) : S3.fetched :=
  S3.Rejected (js "net " ++ dec n).

(** A downloader whose every request is answered [403 Forbidden]. *)
Definition forbidden (n : nat) (r : S3.request) : S3.fetched :=
  S3.Resolved {| S3.status := 403; S3.statusText := js "Forbidden";
                 S3.contentType := None; S3.arrayBuffer := Ok [] |}.

(** The three rounds of [downloadFile] and the call itself, for the key
    ["My File.pdf"]; the digests are placeholders, the loop does not look at
    them. *)
Definition demo_attempt (network : nat -> S3.request -> S3.fetched)
  : nat -> S3.strategy -> S3.M S3.download :=
  S3.attempt (js "AKIAEXAMPLE") (js "secret") (js "token") (js "eu-west-1")
    (fun _ => []) (fun _ _ => []) (fun s => Ok s)
    (fun _ => js "2026-01-01T00:00:00.000Z") network
    (js "bucket") (js "My File.pdf").

Definition demo_downloadFile (network : nat -> S3.request -> S3.fetched)
  : S3.M S3.download :=
  S3.downloadFile (js "AKIAEXAMPLE") (js "secret") (js "token") (js "eu-west-1")
    (fun _ => []) (fun _ _ => []) (fun s => Ok s)
    (fun _ => js "2026-01-01T00:00:00.000Z") network
    (js "bucket") (js "My File.pdf").

Definition demo_workbook : Excel.workbook :=
  {| Excel.SheetNames := [js "Prices"];
     Excel.Sheets := fun _ =>
       Some [ [js "Name"; js "A very long description"];
              [js "bolt"; js "M8"] ] |}.

(** Printable ASCII: the characters [\x20-\x7E]. *)
Definition printable (s : jsstring) : Prop :=
  Forall (fun c => (32 <= c <= 126)%N) s.

(** [lines.slice(startLine, endLine)] for page [pageNum] of
    [createPdfStructure], with [m] lines to a page. *)
Definition pageLines (m : nat) (lines : list jsstring) (pageNum : nat)
  : list jsstring :=
  Pdf.slice (pageNum * m) (Nat.min (pageNum * m + m) (length lines)) lines.

(** The characters an encoded key is made of. *)
Definition url_safe (c : N) : bool :=
  is_alnum c || existsb (N.eqb c) (js "-_.~%/").

(** A downloader whose every request is answered with a small PDF. *)
Definition online (n : nat) (r : S3.request) : S3.fetched :=
  S3.Resolved {| S3.status := 200; S3.statusText := js "OK";
                 S3.contentType := Some (js "application/pdf");
                 S3.arrayBuffer := Ok [37%N; 80%N; 68%N; 70%N] |}.

(* ================================================================== *)
(** * Facts about the built-ins *)
(* ================================================================== *)

Lemma prefixb_app (p r : jsstring) : prefixb p (p ++ r) = true.
Proof.
  induction p as [|a p IH]; simpl; [reflexivity|].
  now rewrite N.eqb_refl, IH.
Qed.

Lemma at_offset_located (pos : nat) (pat a b : bytes) :
  length a = pos -> at_offset pos pat (a ++ pat ++ b) = true.
Proof.
  intros <-. unfold at_offset.
  rewrite skipn_app, skipn_all, Nat.sub_diag. simpl. apply prefixb_app.
Qed.

Lemma prefixb_app_app (x y z : jsstring) :
  prefixb (x ++ y) (x ++ z) = prefixb y z.
Proof.
  induction x as [|a x IH]; simpl; [reflexivity|].
  now rewrite N.eqb_refl, IH.
Qed.

Lemma prefixb_nil_app (x z : jsstring) : prefixb x (x ++ z) = true.
Proof. apply prefixb_app. Qed.

Lemma at_offset_app (pos : nat) (pat a rest : bytes) :
  length a = pos -> at_offset pos pat (a ++ rest) = prefixb pat rest.
Proof.
  intros <-. unfold at_offset.
  now rewrite skipn_app, skipn_all, Nat.sub_diag.
Qed.

Lemma is_ascii_app (a b : jsstring) :
  is_ascii (a ++ b) = is_ascii a && is_ascii b.
Proof. apply forallb_app. Qed.

Lemma is_ascii_concat (l : list jsstring) :
  Forall (fun s => is_ascii s = true) l -> is_ascii (concat l) = true.
Proof.
  induction 1 as [|s l Hs _ IH]; simpl; [reflexivity|].
  now rewrite is_ascii_app, Hs, IH.
Qed.

Lemma is_ascii_firstn (n : nat) (s : jsstring) :
  is_ascii s = true -> is_ascii (firstn n s) = true.
Proof.
  revert n; induction s as [|c s IH]; intros [|n]; simpl; auto.
  rewrite !andb_true_iff. intros [H1 H2]. auto.
Qed.

Lemma is_ascii_replaceChar (c : N) (rep s : jsstring) :
  is_ascii rep = true -> is_ascii s = true ->
  is_ascii (replaceChar c rep s) = true.
Proof.
  intros Hrep. induction s as [|x s IH]; simpl; [reflexivity|].
  rewrite andb_true_iff. intros [Hx Hs].
  rewrite is_ascii_app, (IH Hs), andb_true_r.
  destruct (x =? c)%N; [assumption|]. simpl. now rewrite Hx.
Qed.

Lemma is_ascii_digits (u : Decimal.uint) : is_ascii (digits u) = true.
Proof. induction u; simpl; auto. Qed.

Lemma is_ascii_dec (n : nat) : is_ascii (dec n) = true.
Proof. apply is_ascii_digits. Qed.

Lemma is_ascii_single (c : N) : (c < 128)%N -> is_ascii [c] = true.
Proof. intros H. unfold is_ascii. simpl. now apply N.ltb_lt in H as ->. Qed.

Lemma is_ascii_numToString (x : num) : is_ascii (numToString x) = true.
Proof.
  unfold numToString.
  assert (Hf : (x mod 100 < 100)%N) by (apply N.mod_lt; discriminate).
  assert (H1 : (x mod 100 / 10 < 10)%N)
    by (apply N.Div0.div_lt_upper_bound; exact Hf).
  assert (H2 : ((x mod 100) mod 10 < 10)%N) by (apply N.mod_lt; discriminate).
  rewrite is_ascii_app, is_ascii_digits.
  destruct (x mod 100 =? 0)%N; [reflexivity|].
  rewrite !is_ascii_app, is_ascii_single by lia.
  destruct ((x mod 100) mod 10 =? 0)%N; [reflexivity|].
  rewrite is_ascii_single by lia. reflexivity.
Qed.

Lemma is_ascii_join (sep : jsstring) (l : list jsstring) :
  is_ascii sep = true -> Forall (fun s => is_ascii s = true) l ->
  is_ascii (join sep l) = true.
Proof.
  intros Hsep. induction 1 as [|s l Hs Hl IH]; [reflexivity|].
  destruct l as [|t l]; [exact Hs|].
  change (is_ascii (s ++ sep ++ join sep (t :: l)) = true).
  now rewrite !is_ascii_app, Hs, Hsep, IH.
Qed.

(** On ASCII strings code units and UTF-8 octets coincide. *)
Lemma encode_ascii (s : jsstring) : is_ascii s = true -> encode s = s.
Proof.
  induction s as [|c s IH]; simpl; [reflexivity|].
  rewrite andb_true_iff, N.ltb_lt. intros [Hc Hs].
  unfold is_high_surrogate, is_low_surrogate, utf8_of_codepoint.
  replace (55296 <=? c)%N with false by (symmetry; apply N.leb_gt; lia).
  replace (56320 <=? c)%N with false by (symmetry; apply N.leb_gt; lia).
  replace (c <? 128)%N with true by (symmetry; apply N.ltb_lt; lia).
  simpl. now rewrite IH.
Qed.

(* ================================================================== *)
(** * The object section and its offsets *)
(* ================================================================== *)

Lemma emitAll_spec (cs : list jsstring) (w : Pdf.writer) :
  Pdf.pdf (emitAll cs w) = Pdf.pdf w ++ concat cs /\
  Pdf.currentPos (emitAll cs w) = Pdf.currentPos w + length (concat cs) /\
  Pdf.xrefTable (emitAll cs w) = Pdf.xrefTable w ++ offsets (Pdf.currentPos w) cs.
Proof.
  revert w. induction cs as [|c cs IH]; intros w; simpl.
  - now rewrite !app_nil_r, Nat.add_0_r.
  - destruct (IH (Pdf.emit c w)) as (H1 & H2 & H3).
    unfold emitAll in *. rewrite H1, H2, H3. simpl.
    rewrite <- !app_assoc, length_app. simpl. repeat split; try reflexivity; lia.
Qed.

Lemma emitPages_emitAll (baseFont : jsstring) (pw ph : num)
    (streams : list jsstring) (n : nat) :
  forall a w,
    fold_left (Pdf.emitPage baseFont pw ph streams) (seq a n) w
    = emitAll
        (flat_map
           (fun p => [Pdf.pageContent baseFont pw ph (3 + p * 2) (3 + p * 2 + 1);
                      Pdf.streamContent (3 + p * 2 + 1) (nth p streams [])])
           (seq a n)) w.
Proof.
  induction n as [|n IH]; intros a w; simpl; [reflexivity|].
  rewrite IH. reflexivity.
Qed.

Lemma objects_emitAll (baseFont : jsstring) (pw ph : num) (tp : nat)
    (streams : list jsstring) :
  Pdf.objects baseFont pw ph tp streams
  = emitAll (objectList baseFont pw ph tp streams) Pdf.start.
Proof.
  unfold Pdf.objects, objectList. rewrite emitPages_emitAll. reflexivity.
Qed.

(** Entry [k] of the offsets is where object [k] starts in any text that
    holds the objects after [p] characters. *)
Lemma offsets_nth (cs : list jsstring) :
  forall p k pos, nth_error (offsets p cs) k = Some pos ->
  exists c, nth_error cs k = Some c /\
    forall pre post, length pre = p ->
      exists a b, pre ++ concat cs ++ post = a ++ c ++ b /\ length a = pos.
Proof.
  induction cs as [|c cs IH]; intros p [|k] pos H; simpl in *; try discriminate.
  - injection H as <-. exists c. split; [reflexivity|].
    intros pre post Hp. exists pre, (concat cs ++ post).
    now rewrite <- app_assoc.
  - destruct (IH _ _ _ H) as (c' & Hc' & Hloc). exists c'. split; [assumption|].
    intros pre post Hp.
    destruct (Hloc (pre ++ c) post) as (a & b & E & La).
    { rewrite length_app. lia. }
    exists a, b. split; [|assumption].
    rewrite <- E, <- !app_assoc. reflexivity.
Qed.

Lemma offsets_length (cs : list jsstring) (p : nat) :
  length (offsets p cs) = length cs.
Proof. revert p; induction cs; intros; simpl; auto. Qed.

Lemma nth_error_pairs {A} (f g : nat -> A) (n : nat) :
  forall a k c,
    nth_error (flat_map (fun p => [f p; g p]) (seq a n)) k = Some c ->
    exists p, p < n /\
      ((k = 2 * p /\ c = f (a + p)) \/ (k = 2 * p + 1 /\ c = g (a + p))).
Proof.
  induction n as [|n IH]; intros a k c H; simpl in H.
  - destruct k; discriminate.
  - destruct k as [|[|k]]; simpl in H.
    + injection H as <-. exists 0. split; [lia|]. left. now rewrite Nat.add_0_r.
    + injection H as <-. exists 0. split; [lia|]. right. now rewrite Nat.add_0_r.
    + destruct (IH _ _ _ H) as (p & Hp & [[-> ->]|[-> ->]]);
        exists (S p); (split; [lia|]); [left|right];
        (split; [lia | f_equal; lia]).
Qed.

Lemma nth_error_pairs_snd {A} (f g : nat -> A) (n : nat) :
  forall a p, p < n ->
    nth_error (flat_map (fun p => [f p; g p]) (seq a n)) (2 * p + 1)
    = Some (g (a + p)).
Proof.
  induction n as [|n IH]; intros a p Hp; [lia|].
  destruct p as [|p]; simpl.
  - now rewrite Nat.add_0_r.
  - replace (p + S (p + 0) + 1) with (S (2 * p + 1)) by lia.
    cbn [nth_error]. rewrite IH by lia. f_equal. f_equal. lia.
Qed.

(** Every object opens with its own number. *)
Lemma objectList_head (baseFont : jsstring) (pw ph : num) (tp : nat)
    (streams : list jsstring) (k : nat) (c : jsstring) :
  nth_error (objectList baseFont pw ph tp streams) k = Some c ->
  exists r, c = (dec (k + 1) ++ js " 0 obj\n") ++ r.
Proof.
  unfold objectList. destruct k as [|[|k]]; simpl.
  - intros H; injection H as <-. eexists. reflexivity.
  - intros H; injection H as <-. eexists. reflexivity.
  - intros H. apply nth_error_pairs in H.
    destruct H as (p & Hp & [[-> ->]|[-> ->]]); simpl.
    + replace (S (S (p + (p + 0) + 1))) with (3 + p * 2) by lia.
      unfold Pdf.pageContent.
      eexists. rewrite <- !app_assoc. simpl. reflexivity.
    + replace (S (S (p + (p + 0) + 1 + 1))) with (3 + p * 2 + 1) by lia.
      unfold Pdf.streamContent, Pdf.streamHead.
      eexists. rewrite <- !app_assoc. simpl. reflexivity.
Qed.

Lemma is_ascii_repeat (c : N) (n : nat) :
  (c < 128)%N -> is_ascii (repeat c n) = true.
Proof.
  intros H. induction n; simpl; [reflexivity|].
  rewrite IHn, andb_true_r. now apply N.ltb_lt.
Qed.

Lemma is_ascii_xrefEntry (pos : nat) : is_ascii (Pdf.xrefEntry pos) = true.
Proof.
  unfold Pdf.xrefEntry, padStart.
  rewrite !is_ascii_app, is_ascii_repeat, is_ascii_dec by reflexivity.
  reflexivity.
Qed.

Lemma is_ascii_xrefAndTrailer (w : Pdf.writer) :
  is_ascii (Pdf.xrefAndTrailer w) = true.
Proof.
  unfold Pdf.xrefAndTrailer.
  rewrite !is_ascii_app, !is_ascii_dec.
  rewrite is_ascii_concat; [reflexivity|].
  apply Forall_map, Forall_forall. intros; apply is_ascii_xrefEntry.
Qed.

Lemma is_ascii_pagesContent (tp : nat) : is_ascii (Pdf.pagesContent tp) = true.
Proof.
  unfold Pdf.pagesContent, Pdf.pageRefs.
  rewrite !is_ascii_app, is_ascii_dec, is_ascii_join; try reflexivity.
  apply Forall_map, Forall_forall. intros.
  now rewrite is_ascii_app, is_ascii_dec.
Qed.

Lemma is_ascii_pageContent (baseFont : jsstring) (pw ph : num) (i j : nat) :
  is_ascii baseFont = true ->
  is_ascii (Pdf.pageContent baseFont pw ph i j) = true.
Proof.
  intros H. unfold Pdf.pageContent.
  now rewrite !is_ascii_app, !is_ascii_dec, !is_ascii_numToString, H.
Qed.

Lemma is_ascii_streamHead (i n : nat) : is_ascii (Pdf.streamHead i n) = true.
Proof.
  unfold Pdf.streamHead. now rewrite !is_ascii_app, !is_ascii_dec.
Qed.

(** The writer's state once all objects are written. *)
Lemma objects_state (baseFont : jsstring) (pw ph : num) (tp : nat)
    (streams : list jsstring) :
  let w := Pdf.objects baseFont pw ph tp streams in
  let objs := objectList baseFont pw ph tp streams in
  Pdf.pdf w = Pdf.header ++ concat objs /\
  Pdf.currentPos w = length (Pdf.pdf w) /\
  Pdf.xrefTable w = offsets (length Pdf.header) objs.
Proof.
  intros w objs. subst w. rewrite objects_emitAll. fold objs.
  destruct (emitAll_spec objs Pdf.start) as (H1 & H2 & H3).
  rewrite H1, H2, H3. simpl Pdf.pdf. simpl Pdf.currentPos. simpl Pdf.xrefTable.
  rewrite length_app. auto.
Qed.

(** ** Reading numbers *)

Lemma read_digits_step (c : N) (d acc : nat) (r : bytes) :
  digit_value c = Some d ->
  read_digits acc (c :: r) = read_digits (10 * acc + d) r.
Proof. intros H. cbn [read_digits]. now rewrite H. Qed.

Lemma read_digits_uint (u : Decimal.uint) (acc : nat) :
  read_digits acc (digits u) = Some (Nat.of_uint_acc u acc).
Proof.
  revert acc. induction u; intros acc; cbn [digits Nat.of_uint_acc];
    [reflexivity|..];
    (erewrite read_digits_step by reflexivity);
    rewrite IHu, Nat.tail_mul_spec; do 2 f_equal;
    change (N.to_nat _) with 0 || change (N.to_nat _) with 1
    || change (N.to_nat _) with 2 || change (N.to_nat _) with 3
    || change (N.to_nat _) with 4 || change (N.to_nat _) with 5
    || change (N.to_nat _) with 6 || change (N.to_nat _) with 7
    || change (N.to_nat _) with 8 || change (N.to_nat _) with 9; lia.
Qed.

Lemma digits_nil (u : Decimal.uint) : digits u = [] -> u = Decimal.Nil.
Proof. destruct u; simpl; congruence. Qed.

Lemma dec_not_nil (n : nat) : dec n <> [].
Proof.
  intros H. apply digits_nil in H.
  pose proof (DecimalNat.Unsigned.of_to n) as E. rewrite H in E.
  cbn in E. subst n. discriminate H.
Qed.

Lemma read_nat_dec (n : nat) : read_nat (dec n) = Some n.
Proof.
  unfold read_nat. pose proof (dec_not_nil n) as Hn.
  destruct (dec n) as [|c r] eqn:E; [now elim Hn|].
  rewrite <- E. unfold dec. rewrite read_digits_uint.
  f_equal. apply DecimalNat.Unsigned.of_to.
Qed.

Lemma read_digits_zeros (k : nat) (bs : bytes) :
  read_digits 0 (repeat 48%N k ++ bs) = read_digits 0 bs.
Proof. induction k as [|k IH]; [reflexivity|exact IH]. Qed.

Lemma read_nat_padStart (n : nat) :
  read_nat (padStart 10 48%N (dec n)) = Some n.
Proof.
  unfold padStart, read_nat.
  pose proof (dec_not_nil n) as Hn. pose proof (read_nat_dec n) as Hr.
  unfold read_nat in Hr.
  destruct (repeat 48%N (10 - length (dec n)) ++ dec n) as [|c r] eqn:E.
  - apply app_eq_nil in E as [_ E]. now elim Hn.
  - rewrite <- E, read_digits_zeros.
    destruct (dec n); [now elim Hn|exact Hr].
Qed.

(** ** Encoding piece by piece *)

Lemma encode_app_ascii (a b : jsstring) :
  is_ascii a = true -> encode (a ++ b) = a ++ encode b.
Proof.
  induction a as [|c a IH]; [reflexivity|].
  cbn [is_ascii forallb]. rewrite andb_true_iff, N.ltb_lt. intros [Hc Ha].
  cbn [app encode].
  unfold is_high_surrogate, is_low_surrogate, utf8_of_codepoint.
  replace (55296 <=? c)%N with false by (symmetry; apply N.leb_gt; lia).
  replace (56320 <=? c)%N with false by (symmetry; apply N.leb_gt; lia).
  replace (c <? 128)%N with true by (symmetry; apply N.ltb_lt; lia).
  cbn [andb app]. now rewrite (IH Ha).
Qed.

Lemma ascii_head_not_low (b : jsstring) :
  ascii_head b = true ->
  match b with [] => True | d :: _ => is_low_surrogate d = false end.
Proof.
  destruct b as [|d b]; [trivial|]. cbn [ascii_head]. rewrite N.ltb_lt.
  intros H. unfold is_low_surrogate.
  replace (56320 <=? d)%N with false by (symmetry; apply N.leb_gt; lia).
  reflexivity.
Qed.

Lemma encode_app_head (a b : jsstring) :
  ascii_head b = true -> encode (a ++ b) = encode a ++ encode b.
Proof.
  intros Hb. apply ascii_head_not_low in Hb.
  assert (H : forall n a, length a <= n -> encode (a ++ b) = encode a ++ encode b).
  { induction n as [|n IH]; intros a0 Hl.
    - destruct a0; [reflexivity|simpl in Hl; lia].
    - destruct a0 as [|c r]; [reflexivity|].
      cbn [app encode length] in *.
      destruct (is_high_surrogate c).
      + destruct r as [|d r'].
        * cbn [app]. destruct b as [|d b']; [now rewrite app_nil_r|].
          now rewrite Hb.
        * cbn [app length] in *. destruct (is_low_surrogate d).
          -- rewrite IH by lia. now rewrite app_assoc.
          -- pose proof (IH (d :: r') ltac:(simpl; lia)) as E.
             cbn [app] in E. rewrite E. now rewrite app_assoc.
      + destruct (is_low_surrogate c);
          rewrite IH by lia; now rewrite app_assoc. }
  now apply (H (length a)).
Qed.

Lemma ascii_head_app (p r : jsstring) :
  is_ascii p = true -> p <> [] -> ascii_head (p ++ r) = true /\ p ++ r <> [].
Proof.
  destruct p as [|c p]; [congruence|].
  cbn [is_ascii forallb app ascii_head]. rewrite andb_true_iff.
  intros [Hc _] _. split; [exact Hc|discriminate].
Qed.

Lemma ascii_head_ascii (s : jsstring) : is_ascii s = true -> ascii_head s = true.
Proof.
  destruct s as [|c s]; [reflexivity|].
  cbn [is_ascii forallb ascii_head]. rewrite andb_true_iff. intuition.
Qed.

Lemma encode_concat (objs : list jsstring) (t : jsstring) :
  Forall (fun o => ascii_head o = true /\ o <> []) objs ->
  ascii_head t = true ->
  encode (concat objs ++ t) = concat (map encode objs) ++ encode t /\
  ascii_head (concat objs ++ t) = true.
Proof.
  intros H Ht. induction H as [|o objs [Ho Hn] _ [IH1 IH2]].
  - now split.
  - cbn [concat map]. rewrite <- !app_assoc. split.
    + now rewrite encode_app_head, IH1 by exact IH2.
    + destruct o as [|c o]; [now elim Hn|exact Ho].
Qed.

(** ** Code units and octets *)

Lemma length_utf8_of_codepoint (cp : N) : 1 <= length (utf8_of_codepoint cp).
Proof.
  unfold utf8_of_codepoint.
  repeat match goal with |- context [if ?b then _ else _] => destruct b end;
    simpl; lia.
Qed.

Lemma length_utf8_pair (c d : N) :
  2 <= length (utf8_of_codepoint (pair_codepoint c d)).
Proof.
  unfold utf8_of_codepoint, pair_codepoint.
  replace (65536 + (c - 55296) * 1024 + (d - 56320) <? 128)%N with false
    by (symmetry; apply N.ltb_ge; lia).
  repeat match goal with |- context [if ?b then _ else _] => destruct b end;
    simpl; lia.
Qed.

Lemma length_encode_ge (s : jsstring) : length s <= length (encode s).
Proof.
  assert (H : forall n s, length s <= n -> length s <= length (encode s)).
  { induction n as [|n IH]; intros s0 Hl.
    - destruct s0; simpl in *; lia.
    - destruct s0 as [|c r]; [simpl; lia|].
      pose proof (length_utf8_of_codepoint 65533) as H1.
      pose proof (length_utf8_of_codepoint c) as H2.
      destruct r as [|d r'].
      + cbn [encode length].
        destruct (is_high_surrogate c); [lia|].
        destruct (is_low_surrogate c); rewrite length_app; simpl; lia.
      + pose proof (length_utf8_pair c d) as H3.
        cbn [length] in Hl.
        pose proof (IH r' ltac:(lia)) as I1.
        pose proof (IH (d :: r') ltac:(cbn [length]; lia)) as I2.
        cbn [length encode] in *.
        destruct (is_high_surrogate c).
        * destruct (is_low_surrogate d); rewrite length_app; lia.
        * destruct (is_low_surrogate c); rewrite length_app; lia. }
  now apply (H (length s)).
Qed.

Lemma length_encode (s : jsstring) : length (encode s) = length s + excess s.
Proof. unfold excess. pose proof (length_encode_ge s). lia. Qed.

Lemma excess_ascii (s : jsstring) : is_ascii s = true -> excess s = 0.
Proof. intros H. unfold excess. rewrite encode_ascii by exact H. lia. Qed.

Lemma encode_streamContent (id : nat) (s : jsstring) :
  encode (Pdf.streamContent id s)
  = Pdf.streamHead id (length s) ++ encode s ++ Pdf.streamTail.
Proof.
  unfold Pdf.streamContent.
  rewrite encode_app_ascii by apply is_ascii_streamHead.
  now rewrite encode_app_head by reflexivity.
Qed.

Lemma excess_streamContent (id : nat) (s : jsstring) :
  excess (Pdf.streamContent id s) = excess s.
Proof.
  unfold excess at 1. rewrite encode_streamContent.
  unfold Pdf.streamContent. rewrite !length_app, length_encode. lia.
Qed.

Lemma drift_ascii (k : nat) (streams : list jsstring) :
  Forall (fun s => is_ascii s = true) streams -> drift k streams = 0.
Proof.
  intros H. unfold drift. generalize ((k - 2) / 2). 
  induction H as [|s l Hs _ IH]; intros [|n]; try reflexivity.
  change (excess s + list_sum (map excess (firstn n l)) = 0).
  now rewrite IH, excess_ascii.
Qed.

(** The octet positions of a run of pieces, from the code-unit positions. *)
Lemma offsets_encode (objs : list jsstring) :
  forall p d k pos,
    nth_error (offsets p objs) k = Some pos ->
    nth_error (offsets (p + d) (map encode objs)) k
    = Some (pos + d + list_sum (map excess (firstn k objs))).
Proof.
  induction objs as [|o objs IH]; intros p d [|k] pos H; simpl in H;
    try discriminate.
  - injection H as <-.
    change (Some (p + d) = Some (p + d + 0)). f_equal. lia.
  - change (nth_error (offsets (p + d + length (encode o)) (map encode objs)) k
            = Some (pos + d
                    + (excess o + list_sum (map excess (firstn k objs))))).
    rewrite length_encode.
    replace (p + d + (length o + excess o)) with (p + length o + (d + excess o))
      by lia.
    rewrite (IH _ _ _ _ H). f_equal. lia.
Qed.

Lemma length_concat_encode (objs : list jsstring) :
  length (concat (map encode objs))
  = length (concat objs) + list_sum (map excess objs).
Proof.
  induction objs as [|o objs IH]; [reflexivity|].
  change (length (encode o ++ concat (map encode objs))
          = length (o ++ concat objs)
            + (excess o + list_sum (map excess objs))).
  rewrite !length_app, IH, length_encode. lia.
Qed.

Lemma div2_SS (j : nat) : S (S j) / 2 = S (j / 2).
Proof.
  replace (S (S j)) with (j + 1 * 2) by lia.
  rewrite Nat.div_add by lia. lia.
Qed.

(** The streams among the first [j] of the objects that follow the page
    tree are those of the first [j / 2] pages. *)
Lemma excess_pairs (f : nat -> jsstring) (g : nat -> jsstring -> jsstring)
    (streams : list jsstring) :
  (forall p, excess (f p) = 0) ->
  (forall p s, excess (g p s) = excess s) ->
  forall l pre j,
    streams = pre ++ l ->
    list_sum (map excess
                (firstn j (flat_map (fun p => [f p; g p (nth p streams [])])
                             (seq (length pre) (length l)))))
    = list_sum (map excess (firstn (j / 2) l)).
Proof.
  intros Hf Hg. induction l as [|s l IH]; intros pre j E.
  - cbn [length seq flat_map]. now rewrite !firstn_nil.
  - assert (En : nth (length pre) streams [] = s).
    { rewrite E, app_nth2, Nat.sub_diag by lia. reflexivity. }
    cbn [length seq flat_map app]. rewrite En.
    destruct j as [|[|j]].
    + reflexivity.
    + change (excess (f (length pre)) + 0 = 0). rewrite Hf. reflexivity.
    + rewrite div2_SS.
      change (excess (f (length pre))
              + (excess (g (length pre) s)
                 + list_sum
                     (map excess
                        (firstn j
                           (flat_map (fun p => [f p; g p (nth p streams [])])
                              (seq (S (length pre)) (length l))))))
              = excess s + list_sum (map excess (firstn (j / 2) l))).
      rewrite Hf, Hg.
      specialize (IH (pre ++ [s]) j).
      rewrite length_app in IH. cbn [length] in IH.
      replace (length pre + 1) with (S (length pre)) in IH by lia.
      rewrite IH by (now rewrite <- app_assoc). reflexivity.
Qed.

Lemma excess_objectList (baseFont : jsstring) (pw ph : num) (tp : nat)
    (streams : list jsstring) (k : nat) :
  is_ascii baseFont = true -> length streams = tp ->
  list_sum (map excess (firstn k (objectList baseFont pw ph tp streams)))
  = drift k streams.
Proof.
  intros Hf Hlen. unfold objectList, drift.
  destruct k as [|[|j]]; [reflexivity|reflexivity|].
  cbn [firstn map list_sum].
  rewrite (excess_ascii Pdf.catalogContent) by reflexivity.
  rewrite (excess_ascii (Pdf.pagesContent tp)) by apply is_ascii_pagesContent.
  replace (S (S j) - 2) with j by lia. cbn [Nat.add].
  rewrite <- Hlen.
  apply (excess_pairs
           (fun p => Pdf.pageContent baseFont pw ph (3 + p * 2) (3 + p * 2 + 1))
           (fun p s => Pdf.streamContent (3 + p * 2 + 1) s)
           streams
           (fun p => excess_ascii _ (is_ascii_pageContent baseFont pw ph _ _ Hf))
           (fun p s => excess_streamContent _ s)
           streams [] j eq_refl).
Qed.

Lemma objectList_ascii_head (baseFont : jsstring) (pw ph : num) (tp : nat)
    (streams : list jsstring) :
  Forall (fun o => ascii_head o = true /\ o <> [])
    (objectList baseFont pw ph tp streams).
Proof.
  apply Forall_forall. intros c Hin.
  apply In_nth_error in Hin as [k Hk].
  destruct (objectList_head _ _ _ _ _ _ _ Hk) as (r & ->).
  apply ascii_head_app.
  - now rewrite is_ascii_app, is_ascii_dec.
  - intros E. apply app_eq_nil in E as [_ E]. discriminate E.
Qed.

Lemma length_objectList (baseFont : jsstring) (pw ph : num) (tp : nat)
    (streams : list jsstring) :
  length (objectList baseFont pw ph tp streams) = 2 + 2 * tp.
Proof.
  unfold objectList. cbn [length]. rewrite length_flat_map.
  assert (E : forall a n, list_sum (map (fun _ : nat => 2) (seq a n)) = 2 * n).
  { intros a n. revert a. induction n as [|n IH]; intros a; [reflexivity|].
    change (2 + list_sum (map (fun _ : nat => 2) (seq (S a) n)) = 2 * S n).
    rewrite IH. lia. }
  cbn [length]. rewrite E. lia.
Qed.

(** The cross-reference table and the trailer, as they are read. *)
Lemma xrefAndTrailer_read (w : Pdf.writer) :
  exists count entries size sx,
    Pdf.xrefAndTrailer w
    = encode (js "xref\n0 ") ++ count
      ++ encode (js "\n0000000000 65535 f \n") ++ concat entries
      ++ encode (js "trailer\n<<\n/Size ") ++ size
      ++ encode (js "\n/Root 1 0 R\n>>\nstartxref\n") ++ sx
      ++ encode (js "\n%%EOF\n") /\
    read_nat count = Some (length (Pdf.xrefTable w) + 1) /\
    read_nat size = Some (length (Pdf.xrefTable w) + 1) /\
    Forall2 xref_entry entries (Pdf.xrefTable w) /\
    read_nat sx = Some (Pdf.currentPos w).
Proof.
  exists (dec (length (Pdf.xrefTable w) + 1)), (map Pdf.xrefEntry (Pdf.xrefTable w)),
    (dec (length (Pdf.xrefTable w) + 1)), (dec (Pdf.currentPos w)).
  split; [|split; [apply read_nat_dec|split; [apply read_nat_dec|split;
    [|apply read_nat_dec]]]].
  - unfold Pdf.xrefAndTrailer. rewrite <- !app_assoc. reflexivity.
  - induction (Pdf.xrefTable w) as [|pos l IH]; constructor; [|exact IH].
    exists (padStart 10 48%N (dec pos)). split; [reflexivity|].
    apply read_nat_padStart.
Qed.

(** Whatever the content streams hold, the writer's numbers count code
    units: the invariant behind both converters. *)
Lemma objects_counted (baseFont : jsstring) (pw ph : num) (tp : nat)
    (streams : list jsstring) :
  is_ascii baseFont = true ->
  length streams = tp ->
  counted_in_code_units streams
    (encode (Pdf.document (Pdf.objects baseFont pw ph tp streams))).
Proof.
  intros Hf Hlen.
  pose proof (objects_state baseFont pw ph tp streams) as (Hpdf & Hpos & Hx).
  pose proof (objectList_ascii_head baseFont pw ph tp streams) as Hheads.
  set (w := Pdf.objects baseFont pw ph tp streams) in *.
  set (objs := objectList baseFont pw ph tp streams) in *.
  pose proof (is_ascii_xrefAndTrailer w) as Ht.
  assert (Hout : encode (Pdf.document w)
                 = Pdf.header ++ concat (map encode objs) ++ Pdf.xrefAndTrailer w).
  { unfold Pdf.document. rewrite Hpdf, <- app_assoc.
    rewrite encode_app_ascii by reflexivity.
    destruct (encode_concat objs (Pdf.xrefAndTrailer w) Hheads
                (ascii_head_ascii _ Ht)) as [E _].
    now rewrite E, (encode_ascii _ Ht). }
  assert (Hsum : forall k,
            list_sum (map excess (firstn k objs)) = drift k streams).
  { intros k. now apply excess_objectList. }
  assert (Hlo : length (Pdf.xrefTable w) = 2 + 2 * length streams).
  { rewrite Hx, offsets_length. unfold objs.
    now rewrite length_objectList, Hlen. }
  assert (Hbytes : forall k pos,
            nth_error (Pdf.xrefTable w) k = Some pos ->
            exists c a b,
              nth_error objs k = Some c /\
              encode (Pdf.document w) = a ++ encode c ++ b /\
              length a = pos + drift k streams).
  { intros k pos Hk. rewrite Hx in Hk.
    pose proof (offsets_encode objs _ 0 _ _ Hk) as Hb.
    rewrite Nat.add_0_r, Hsum in Hb.
    destruct (offsets_nth _ _ _ _ Hk) as (c & Hc & _).
    destruct (offsets_nth _ _ _ _ Hb) as (c' & Hc' & Hloc).
    rewrite nth_error_map, Hc in Hc'. cbn in Hc'. injection Hc' as <-.
    destruct (Hloc Pdf.header (Pdf.xrefAndTrailer w) eq_refl) as (a & b & E & La).
    exists c, a, b. split; [exact Hc|]. split; [|lia].
    now rewrite Hout, E. }
  unfold counted_in_code_units. split; [|split].
  - exists (concat (map encode objs) ++ Pdf.xrefAndTrailer w). exact Hout.
  - rewrite Hout. unfold Pdf.xrefAndTrailer at 1.
    eexists. rewrite !app_assoc. reflexivity.
  - exists (Pdf.xrefTable w), (length (Pdf.header ++ concat (map encode objs))),
      (Pdf.currentPos w).
    split; [|split; [exact Hlo|split; [|split]]].
    + destruct (xrefAndTrailer_read w)
        as (count & entries & size & sx & E & Hc & Hs & He & Hsx).
      exists count, entries, size, sx.
      split; [rewrite Hout, !length_app; lia|].
      split; [|repeat split; assumption].
      rewrite Hout, app_assoc, skipn_app, skipn_all, Nat.sub_diag.
      exact E.
    + rewrite Hpos, Hpdf, !length_app, length_concat_encode.
      rewrite <- Hsum, Hx, offsets_length.
      rewrite firstn_all. lia.
    + intros k pos Hk.
      destruct (Hbytes k pos Hk) as (c & a & b & Hc & E & La).
      destruct (objectList_head _ _ _ _ _ _ _ Hc) as (r & ->).
      exists (dec (k + 1)). split; [apply read_nat_dec|].
      rewrite E, encode_app_ascii by (now rewrite is_ascii_app, is_ascii_dec).
      rewrite <- !app_assoc.
      rewrite (at_offset_app _ _ _ _ La), prefixb_app_app.
      apply (prefixb_app (js " 0 obj\n")).
    + intros p stream Hp.
      assert (Hlt : p < tp) by (rewrite <- Hlen; apply nth_error_Some; congruence).
      assert (Hobj : nth_error objs (3 + 2 * p)
                     = Some (Pdf.streamContent (3 + p * 2 + 1) stream)).
      { pose proof (nth_error_pairs_snd
                      (fun p => Pdf.pageContent baseFont pw ph (3 + p * 2) (3 + p * 2 + 1))
                      (fun p => Pdf.streamContent (3 + p * 2 + 1) (nth p streams []))
                      tp 0 p Hlt) as E.
        cbn beta in E. rewrite (nth_error_nth _ _ _ Hp) in E.
        replace (3 + 2 * p) with (S (S (2 * p + 1))) by lia. exact E. }
      destruct (nth_error (Pdf.xrefTable w) (3 + 2 * p)) as [pos|] eqn:Ho.
      2:{ apply nth_error_None in Ho. lia. }
      exists pos. split; [reflexivity|].
      destruct (Hbytes _ pos Ho) as (c & a & b & Hc & E & La).
      rewrite Hobj in Hc. injection Hc as <-.
      exists (dec (4 + 2 * p)), (dec (length stream)).
      split; [apply read_nat_dec|]. split; [apply read_nat_dec|].
      rewrite E, encode_streamContent. unfold Pdf.streamHead.
      replace (3 + p * 2 + 1) with (4 + 2 * p) by lia.
      rewrite <- !app_assoc.
      rewrite (at_offset_app _ _ _ _ La).
      replace (S (S (S (p * 2 + 1)))) with (4 + 2 * p) by lia.
      rewrite prefixb_app_app.
      change (encode (js " 0 obj\n<<\n/Length ")) with (js " 0 obj\n<<\n/Length ").
      rewrite prefixb_app_app, prefixb_app_app.
      change (encode (js "\n>>\nstream\n")) with (js "\n>>\nstream\n").
      rewrite prefixb_app_app, prefixb_app_app.
      apply (prefixb_app Pdf.streamTail b).
Qed.

(** When no content stream leaves ASCII the counts are byte counts. *)
Lemma counted_well_formed (streams : list jsstring) (out : bytes) :
  Forall (fun s => is_ascii s = true) streams ->
  counted_in_code_units streams out -> well_formed streams out.
Proof.
  intros Ha (Hh & He & offs & tablePos & announced & Hx & Hl & Ht & Ho & Hs).
  split; [exact Hh|]. split; [exact He|].
  exists offs, tablePos. rewrite drift_ascii, Nat.add_0_r in Ht by exact Ha.
  subst announced. split; [exact Hx|]. split; [exact Hl|]. split.
  - intros k pos Hk. specialize (Ho k pos Hk).
    now rewrite drift_ascii, Nat.add_0_r in Ho by exact Ha.
  - intros p stream Hp. destruct (Hs p stream Hp) as (pos & Hk & Hst).
    exists pos. split; [exact Hk|].
    rewrite drift_ascii, Nat.add_0_r in Hst by exact Ha.
    assert (His : is_ascii stream = true).
    { rewrite Forall_forall in Ha. apply Ha. eapply nth_error_In, Hp. }
    now rewrite (encode_ascii _ His) in *.
Qed.

(* ================================================================== *)
(** * The two [createPdfStructure] *)
(* ================================================================== *)

Lemma Forall_firstn {A} (P : A -> Prop) (n : nat) (l : list A) :
  Forall P l -> Forall P (firstn n l).
Proof.
  intros H. revert n. induction H; intros [|n]; simpl; auto.
Qed.

Lemma Forall_skipn {A} (P : A -> Prop) (n : nat) (l : list A) :
  Forall P l -> Forall P (skipn n l).
Proof.
  intros H. revert n. induction H; intros [|n]; simpl; auto.
Qed.

Lemma ascii_lines_slice (s e : nat) (lines : list jsstring) :
  ascii_lines lines -> ascii_lines (Pdf.slice s e lines).
Proof.
  intros H. apply Forall_firstn, Forall_skipn, H.
Qed.

Lemma is_ascii_escapeLine (line : jsstring) :
  is_ascii line = true -> is_ascii (Docx.escapeLine line) = true.
Proof.
  intros H. unfold Docx.escapeLine, substring0.
  apply is_ascii_firstn.
  repeat (apply is_ascii_replaceChar; [reflexivity|]). exact H.
Qed.

Lemma is_ascii_escapePdfString (str : jsstring) :
  is_ascii str = true -> is_ascii (Excel.escapePdfString str) = true.
Proof.
  intros H. unfold Excel.escapePdfString, substring0.
  destruct str as [|c str]; [reflexivity|].
  apply is_ascii_firstn.
  repeat (apply is_ascii_replaceChar; [reflexivity|]). exact H.
Qed.

Lemma is_ascii_docx_stream (o : Docx.options) (mlpp : nat)
    (lines : list jsstring) (pageNum : nat) :
  ascii_lines lines ->
  is_ascii (Docx.contentStream o mlpp lines pageNum) = true.
Proof.
  intros H. unfold Docx.contentStream.
  rewrite !is_ascii_app, is_ascii_concat; [reflexivity|].
  apply Forall_map.
  eapply Forall_impl; [|apply ascii_lines_slice, H].
  intros line Hl. unfold Docx.showLine.
  now rewrite !is_ascii_app, is_ascii_escapeLine, is_ascii_numToString.
Qed.

Lemma is_ascii_excel_stream (o : Excel.options) (mlpp tp : nat)
    (lines : list jsstring) (fileName : jsstring) (pageNum : nat) :
  ascii_lines lines -> is_ascii fileName = true ->
  is_ascii (Excel.contentStream o mlpp tp lines fileName pageNum) = true.
Proof.
  intros H Hf. unfold Excel.contentStream.
  assert (Ht : is_ascii (Excel.escapePdfString
                           (Excel.orElse fileName (js "Converted File"))) = true).
  { apply is_ascii_escapePdfString. destruct fileName; [reflexivity|exact Hf]. }
  rewrite !is_ascii_app, is_ascii_concat.
  - destruct (pageNum =? 0), (1 <? tp);
      rewrite ?is_ascii_app, ?Ht, ?is_ascii_dec, ?is_ascii_numToString;
      reflexivity.
  - apply Forall_map.
    eapply Forall_impl; [|apply ascii_lines_slice, H].
    intros line Hl. unfold Excel.showLine.
    now rewrite !is_ascii_app, is_ascii_escapePdfString, is_ascii_numToString.
Qed.

Lemma docx_streams_ascii (o : Docx.options) (lines : list jsstring) :
  ascii_lines lines ->
  Forall (fun s => is_ascii s = true) (Docx.contentStreams o lines).
Proof.
  intros Hl. apply Forall_map, Forall_forall. intros p _.
  now apply is_ascii_docx_stream.
Qed.

Lemma excel_streams_ascii (o : Excel.options) (lines : list jsstring)
    (fileName : jsstring) :
  ascii_lines lines -> is_ascii fileName = true ->
  Forall (fun s => is_ascii s = true) (Excel.contentStreams o lines fileName).
Proof.
  intros Hl Hf. apply Forall_map, Forall_forall. intros p _.
  now apply is_ascii_excel_stream.
Qed.

Lemma docx_counted (o : Docx.options) (lines : list jsstring) :
  (0 < Docx.maxLinesPerPage o)%Z ->
  exists out,
    Docx.createPdfStructure o lines = Some out /\
    counted_in_code_units (Docx.contentStreams o lines) out.
Proof.
  intros Hm. unfold Docx.createPdfStructure.
  apply Z.ltb_lt in Hm. rewrite Hm. eexists. split; [reflexivity|].
  unfold Docx.objectSection.
  refine (objects_counted (js "Helvetica") (Docx.pageWidth o)
            (Docx.pageHeight o) (Docx.totalPages o lines)
            (Docx.contentStreams o lines) eq_refl _).
  unfold Docx.contentStreams. now rewrite length_map, length_seq.
Qed.

Lemma excel_counted (o : Excel.options) (lines : list jsstring)
    (fileName : jsstring) :
  (0 < Excel.maxLinesPerPage o)%Z ->
  exists out,
    Excel.createPdfStructure o lines fileName = Some out /\
    counted_in_code_units (Excel.contentStreams o lines fileName) out.
Proof.
  intros Hm. unfold Excel.createPdfStructure.
  apply Z.ltb_lt in Hm. rewrite Hm. eexists. split; [reflexivity|].
  unfold Excel.objectSection.
  refine (objects_counted (js "Courier") (Excel.pageWidth o)
            (Excel.pageHeight o) (Excel.totalPages o lines)
            (Excel.contentStreams o lines fileName) eq_refl _).
  unfold Excel.contentStreams. now rewrite length_map, length_seq.
Qed.

Lemma docx_well_formed (o : Docx.options) (lines : list jsstring) :
  (0 < Docx.maxLinesPerPage o)%Z -> ascii_lines lines ->
  exists out,
    Docx.createPdfStructure o lines = Some out /\
    well_formed (Docx.contentStreams o lines) out.
Proof.
  intros Hm Hl. destruct (docx_counted o lines Hm) as (out & E & Hc).
  exists out. split; [exact E|].
  now apply counted_well_formed; [apply docx_streams_ascii|].
Qed.

(** C1 (as amended): whenever the page geometry leaves room for a line
    ([maxLinesPerPage] is positive), for every list of input lines the bytes
    returned by [createPdfStructure] start with ["%PDF-1.4\n"] and end with
    ["%%EOF\n"], and every number the file holds - the offsets in the
    cross-reference table, each [/Length], the number after [startxref] -
    counts UTF-16 code units where the claim asks for bytes: object N stands
    as many bytes after its recorded offset as the content streams before
    it gain in UTF-8, and so does the table after the announced position.
    When the lines are ASCII (what [cleanText] and [cleanTableText] let
    through), and in the Excel converter the file name too, nothing is
    gained and the claim holds as stated, read off the bytes themselves: the
    offset in line N of the table is the byte position of ["N 0 obj"], every
    content stream declares the byte length of its body, and the table
    stands where [startxref] says. *)
Theorem createPdfStructure_well_formed (lines : list jsstring) :
  (forall o, (0 < Docx.maxLinesPerPage o)%Z ->
     exists out,
       Docx.createPdfStructure o lines = Some out /\
       counted_in_code_units (Docx.contentStreams o lines) out /\
       (ascii_lines lines ->
        well_formed (Docx.contentStreams o lines) out))
  /\
  (forall o fileName, (0 < Excel.maxLinesPerPage o)%Z ->
     exists out,
       Excel.createPdfStructure o lines fileName = Some out /\
       counted_in_code_units (Excel.contentStreams o lines fileName) out /\
       (ascii_lines lines -> is_ascii fileName = true ->
        well_formed (Excel.contentStreams o lines fileName) out)).
Proof.
  split.
  - intros o Hm. destruct (docx_counted o lines Hm) as (out & E & Hc).
    exists out. split; [exact E|]. split; [exact Hc|].
    intros Hl. now apply counted_well_formed; [apply docx_streams_ascii|].
  - intros o fileName Hm.
    destruct (excel_counted o lines fileName Hm) as (out & E & Hc).
    exists out. split; [exact E|]. split; [exact Hc|].
    intros Hl Hf. now apply counted_well_formed; [apply excel_streams_ascii|].
Qed.

Lemma createPdfStructure_well_formed_witness :
  (exists out,
     Docx.createPdfStructure Docx.defaults [js "Hello world"] = Some out /\
     well_formed (Docx.contentStreams Docx.defaults [js "Hello world"]) out)
  /\
  (exists out,
     Excel.createPdfStructure Excel.defaults [js "Hello world"] (js "report.csv")
     = Some out /\
     well_formed
       (Excel.contentStreams Excel.defaults [js "Hello world"] (js "report.csv"))
       out).
Proof.
  assert (H : ascii_lines [js "Hello world"])
    by (constructor; [reflexivity | constructor]).
  destruct (createPdfStructure_well_formed [js "Hello world"]) as [HD HE].
  split.
  - destruct (HD Docx.defaults) as (out & E & _ & Hw); [reflexivity|].
    exists out. split; [exact E|]. exact (Hw H).
  - destruct (HE Excel.defaults (js "report.csv")) as (out & E & _ & Hw);
      [reflexivity|].
    exists out. split; [exact E|]. exact (Hw H eq_refl).
Defined.

(** C1 as stated fails on a line with a character outside ASCII.  With the
    one line ["é"] the DOCX writer's output holds, at byte 296, object 4
    declaring [/Length 41] for a body of 42 bytes, and it ends with
    [startxref 387] although the table starts at byte 388; with 52 more
    lines, so that a second page follows, line 5 of the table records 1159
    and ["5 0 obj"] stands at byte 1160. *)
Lemma createPdfStructure_non_ascii_line :
  let lines := [js "\u00e9"] in
  let stream := nth 0 (Docx.contentStreams Docx.defaults lines) [] in
  let out := Docx.createPdfStructure Docx.defaults lines in
  let more :=
    Docx.createPdfStructure Docx.defaults (js "\u00e9" :: repeat [] 52) in
  option_map
    (at_offset 296
       (encode (js "4 0 obj\n<<\n/Length 41\n>>\nstream\n") ++ encode stream
        ++ encode (js "\nendstream\nendobj\n"))) out = Some true
  /\ read_nat (encode (js "41")) = Some 41
  /\ length (encode stream) = 42
  /\ option_map (@length N) out = Some 551
  /\ option_map (at_offset 531 (encode (js "startxref\n387\n%%EOF\n"))) out
     = Some true
  /\ option_map (at_offset 387 (encode (js "xref\n"))) out = Some false
  /\ option_map (at_offset 388 (encode (js "xref\n0 5\n"))) out = Some true
  /\ option_map (at_offset 1431
                   (encode (js "xref\n0 7\n0000000000 65535 f \n"))) more
     = Some true
  /\ option_map (at_offset (1431 + 29 + 4 * 20)
                   (encode (js "0000001159 00000 n \n"))) more = Some true
  /\ option_map (at_offset 1159 (encode (js "5 0 obj\n"))) more = Some false
  /\ option_map (at_offset 1160 (encode (js "5 0 obj\n"))) more = Some true.
Proof. vm_compute. repeat split. Qed.

(* ================================================================== *)
(** * Page count *)
(* ================================================================== *)

Lemma totalPages_ceil (n m : nat) :
  0 < m -> Pdf.totalPages n m = Nat.max 1 (ceil_div n m).
Proof.
  intros Hm. unfold Pdf.totalPages, ceil_div.
  pose proof (Nat.div_mod_eq n m) as E.
  pose proof (Nat.mod_upper_bound n m ltac:(lia)) as Hr.
  set (q := n / m) in *. set (r := n mod m) in *.
  assert (Hc : (n + m - 1) / m = if r =? 0 then q else q + 1).
  { destruct (Nat.eqb_spec r 0) as [Hz|Hz].
    - symmetry. apply (Nat.div_unique _ _ _ (m - 1)); lia.
    - symmetry. apply (Nat.div_unique _ _ _ (r - 1)); lia. }
  rewrite Hc.
  destruct (Nat.eqb_spec r 0); destruct (Nat.eqb_spec q 0); try lia.
  - destruct (Nat.eqb_spec (q + 1) 0); lia.
  - destruct (Nat.eqb_spec (q + 1) 0); lia.
Qed.







(* ================================================================== *)
(** * Word wrapping *)
(* ================================================================== *)

Ltac case_leb :=
  match goal with
  | |- context [?a <=? ?b] => destruct (Nat.leb_spec a b)
  end.

Lemma wrapWord_fst (m : nat) (st : list jsstring * jsstring) (w : jsstring) :
  exists more, fst (Docx.wrapWord m st w) = fst st ++ more.
Proof.
  destruct st as [lines cur]. unfold Docx.wrapWord.
  destruct (length _ <=? m).
  - exists []. simpl. now rewrite app_nil_r.
  - destruct cur; eexists; reflexivity.
Qed.

Lemma wrapWord_bound (m : nat) (st : list jsstring * jsstring) (w : jsstring) :
  length (snd st) <= m -> length (snd (Docx.wrapWord m st w)) <= m.
Proof.
  destruct st as [lines cur]. unfold Docx.wrapWord. intros H.
  case_leb; [assumption|].
  destruct cur as [|c cur]; simpl; [lia|].
  case_leb; [assumption|].
  unfold substring0. rewrite length_firstn. lia.
Qed.

Lemma fold_wrapWord_bound (m : nat) (ws : list jsstring) :
  forall st, length (snd st) <= m ->
    length (snd (fold_left (Docx.wrapWord m) ws st)) <= m.
Proof.
  induction ws as [|w ws IH]; intros st H; simpl; [assumption|].
  apply IH, wrapWord_bound, H.
Qed.

(** A word longer than the limit is pushed at once, or becomes the pending
    line, cut to the limit. *)
Lemma wrapWord_long (m : nat) (st : list jsstring * jsstring) (w : jsstring) :
  length (snd st) <= m -> m < length w ->
  kept m (substring0 m w) (Docx.wrapWord m st w).
Proof.
  destruct st as [lines cur]. unfold Docx.wrapWord, kept. simpl. intros Hc Hw.
  destruct cur as [|c cur].
  - case_leb; [lia|]. simpl.
    left. apply in_or_app. right. now left.
  - case_leb.
    { rewrite length_app in *. simpl in *. lia. }
    simpl. right.
    case_leb; [lia|].
    unfold substring0. simpl in Hc.
    split; [reflexivity|]. split.
    + destruct m; [lia|]. destruct w; [simpl in Hw; lia|]. discriminate.
    + rewrite length_firstn. lia.
Qed.

(** Once kept, a line is among the lines after any further word. *)
Lemma wrapWord_kept (m : nat) (t : jsstring) (st : list jsstring * jsstring)
    (w : jsstring) :
  kept m t st -> In t (fst (Docx.wrapWord m st w)).
Proof.
  intros [Hin|(Hs & Hne & Hlen)].
  - destruct (wrapWord_fst m st w) as (more & ->). apply in_or_app. now left.
  - destruct st as [lines cur]. simpl in Hs. subst cur. unfold Docx.wrapWord.
    destruct t as [|c t]; [congruence|].
    case_leb.
    { rewrite length_app in *. simpl in *. lia. }
    simpl. apply in_or_app. right. now left.
Qed.

Lemma fold_wrapWord_kept (m : nat) (t : jsstring) (ws : list jsstring) :
  forall st, kept m t st -> kept m t (fold_left (Docx.wrapWord m) ws st).
Proof.
  induction ws as [|w ws IH]; intros st H; simpl; [assumption|].
  apply IH. left. now apply wrapWord_kept.
Qed.

Lemma kept_flush (m : nat) (t : jsstring) (st : list jsstring * jsstring) :
  kept m t st -> In t (flush st).
Proof.
  unfold flush. intros [Hin|(Hs & Hne & _)].
  - destruct (snd st); [assumption|]. apply in_or_app. now left.
  - rewrite Hs. destruct t; [congruence|]. apply in_or_app. right. now left.
Qed.

(** Wrapping a list of words emits every over-long word, cut to the limit. *)
Lemma wrap_words_long (m : nat) (lines : list jsstring) (ws : list jsstring)
    (w : jsstring) :
  In w ws -> m < length w ->
  In (substring0 m w) (flush (fold_left (Docx.wrapWord m) ws (lines, []))).
Proof.
  intros Hin Hw. apply in_split in Hin as (pre & post & ->).
  rewrite fold_left_app. simpl.
  apply (kept_flush m). apply fold_wrapWord_kept. apply wrapWord_long; [|assumption].
  apply fold_wrapWord_bound. simpl. lia.
Qed.

Lemma fold_wrapWord_fst (m : nat) (ws : list jsstring) :
  forall st, exists more, fst (fold_left (Docx.wrapWord m) ws st) = fst st ++ more.
Proof.
  induction ws as [|w ws IH]; intros st; simpl.
  - exists []. now rewrite app_nil_r.
  - destruct (IH (Docx.wrapWord m st w)) as (more & ->).
    destruct (wrapWord_fst m st w) as (more' & ->).
    exists (more' ++ more). now rewrite app_assoc.
Qed.

Lemma docx_wrapParagraph_flush (m : nat) (lines : list jsstring) (p : jsstring) :
  trim p <> [] ->
  Docx.wrapParagraph m lines p
  = flush (fold_left (Docx.wrapWord m) (split_ws (trim p)) (lines, [])).
Proof.
  intros Hp. unfold Docx.wrapParagraph, flush.
  destruct (trim p) as [|c r] eqn:E; [congruence|].
  destruct (fold_left _ _ _) as [l cur]. reflexivity.
Qed.

Lemma docx_wrapParagraph_mono (m : nat) (lines : list jsstring) (p : jsstring) :
  exists more, Docx.wrapParagraph m lines p = lines ++ more.
Proof.
  destruct (trim p) as [|c r] eqn:E.
  - unfold Docx.wrapParagraph. rewrite E. eexists. reflexivity.
  - rewrite docx_wrapParagraph_flush by congruence. rewrite E.
    destruct (fold_wrapWord_fst m (split_ws (c :: r)) (lines, [])) as (more & Hm).
    unfold flush. simpl in Hm. rewrite Hm.
    destruct (snd _); eexists; [reflexivity|].
    rewrite <- app_assoc. reflexivity.
Qed.

Lemma excel_wrapParagraph_mono (lines : list jsstring) (p : jsstring) :
  exists more, Excel.wrapParagraph lines p = lines ++ more.
Proof.
  unfold Excel.wrapParagraph.
  destruct (trim p) as [|c r] eqn:E; [eexists; reflexivity|].
  destruct (includes _ _ || includes _ _); [eexists; reflexivity|].
  destruct (fold_wrapWord_fst 90 (split_ws (c :: r)) (lines, [])) as (more & Hm).
  destruct (fold_left _ _ _) as [l cur]. simpl in Hm. subst l.
  destruct cur; eexists; [reflexivity|].
  rewrite <- app_assoc. reflexivity.
Qed.

Lemma fold_mono {A} (f : list jsstring -> A -> list jsstring) :
  (forall lines a, exists more, f lines a = lines ++ more) ->
  forall (l : list A) lines t, In t lines -> In t (fold_left f l lines).
Proof.
  intros Hf. induction l as [|a l IH]; intros lines t Ht; simpl; [assumption|].
  apply IH. destruct (Hf lines a) as (more & ->). apply in_or_app. now left.
Qed.

(** C7: for every text and every limit, a whitespace-delimited word longer
    than the limit is emitted as a line of its own, cut to its first
    [maxCharsPerLine] characters; it is never dropped.  In the Excel
    converter the limit is 90 and words are only looked at in paragraphs
    that are not table lines. *)
Theorem splitIntoLines_long_word (text paragraph word : jsstring) :
  In paragraph (split 10 text) ->
  trim paragraph <> [] ->
  In word (split_ws (trim paragraph)) ->
  (forall o, Docx.maxCharsPerLine o < length word ->
     In (substring0 (Docx.maxCharsPerLine o) word) (Docx.splitIntoLines o text))
  /\
  (includes (js "|") paragraph || includes (js "+") paragraph = false ->
   90 < length word ->
   In (substring0 90 word) (Excel.splitIntoLines text)).
Proof.
  intros Hp Hne Hw.
  apply in_split in Hp as (pre & post & Hsplit).
  split.
  - intros o Hlong. unfold Docx.splitIntoLines. rewrite Hsplit, fold_left_app.
    cbn [fold_left].
    apply (fold_mono (Docx.wrapParagraph (Docx.maxCharsPerLine o))
             (docx_wrapParagraph_mono (Docx.maxCharsPerLine o))).
    rewrite docx_wrapParagraph_flush by assumption.
    now apply wrap_words_long.
  - intros Htab Hlong. unfold Excel.splitIntoLines. rewrite Hsplit, fold_left_app.
    cbn [fold_left].
    apply (fold_mono Excel.wrapParagraph excel_wrapParagraph_mono).
    unfold Excel.wrapParagraph at 1. rewrite Htab.
    destruct (trim paragraph) as [|c r] eqn:E; [congruence|].
    pose proof (wrap_words_long 90
                  (fold_left Excel.wrapParagraph pre []) _ _ Hw Hlong) as H.
    unfold flush in H.
    destruct (fold_left (Docx.wrapWord 90) _ _) as [l cur]. exact H.
Qed.

Lemma splitIntoLines_long_word_witness :
  (forall o, Docx.maxCharsPerLine o < length (js "abcdefgh") ->
     In (substring0 (Docx.maxCharsPerLine o) (js "abcdefgh"))
       (Docx.splitIntoLines o (js "Hi\nto abcdefgh you")))
  /\ In (js "abcde") (Docx.splitIntoLines narrow (js "Hi\nto abcdefgh you")).
Proof.
  assert (H : forall o, Docx.maxCharsPerLine o < length (js "abcdefgh") ->
     In (substring0 (Docx.maxCharsPerLine o) (js "abcdefgh"))
       (Docx.splitIntoLines o (js "Hi\nto abcdefgh you"))).
  { refine (proj1 (splitIntoLines_long_word (js "Hi\nto abcdefgh you")
                     (js "to abcdefgh you") (js "abcdefgh") _ _ _)).
    - vm_compute. right. left. reflexivity.
    - discriminate.
    - vm_compute. right. left. reflexivity. }
  split; [exact H|].
  apply (H narrow). vm_compute. lia.
Defined.

(* ================================================================== *)
(** * Key encoding *)
(* ================================================================== *)

Ltac Zify.zify_post_hook ::= Z.to_euclidean_division_equations.

Lemma replaceChar_absent (a : N) (rep s : jsstring) :
  forallb (fun x => negb (x =? a)%N) s = true -> replaceChar a rep s = s.
Proof.
  induction s as [|x s IH]; simpl; [reflexivity|].
  rewrite andb_true_iff. intros [Hx Hs].
  apply negb_true_iff in Hx. rewrite Hx. simpl. now rewrite IH.
Qed.

Lemma replace3_same (a b c : N) (s : jsstring) :
  replace3 a b c [a; b; c] s = s.
Proof.
  assert (H : forall n s, length s <= n -> replace3 a b c [a; b; c] s = s).
  { induction n as [|n IH]; intros [|x t] Hl; simpl in *; try reflexivity; try lia.
    destruct t as [|y [|z r]]; try reflexivity.
    destruct ((x =? a) && (y =? b) && (z =? c))%N eqn:E.
    - rewrite !andb_true_iff, !N.eqb_eq in E. destruct E as [[-> ->] ->].
      rewrite IH by (simpl in *; lia). reflexivity.
    - rewrite IH by (simpl in *; lia). reflexivity. }
  apply (H (length s)). lia.
Qed.

Lemma forallb_weaken {A} (P Q : A -> bool) (l : list A) :
  (forall x, P x = true -> Q x = true) ->
  forallb P l = true -> forallb Q l = true.
Proof.
  intros H. induction l as [|x l IH]; simpl; [reflexivity|].
  rewrite !andb_true_iff. intros [Hx Hl]. auto.
Qed.

Lemma untouched_neq (a x : N) :
  existsb (N.eqb a) (js "!'()*[]{}#?&=+") = true ->
  untouched x = true -> negb (x =? a)%N = true.
Proof.
  intros Ha Hx. apply negb_true_iff, N.eqb_neq. intros ->.
  unfold untouched in Hx. rewrite Ha in Hx. discriminate.
Qed.

Lemma postEncode_untouched (s : jsstring) :
  forallb untouched s = true -> S3.postEncode s = s.
Proof.
  intros H. unfold S3.postEncode.
  assert (E : flat_map (fun c => if existsb (N.eqb c) (js "!'()*")
                                 then js "%" ++ toString16Upper c else [c]) s = s).
  { induction s as [|x s IH]; [reflexivity|].
    simpl in H. apply andb_true_iff in H as [Hx Hs].
    cbn [flat_map]. rewrite (IH Hs).
    replace (existsb (N.eqb x) (js "!'()*")) with false; [reflexivity|].
    symmetry. apply not_true_is_false. intros Hin.
    unfold untouched in Hx. apply negb_true_iff in Hx.
    change (js "!'()*[]{}#?&=+") with (js "!'()*" ++ js "[]{}#?&=+") in Hx.
    rewrite existsb_app, Hin in Hx. discriminate. }
  rewrite E.
  assert (A : forall a, existsb (N.eqb a) (js "!'()*[]{}#?&=+") = true ->
                        forall rep, replaceChar a rep s = s).
  { intros a Ha rep. apply replaceChar_absent.
    apply (forallb_weaken untouched); [|exact H].
    intros x. now apply untouched_neq. }
  rewrite !A by reflexivity.
  apply (replace3_same 37 50 48).
Qed.

Lemma postEncode_app (a b : jsstring) :
  S3.postEncode (a ++ b) = S3.postEncode a ++ S3.postEncode b.
Proof.
  unfold S3.postEncode, replaceChar.
  rewrite !(replace3_same 37 50 48). now rewrite !flat_map_app.
Qed.

(** ** Hexadecimal digits *)

Lemma hexdigit_range (x : N) :
  (x < 16)%N ->
  is_hex (hexdigit x) = true /\ hexv (hexdigit x) = x /\
  untouched (hexdigit x) = true.
Proof.
  intros H.
  assert (E : In x (map N.of_nat (seq 0 16))).
  { apply in_map_iff. exists (N.to_nat x). split; [lia|].
    apply in_seq. lia. }
  simpl in E.
  repeat (destruct E as [<-|E]; [vm_compute; auto|]). destruct E.
Qed.

Lemma untouched_pct (b : N) :
  (b < 256)%N -> forallb untouched (pct b) = true.
Proof.
  intros H. unfold pct. cbn [forallb].
  destruct (hexdigit_range (b / 16)) as (_ & _ & ->); [lia|].
  destruct (hexdigit_range (b mod 16)) as (_ & _ & ->); [lia|].
  reflexivity.
Qed.

Lemma tokens_pct (b : N) (rest : jsstring) :
  (b < 256)%N ->
  tokens (pct b ++ rest) = option_map (cons (Esc b)) (tokens rest).
Proof.
  intros H. unfold pct. cbn [app tokens]. rewrite N.eqb_refl.
  destruct (hexdigit_range (b / 16)) as (-> & -> & _); [lia|].
  destruct (hexdigit_range (b mod 16)) as (-> & -> & _); [lia|].
  cbn [andb]. do 3 f_equal. lia.
Qed.

(** ** Decoding composes *)

Lemma tokens_app (a b : jsstring) (ta : list token) :
  tokens a = Some ta ->
  tokens (a ++ b) = option_map (app ta) (tokens b).
Proof.
  assert (H : forall n a ta, length a <= n -> tokens a = Some ta ->
                tokens (a ++ b) = option_map (app ta) (tokens b)).
  { clear a ta. induction n as [|n IH]; intros [|c a] ta Hl Ha; simpl in *;
      try lia.
    - injection Ha as <-. now destruct (tokens b).
    - injection Ha as <-. now destruct (tokens b).
    - destruct (c =? 37)%N.
      + destruct a as [|h1 [|h2 r]]; try discriminate. simpl.
        destruct (is_hex h1 && is_hex h2); [|discriminate].
        destruct (tokens r) as [tr|] eqn:Er; [|discriminate].
        injection Ha as <-.
        rewrite (IH r tr) by (simpl in *; auto; lia).
        now destruct (tokens b).
      + destruct (tokens a) as [tr|] eqn:Er; [|discriminate].
        injection Ha as <-.
        rewrite (IH a tr) by (auto; lia).
        now destruct (tokens b). }
  intros Ha. apply (H (length a)); [lia|assumption].
Qed.

Lemma decode_tokens_idle (acc lo : N) (ts : list token) :
  decode_tokens 0 acc lo ts = decode_tokens 0 0 0 ts.
Proof. destruct ts; reflexivity. Qed.

Lemma decode_tokens_app (tb : list token) (ta : list token) :
  forall need acc lo sa,
    decode_tokens need acc lo ta = Some sa ->
    decode_tokens need acc lo (ta ++ tb)
    = option_map (app sa) (decode_tokens 0 0 0 tb).
Proof.
  induction ta as [|t ta IH]; intros need acc lo sa H.
  - simpl in *. destruct need; [|discriminate]. injection H as <-.
    rewrite decode_tokens_idle. now destruct (decode_tokens 0 0 0 tb).
  - cbn [app decode_tokens] in *.
    destruct need as [|k].
    + destruct t as [c|b].
      * destruct (decode_tokens 0 0 0 ta) as [s|] eqn:E; [|discriminate].
        injection H as <-. rewrite (IH _ _ _ _ E).
        now destruct (decode_tokens 0 0 0 tb).
      * destruct (b <? 128)%N.
        { destruct (decode_tokens 0 0 0 ta) as [s|] eqn:E; [|discriminate].
          injection H as <-. rewrite (IH _ _ _ _ E).
          now destruct (decode_tokens 0 0 0 tb). }
        repeat match goal with
               | |- context [if ?c then _ else _] => destruct c
               end; try discriminate; now apply IH.
    + destruct t as [c|b]; [discriminate|].
      destruct ((128 <=? b) && (b <? 192))%N; [|discriminate].
      destruct k as [|k]; [|now apply IH].
      destruct (valid_codepoint lo (acc * 64 + (b - 128))); [|discriminate].
      destruct (decode_tokens 0 0 0 ta) as [s|] eqn:E; [|discriminate].
      injection H as <-. rewrite (IH _ _ _ _ E).
      destruct (decode_tokens 0 0 0 tb); simpl; [|reflexivity].
      now rewrite app_assoc.
Qed.

Lemma decodeURIComponent_app (a b sa : jsstring) :
  decodeURIComponent a = Some sa ->
  decodeURIComponent (a ++ b) = option_map (app sa) (decodeURIComponent b).
Proof.
  unfold decodeURIComponent. intros H.
  destruct (tokens a) as [ta|] eqn:Ea; [|discriminate].
  rewrite (tokens_app a b ta Ea).
  destruct (tokens b) as [tb|]; simpl; [|reflexivity].
  now apply decode_tokens_app.
Qed.

(** ** One character *)

Ltac booleans :=
  repeat match goal with
         | |- context [(?a <? ?b)%N] =>
             first [ replace (a <? b)%N with true by (symmetry; apply N.ltb_lt; lia)
                   | replace (a <? b)%N with false by (symmetry; apply N.ltb_ge; lia) ]
         | |- context [(?a <=? ?b)%N] =>
             first [ replace (a <=? b)%N with true by (symmetry; apply N.leb_le; lia)
                   | replace (a <=? b)%N with false by (symmetry; apply N.leb_gt; lia) ]
         end.

Lemma decode_escape1 (c : N) :
  key_char c -> uri_unescaped c = false ->
  decodeURIComponent (flat_map pct (utf8_of_codepoint c)) = Some [c].
Proof.
  intros [Hne Hr] Hu. unfold decodeURIComponent, utf8_of_codepoint.
  destruct (N.ltb_spec c 128); [|destruct (N.ltb_spec c 2048)].
  - cbn [flat_map]. rewrite app_nil_r.
    rewrite <- (app_nil_r (pct c)), tokens_pct by lia.
    cbn [tokens option_map decode_tokens].
    booleans. reflexivity.
  - cbn [flat_map]. rewrite app_nil_r.
    rewrite tokens_pct by lia.
    rewrite <- (app_nil_r (pct _)), tokens_pct by lia.
    cbn [tokens option_map decode_tokens].
    booleans. cbn [andb]. booleans. cbn [andb].
    unfold valid_codepoint, utf16_of_codepoint.
    replace ((192 + c / 64 - 192) * 64 + (128 + c mod 64 - 128))%N with c by lia.
    booleans. reflexivity.
  - replace (c <? 65536)%N with true by (symmetry; apply N.ltb_lt; lia).
    cbn [flat_map]. rewrite app_nil_r.
    rewrite !tokens_pct by lia.
    rewrite <- (app_nil_r (pct _)), tokens_pct by lia.
    cbn [tokens option_map decode_tokens].
    booleans. cbn [andb]. booleans. cbn [andb]. booleans. cbn [andb].
    unfold valid_codepoint, utf16_of_codepoint.
    replace (((224 + c / 4096 - 224) * 64 + (128 + (c / 64) mod 64 - 128)) * 64
             + (128 + c mod 64 - 128))%N with c by lia.
    replace (2048 <=? c)%N with true by (symmetry; apply N.leb_le; lia).
    replace (c <=? 1114111)%N with true by (symmetry; apply N.leb_le; lia).
    replace (c <? 65536)%N with true by (symmetry; apply N.ltb_lt; lia).
    destruct Hr as [Hr|Hr].
    + replace (55296 <=? c)%N with false by (symmetry; apply N.leb_gt; lia).
      reflexivity.
    + replace (c <=? 57343)%N with false by (symmetry; apply N.leb_gt; lia).
      rewrite andb_false_r. reflexivity.
Qed.

Lemma untouched_no_plus (s : jsstring) :
  forallb untouched s = true -> ~ In 43%N s.
Proof.
  intros H Hin. rewrite forallb_forall in H. apply H in Hin. discriminate.
Qed.

Lemma utf8_octets (c : N) :
  (c < 65536)%N -> Forall (fun b => (b < 256)%N) (utf8_of_codepoint c).
Proof.
  intros H. unfold utf8_of_codepoint.
  destruct (N.ltb_spec c 128); [|destruct (N.ltb_spec c 2048)].
  - repeat constructor. lia.
  - repeat constructor; lia.
  - replace (c <? 65536)%N with true by (symmetry; apply N.ltb_lt; lia).
    repeat constructor; lia.
Qed.

Lemma untouched_octets (bs : list N) :
  Forall (fun b => (b < 256)%N) bs -> forallb untouched (flat_map pct bs) = true.
Proof.
  induction 1 as [|b bs Hb _ IH]; [reflexivity|].
  cbn [flat_map]. now rewrite forallb_app, untouched_pct, IH.
Qed.

Lemma special_cases (c : N) :
  existsb (N.eqb c) (js "!'()*[]{}#?&=+") = true ->
  In c (js "!'()*[]{}#?&=+").
Proof.
  intros H. apply existsb_exists in H as (x & Hx & E).
  apply N.eqb_eq in E. now subst.
Qed.

Lemma char_round_trip (c : N) :
  key_char c ->
  decodeURIComponent (encode1 c) = Some [c] /\ ~ In 43%N (encode1 c).
Proof.
  intros Hk. unfold encode1.
  destruct (untouched c) eqn:Eu.
  - unfold escape1. destruct (uri_unescaped c) eqn:Ec.
    + rewrite postEncode_untouched by (simpl; now rewrite Eu).
      split.
      * unfold decodeURIComponent. cbn [tokens].
        destruct Hk as [Hne _]. apply N.eqb_neq in Hne. now rewrite Hne.
      * apply untouched_no_plus. simpl. now rewrite Eu.
    + assert (Hb : forallb untouched (flat_map pct (utf8_of_codepoint c)) = true).
      { apply untouched_octets, utf8_octets. destruct Hk as [_ [?|?]]; lia. }
      rewrite postEncode_untouched by exact Hb.
      split; [now apply decode_escape1 | now apply untouched_no_plus].
  - unfold untouched in Eu. apply negb_false_iff, special_cases in Eu.
    simpl in Eu.
    repeat (destruct Eu as [<-|Eu];
            [vm_compute; split; [reflexivity | intuition discriminate]|]).
    destruct Eu.
Qed.

Lemma encodeURIComponent_escape1 (s : jsstring) :
  Forall key_char s -> encodeURIComponent s = Some (flat_map escape1 s).
Proof.
  induction 1 as [|c s Hc _ IH]; [reflexivity|].
  cbn [encodeURIComponent flat_map]. unfold escape1 at 1.
  destruct (uri_unescaped c); [now rewrite IH|].
  unfold is_low_surrogate, is_high_surrogate.
  destruct Hc as [_ [Hc|Hc]].
  - replace (56320 <=? c)%N with false by (symmetry; apply N.leb_gt; lia).
    replace (55296 <=? c)%N with false by (symmetry; apply N.leb_gt; lia).
    now rewrite IH.
  - replace (c <=? 57343)%N with false by (symmetry; apply N.leb_gt; lia).
    replace (c <=? 56319)%N with false by (symmetry; apply N.leb_gt; lia).
    rewrite !andb_false_r. now rewrite IH.
Qed.

Lemma encodePart_encode1 (s : jsstring) :
  Forall key_char s -> S3.encodePart s = Some (flat_map encode1 s).
Proof.
  intros H. unfold S3.encodePart. rewrite encodeURIComponent_escape1 by exact H.
  cbn [option_map]. f_equal. clear H.
  induction s as [|c s IH]; [reflexivity|].
  cbn [flat_map]. now rewrite postEncode_app, IH.
Qed.

Lemma mapM_encodePart (parts : list jsstring) :
  Forall (Forall key_char) parts ->
  S3.mapM S3.encodePart parts = Some (map (flat_map encode1) parts).
Proof.
  induction 1 as [|p parts Hp _ IH]; [reflexivity|].
  cbn [S3.mapM map]. now rewrite encodePart_encode1, IH.
Qed.

Lemma split_aux_parts (P : N -> Prop) (sep : N) (s : jsstring) :
  forall cur, Forall P cur -> Forall P s ->
    Forall (Forall P) (split_aux sep cur s).
Proof.
  induction s as [|x s IH]; intros cur Hcur Hs; cbn [split_aux].
  - constructor; [|constructor]. now apply Forall_rev.
  - inversion Hs as [|? ? Hx Hs']; subst.
    destruct (x =? sep)%N.
    + constructor; [now apply Forall_rev|]. apply IH; [constructor|assumption].
    + apply IH; [constructor|]; assumption.
Qed.

Lemma split_aux_cons (sep : N) (s cur : jsstring) :
  exists p ps, split_aux sep cur s = p :: ps.
Proof.
  revert cur. induction s as [|x s IH]; intros cur; cbn [split_aux].
  - eauto.
  - destruct (x =? sep)%N; eauto.
Qed.

Lemma join_split (s : jsstring) :
  forall cur,
    join (js "/") (map (flat_map encode1) (split_aux 47 cur s))
    = flat_map encode1 (rev cur) ++ flat_map encode1' s.
Proof.
  induction s as [|x s IH]; intros cur; cbn [split_aux].
  - cbn [map join flat_map]. now rewrite app_nil_r.
  - cbn [flat_map]. unfold encode1' at 1.
    destruct (x =? 47)%N eqn:E.
    + destruct (split_aux_cons 47 s []) as (p & ps & Hs).
      cbn [map]. specialize (IH []). rewrite Hs in *.
      cbn [map join] in *. rewrite IH. reflexivity.
    + rewrite IH. cbn [rev]. rewrite flat_map_app. cbn [flat_map].
      rewrite app_nil_r, <- app_assoc. reflexivity.
Qed.

Lemma decode_plain (key : jsstring) :
  Forall key_char key -> decodeURIComponent key = Some key.
Proof.
  unfold decodeURIComponent.
  induction 1 as [|c s [Hc _] _ IH]; [reflexivity|].
  cbn [tokens]. apply N.eqb_neq in Hc. rewrite Hc.
  destruct (tokens s) as [ts|]; [|discriminate].
  cbn [option_map decode_tokens]. now rewrite IH.
Qed.

Lemma encodeS3Key_encode1' (key : jsstring) :
  Forall key_char key -> S3.encodeS3Key key = Some (flat_map encode1' key).
Proof.
  intros H. unfold S3.encodeS3Key. rewrite decode_plain by exact H.
  unfold split. rewrite mapM_encodePart by (apply split_aux_parts; auto).
  cbn [option_map]. now rewrite join_split.
Qed.

Lemma image_encode1' (c : N) : key_char c -> image c = encode1' c.
Proof.
  intros H. unfold image.
  rewrite encodeS3Key_encode1' by (constructor; [exact H|constructor]).
  cbn [flat_map]. apply app_nil_r.
Qed.

Lemma decode_encode1' (c : N) :
  key_char c ->
  decodeURIComponent (encode1' c) = Some [c] /\ ~ In 43%N (encode1' c).
Proof.
  intros H. unfold encode1'. destruct (N.eqb_spec c 47) as [->|_].
  - split; [reflexivity|]. simpl. intuition discriminate.
  - now apply char_round_trip.
Qed.

(** C5: for every key made of ordinary characters - anything in the Basic
    Multilingual Plane but [%] and the surrogates, so in particular the
    space and [( ) [ ] { } # ? & = +] - percent-decoding the output of
    [encodeS3Key] gives the key back.  The output is the key's characters
    encoded one by one; a space is encoded as ["%20"], and no [+] occurs in
    the output. *)
Theorem encodeS3Key_round_trip (key : jsstring) :
  Forall key_char key ->
  exists encoded,
    S3.encodeS3Key key = Some encoded /\
    decodeURIComponent encoded = Some key /\
    encoded = flat_map image key /\
    image 32 = js "%20" /\
    ~ In 43%N encoded.
Proof.
  intros H. exists (flat_map encode1' key).
  split; [now apply encodeS3Key_encode1'|].
  split; [|split; [|split; [reflexivity|]]].
  - induction H as [|c s Hc _ IH]; [reflexivity|].
    cbn [flat_map].
    rewrite (decodeURIComponent_app _ _ [c]) by (now apply decode_encode1').
    now rewrite IH.
  - induction H as [|c s Hc _ IH]; [reflexivity|].
    cbn [flat_map]. now rewrite image_encode1', IH.
  - induction H as [|c s Hc _ IH]; [intros []|].
    cbn [flat_map]. intros Hin. apply in_app_or in Hin as [Hin|Hin].
    + now apply (decode_encode1' c Hc).
    + now apply IH.
Qed.

(* ================================================================== *)
(** * The table text *)
(* ================================================================== *)

Lemma length_padEnd (n : nat) (c : N) (s : jsstring) :
  length s <= n -> length (padEnd n c s) = n.
Proof.
  intros H. unfold padEnd. rewrite length_app, repeat_length. lia.
Qed.

Lemma formatCell_cases (cell : jsstring) :
  (18 < length (trim cell) ->
     Excel.formatCell cell = firstn 15 (trim cell) ++ js "..." /\
     length (Excel.formatCell cell) = 18) /\
  (length (trim cell) <= 18 -> Excel.formatCell cell = trim cell).
Proof.
  unfold Excel.formatCell, substring0. split; intros H.
  - replace (18 <? length (trim cell)) with true
      by (symmetry; apply Nat.ltb_lt; lia).
    split; [reflexivity|]. rewrite length_app, length_firstn.
    change (length (js "...")) with 3. lia.
  - replace (18 <? length (trim cell)) with false
      by (symmetry; apply Nat.ltb_ge; lia).
    reflexivity.
Qed.

Lemma length_table_cell (cell : jsstring) : length (table_cell cell) = 20.
Proof.
  unfold table_cell. apply length_padEnd.
  destruct (formatCell_cases cell) as [H1 H2].
  destruct (Nat.le_gt_cases (length (trim cell)) 18) as [H|H].
  - rewrite (H2 H). lia.
  - destruct (H1 H) as [_ ->]. lia.
Qed.

Lemma length_join (sep : jsstring) (k : nat) (l : list jsstring) :
  Forall (fun x => length x = k) l -> l <> [] ->
  length (join sep l) + length sep = (k + length sep) * length l.
Proof.
  induction 1 as [|x l Hx Hl IH]; intros Hne; [now elim Hne|].
  destruct l as [|y l].
  - simpl. lia.
  - change (join sep (x :: y :: l)) with (x ++ sep ++ join sep (y :: l)).
    rewrite !length_app. specialize (IH ltac:(discriminate)).
    cbn [length] in *. lia.
Qed.

(** Every line of a table of [n >= 1] columns is [22 n + 1] wide. *)
Lemma length_table_line (cells : Excel.row) :
  cells <> [] -> length (table_line cells) = 22 * length cells + 1.
Proof.
  intros H. unfold table_line. rewrite !length_app.
  pose proof (length_join (js "| ") 20 (map table_cell cells)) as E.
  rewrite length_map in E.
  specialize (E ltac:(apply Forall_map, Forall_forall; intros; apply length_table_cell)
                ltac:(destruct cells; [now elim H|discriminate])).
  simpl in *. lia.
Qed.

Lemma length_separator_line (n : nat) :
  0 < n -> length (separator_line n) = 22 * n + 1.
Proof.
  intros H. unfold separator_line. rewrite !length_app.
  pose proof (length_join (js "+-") 20 (repeat (repeat 45%N 20) n)) as E.
  rewrite repeat_length in E.
  specialize (E ltac:(apply Forall_forall; intros x Hx;
                      apply repeat_spec in Hx; subst; reflexivity)
                ltac:(destruct n; [lia|discriminate])).
  simpl in *. lia.
Qed.

Lemma map_const {A B} (d : B) (l : list A) :
  map (fun _ => d) l = repeat d (length l).
Proof. induction l as [|x xs IH]; simpl; [reflexivity|now rewrite IH]. Qed.

Lemma dashes_repeat : Excel.dashes = repeat 45%N 20.
Proof. reflexivity. Qed.

(** The row callback appends the row's line, and the separator after the
    first row. *)
Lemma addRow_text (o : Excel.options) (t : jsstring) (index : nat)
    (r : Excel.row) :
  r <> [] ->
  Excel.addRow o t (index, r)
  = t ++ table_line (firstn (Excel.maxColumnsPerPage o) r) ++ js "\n"
      ++ (if index =? 0
          then separator_line (length (firstn (Excel.maxColumnsPerPage o) r))
               ++ js "\n"
          else []).
Proof.
  intros H. unfold Excel.addRow. destruct r as [|c r]; [now elim H|].
  unfold Pdf.slice. rewrite Nat.sub_0_r. cbn [skipn].
  set (cells := firstn _ _).
  rewrite map_const, length_map, dashes_repeat, map_map.
  unfold table_line, separator_line, table_cell.
  destruct (index =? 0); rewrite <- ?app_assoc; simpl; rewrite <- ?app_assoc;
    reflexivity.
Qed.

Lemma addRows_text (o : Excel.options) (rows : list Excel.row) :
  Forall (fun r => r <> []) rows ->
  forall a t,
    0 < a ->
    fold_left (Excel.addRow o) (combine (seq a (length rows)) rows) t
    = t ++ unlines (map (fun r => table_line (firstn (Excel.maxColumnsPerPage o) r))
                      rows).
Proof.
  induction 1 as [|r rows Hr _ IH]; intros a t Ha.
  - simpl. now rewrite app_nil_r.
  - cbn [length seq combine fold_left map].
    rewrite addRow_text by exact Hr.
    replace (a =? 0) with false by (symmetry; apply Nat.eqb_neq; lia).
    rewrite IH by lia. unfold unlines. cbn [map concat].
    rewrite app_nil_r, <- !app_assoc. reflexivity.
Qed.

Lemma unlines_app (a b : list jsstring) : unlines (a ++ b) = unlines a ++ unlines b.
Proof. unfold unlines. now rewrite map_app, concat_app. Qed.

Lemma unlines_cons (l : jsstring) (ls : list jsstring) :
  unlines (l :: ls) = l ++ js "\n" ++ unlines ls.
Proof. unfold unlines. cbn [map concat]. now rewrite <- app_assoc. Qed.

Lemma separator_newline (n : nat) :
  js "+-" ++ join (js "+-") (repeat (repeat 45%N 20) n) ++ js "+\n"
  = separator_line n ++ js "\n".
Proof. unfold separator_line. now rewrite <- !app_assoc. Qed.

(** The rows of a sheet, appended to what precedes them. *)
Lemma sheet_rows_text (o : Excel.options) (t0 : jsstring) (rows : list Excel.row) :
  Forall (fun r => r <> []) rows ->
  (if 0 <? length rows then
     (if 1 <? length rows then
        fold_left (Excel.addRow o) (combine (seq 0 (length rows)) rows) t0
        ++ js "+-"
        ++ join (js "+-")
             (map (fun _ => Excel.dashes)
                (Pdf.slice 0 (Excel.maxColumnsPerPage o) (last rows [])))
        ++ js "+\n"
      else fold_left (Excel.addRow o) (combine (seq 0 (length rows)) rows) t0)
     ++ js "\n"
   else t0)
  = t0 ++ unlines (sheet_lines (Excel.maxColumnsPerPage o) rows)
       ++ match rows with [] => [] | _ :: _ => js "\n" end.
Proof.
  intros Hp. destruct rows as [|header others].
  - cbn [length Nat.ltb Nat.leb sheet_lines]. unfold unlines. cbn [map concat].
    now rewrite !app_nil_r.
  - inversion Hp as [|? ? Hh Ho]; subst.
    cbn [length Nat.ltb Nat.leb seq combine fold_left].
    rewrite addRow_text by exact Hh. cbn [Nat.eqb].
    rewrite addRows_text by (auto; lia).
    unfold sheet_lines.
    destruct others as [|r others].
    + cbn [length map app]. rewrite !unlines_cons.
      unfold unlines. cbn [map concat]. rewrite <- ?app_assoc, ?app_nil_r.
      reflexivity.
    + cbn [length]. unfold Pdf.slice. rewrite Nat.sub_0_r. cbn [skipn].
      replace (last (header :: r :: others) []) with (last (r :: others) [])
        by reflexivity.
      rewrite map_const, dashes_repeat, separator_newline.
      cbn [app]. rewrite !unlines_cons, unlines_app, !unlines_cons.
      unfold unlines at 3. cbn [map concat].
      rewrite <- ?app_assoc, ?app_nil_r. reflexivity.
Qed.

Lemma addSheet_text (o : Excel.options) (wb : Excel.workbook) (t name : jsstring) :
  proper_rows wb ->
  Excel.addSheet o wb t name = t ++ sheet_text o wb name.
Proof.
  intros Hp. unfold Excel.addSheet, sheet_text.
  destruct (Excel.Sheets wb name) as [rows|] eqn:Es; [|now rewrite app_nil_r].
  specialize (Hp name rows Es).
  rewrite (sheet_rows_text o _ rows Hp).
  unfold banner. destruct (1 <? length (Excel.SheetNames wb));
    rewrite <- ?app_assoc; reflexivity.
Qed.

Lemma addSheets_text (o : Excel.options) (wb : Excel.workbook) :
  proper_rows wb ->
  forall names t,
    fold_left (Excel.addSheet o wb) names t
    = t ++ flat_map (sheet_text o wb) names.
Proof.
  intros Hp. induction names as [|n names IH]; intros t; simpl.
  - now rewrite app_nil_r.
  - rewrite IH, addSheet_text by exact Hp. now rewrite <- app_assoc.
Qed.

(** C8: the text extracted from a workbook is, sheet after sheet, the table
    drawn by [sheet_lines] - one fixed-width line per row, a separator after
    the header row and after the final row - under a sheet-name banner when
    the workbook has more than one sheet; the whole is trimmed.  Cells longer
    than 18 characters are cut to 15 and an ellipsis, every cell is padded
    to 20, so that rows and separators of [n] columns are all [22 n + 1]
    wide. *)
Theorem extractSimpleTableText_table (o : Excel.options) (wb : Excel.workbook) :
  proper_rows wb ->
  Excel.extractSimpleTableText o wb
  = trim (flat_map (sheet_text o wb) (Excel.SheetNames wb))
  /\ (forall cell, 18 < length (trim cell) ->
        Excel.formatCell cell = firstn 15 (trim cell) ++ js "...")
  /\ (forall cell, length (trim cell) <= 18 -> Excel.formatCell cell = trim cell)
  /\ (forall cell, length (table_cell cell) = 20)
  /\ (forall cells, cells <> [] ->
        length (table_line cells) = 22 * length cells + 1
        /\ length (separator_line (length cells)) = 22 * length cells + 1).
Proof.
  intros Hp. split; [|split; [|split; [|split]]].
  - unfold Excel.extractSimpleTableText. now rewrite addSheets_text.
  - intros cell H. now apply formatCell_cases.
  - intros cell H. now apply formatCell_cases.
  - apply length_table_cell.
  - intros cells H. split; [now apply length_table_line|].
    apply length_separator_line. destruct cells; [now elim H|simpl; lia].
Qed.

(* ================================================================== *)
(** * From text to lines: only ASCII reaches the writer *)
(* ================================================================== *)

Lemma ascii_is_ascii (s : jsstring) : ascii s <-> is_ascii s = true.
Proof.
  unfold ascii, is_ascii. rewrite forallb_forall, Forall_forall.
  split; intros H x Hx.
  - apply N.ltb_lt. now apply H.
  - apply N.ltb_lt. now apply H.
Qed.

Lemma ascii_trimStart (s : jsstring) : ascii s -> ascii (trimStart s).
Proof.
  induction 1 as [|c s Hc Hs IH]; simpl; [constructor|].
  destruct (is_space c); [assumption|now constructor].
Qed.

Lemma ascii_trim (s : jsstring) : ascii s -> ascii (trim s).
Proof.
  intros H. unfold trim, trimEnd.
  apply Forall_rev, ascii_trimStart, Forall_rev, ascii_trimStart, H.
Qed.

Lemma ascii_collapse_ws (s : jsstring) :
  ascii s -> forall b, ascii (collapse_ws b s).
Proof.
  induction 1 as [|c s Hc Hs IH]; intros b; simpl; [constructor|].
  destruct (is_space c).
  - destruct b; [apply IH|]. constructor; [reflexivity|apply IH].
  - constructor; [assumption|apply IH].
Qed.

Lemma ascii_replace_nl_ws (s : jsstring) :
  ascii s -> forall b, ascii (replace_nl_ws b s).
Proof.
  induction 1 as [|c s Hc Hs IH]; intros b; simpl; [constructor|].
  destruct (b && is_space c); [apply IH|].
  destruct (c =? 10)%N.
  - destruct s; constructor; try reflexivity; [constructor|apply IH].
  - constructor; [assumption|apply IH].
Qed.

(** Whatever the text, [cleanText] returns ASCII. *)
Lemma ascii_cleanText (text : jsstring) : ascii (Docx.cleanText text).
Proof.
  unfold Docx.cleanText.
  apply ascii_trim, ascii_replace_nl_ws, ascii_collapse_ws.
  apply Forall_map, Forall_forall. intros c _.
  destruct ((32 <=? c) && (c <=? 126) || (c =? 10))%N eqn:E; [|reflexivity].
  apply orb_true_iff in E as [E|E].
  - apply andb_true_iff in E as [_ E]. apply N.leb_le in E. lia.
  - apply N.eqb_eq in E. subst. reflexivity.
Qed.

Lemma ascii_cleanTableText (text : jsstring) : ascii (Excel.cleanTableText text).
Proof.
  unfold Excel.cleanTableText.
  apply ascii_trim, ascii_replace_nl_ws, ascii_collapse_ws.
  apply Forall_map, Forall_forall. intros c _.
  destruct ((32 <=? c) && (c <=? 126) || (c =? 10) || (c =? 124)
            || (c =? 43) || (c =? 45))%N eqn:E; [|reflexivity].
  repeat (apply orb_true_iff in E as [E|E]);
    try (apply N.eqb_eq in E; subst; reflexivity).
  apply andb_true_iff in E as [_ E]. apply N.leb_le in E. lia.
Qed.

Lemma ascii_split_ws_aux (s : jsstring) :
  ascii s -> forall cur b, ascii cur -> Forall ascii (split_ws_aux cur b s).
Proof.
  induction 1 as [|c s Hc Hs IH]; intros cur b Hcur; simpl.
  - constructor; [now apply Forall_rev|constructor].
  - destruct (is_space c).
    + destruct b; [apply IH; constructor|].
      constructor; [now apply Forall_rev|apply IH; constructor].
    + apply IH. now constructor.
Qed.

Lemma ascii_wrapWord (m : nat) (st : list jsstring * jsstring) (w : jsstring) :
  Forall ascii (fst st) -> ascii (snd st) -> ascii w ->
  Forall ascii (fst (Docx.wrapWord m st w)) /\ ascii (snd (Docx.wrapWord m st w)).
Proof.
  destruct st as [lines cur]. simpl. intros Hl Hc Hw. unfold Docx.wrapWord.
  assert (Ht : ascii (match cur with [] => w | _ :: _ => cur ++ js " " ++ w end)).
  { destruct cur; [assumption|].
    apply Forall_app. split; [assumption|]. constructor; [reflexivity|assumption]. }
  assert (Hs : ascii (substring0 m w)) by (now apply Forall_firstn).
  case_leb.
  - cbn [fst snd]. split; [assumption|exact Ht].
  - destruct cur as [|c cur]; cbn [fst snd].
    + split; [|constructor]. apply Forall_app. split; [assumption|].
      constructor; [assumption|constructor].
    + split.
      * apply Forall_app. split; [assumption|]. constructor; [assumption|constructor].
      * case_leb; assumption.
Qed.

Lemma ascii_fold_wrapWord (m : nat) (ws : list jsstring) :
  Forall ascii ws ->
  forall st, Forall ascii (fst st) -> ascii (snd st) ->
    Forall ascii (flush (fold_left (Docx.wrapWord m) ws st)).
Proof.
  induction 1 as [|w ws Hw _ IH]; intros st Hl Hc; simpl.
  - unfold flush. destruct (snd st) eqn:E; [assumption|].
    apply Forall_app. split; [assumption|]. constructor; [assumption|constructor].
  - destruct (ascii_wrapWord m st w Hl Hc Hw). now apply IH.
Qed.

Lemma ascii_docx_wrapParagraph (m : nat) (lines : list jsstring) (p : jsstring) :
  Forall ascii lines -> ascii p -> Forall ascii (Docx.wrapParagraph m lines p).
Proof.
  intros Hl Hp. destruct (trim p) as [|c r] eqn:E.
  - unfold Docx.wrapParagraph. rewrite E. apply Forall_app. split; [assumption|].
    repeat constructor.
  - rewrite docx_wrapParagraph_flush by congruence.
    apply ascii_fold_wrapWord; [|assumption|constructor].
    apply ascii_split_ws_aux; [now apply ascii_trim|constructor].
Qed.

Lemma ascii_excel_wrapParagraph (lines : list jsstring) (p : jsstring) :
  Forall ascii lines -> ascii p -> Forall ascii (Excel.wrapParagraph lines p).
Proof.
  intros Hl Hp. unfold Excel.wrapParagraph.
  destruct (trim p) as [|c r] eqn:E.
  - apply Forall_app. split; [assumption|]. repeat constructor.
  - destruct (includes _ _ || includes _ _).
    + apply Forall_app. split; [assumption|].
      constructor; [|constructor]. rewrite <- E. now apply ascii_trim.
    + pose proof (ascii_fold_wrapWord 90 (split_ws (c :: r))) as H.
      specialize (H ltac:(apply ascii_split_ws_aux;
                          [rewrite <- E; now apply ascii_trim|constructor])
                    (lines, []) Hl ltac:(constructor)).
      unfold flush in H. destruct (fold_left _ _ _) as [l cur]. exact H.
Qed.

Lemma ascii_fold_paragraphs (f : list jsstring -> jsstring -> list jsstring) :
  (forall lines p, Forall ascii lines -> ascii p -> Forall ascii (f lines p)) ->
  forall ps lines, Forall ascii ps -> Forall ascii lines ->
    Forall ascii (fold_left f ps lines).
Proof.
  intros Hf. induction ps as [|p ps IH]; intros lines Hps Hl; simpl; [assumption|].
  inversion Hps; subst. apply IH; auto.
Qed.

Lemma ascii_lines_of (lines : list jsstring) :
  Forall ascii lines -> ascii_lines lines.
Proof.
  unfold ascii_lines. apply Forall_impl. intros l. apply ascii_is_ascii.
Qed.

Lemma ascii_docx_splitIntoLines (o : Docx.options) (text : jsstring) :
  ascii text -> ascii_lines (Docx.splitIntoLines o text).
Proof.
  intros H. apply ascii_lines_of. unfold Docx.splitIntoLines.
  apply ascii_fold_paragraphs; [apply ascii_docx_wrapParagraph| |constructor].
  apply split_aux_parts; [constructor|assumption].
Qed.

Lemma ascii_excel_splitIntoLines (text : jsstring) :
  ascii text -> ascii_lines (Excel.splitIntoLines text).
Proof.
  intros H. apply ascii_lines_of. unfold Excel.splitIntoLines.
  apply ascii_fold_paragraphs; [apply ascii_excel_wrapParagraph| |constructor].
  apply split_aux_parts; [constructor|assumption].
Qed.

(** [createPdfManually] never throws: it wraps what [createPdfStructure]
    makes of the cleaned and wrapped text, and those bytes are exact. *)
Lemma docx_createPdfManually (o : Docx.options) (text : jsstring) :
  (0 < Docx.maxLinesPerPage o)%Z ->
  exists out,
    Docx.createPdfStructure o (Docx.splitIntoLines o (Docx.cleanText text))
    = Some out /\
    Docx.createPdfManually o text
    = Some (Ok {| blob_data := out; blob_type := js "application/pdf" |}) /\
    well_formed
      (Docx.contentStreams o (Docx.splitIntoLines o (Docx.cleanText text))) out.
Proof.
  intros Hm. unfold Docx.createPdfManually.
  destruct (docx_well_formed o (Docx.splitIntoLines o (Docx.cleanText text)) Hm)
    as (out & E & Hw).
  { apply ascii_docx_splitIntoLines, ascii_cleanText. }
  rewrite E. exists out. split; [reflexivity|]. split; [reflexivity|exact Hw].
Qed.

(* ================================================================== *)
(** * [convertToPdf] *)
(* ================================================================== *)

(** X1: the DOCX converter never lets a failure out.  Whatever the
    extraction gives, [convertToPdf] returns a blob of type
    [application/pdf]: the bytes [createPdfStructure] writes for the lines
    of the extracted text or, after a failed or blank extraction, of the
    error page for the message ([createErrorPdf]).  These bytes are framed
    by the header and the end-of-file marker, and their cross-reference
    offsets, [/Length] and [startxref] are exact byte counts.  (Nothing is
    said of the text operators inside a content stream.) *)
Lemma docx_convertToPdf_returns (o : Docx.options) (extracted : result jsstring) :
  (0 < Docx.maxLinesPerPage o)%Z ->
  exists out,
    Docx.convertToPdf o extracted
    = Some (Ok {| blob_data := out; blob_type := js "application/pdf" |}) /\
    Docx.createPdfStructure o (docx_lines o extracted) = Some out /\
    well_formed (Docx.contentStreams o (docx_lines o extracted)) out /\
    match docx_failure extracted with
    | Some message =>
        Docx.createErrorPdf o message = Docx.convertToPdf o extracted
    | None =>
        extracted = Ok (docx_source extracted) /\
        Docx.createPdfManually o (docx_source extracted)
        = Docx.convertToPdf o extracted
    end.
Proof.
  intros Hm. unfold docx_lines, docx_source.
  destruct (docx_createPdfManually o (docx_source extracted) Hm)
    as (out & E & Eb & Hw).
  unfold docx_source in E, Eb, Hw.
  exists out. unfold Docx.convertToPdf, docx_failure in *.
  destruct extracted as [textContent|m].
  - destruct (trim textContent) as [|c r] eqn:Et.
    + unfold Docx.createErrorPdf. rewrite Eb.
      split; [reflexivity|]. split; [exact E|]. split; [exact Hw|reflexivity].
    + rewrite Eb.
      split; [reflexivity|]. split; [exact E|]. split; [exact Hw|].
      split; reflexivity.
  - unfold Docx.createErrorPdf. rewrite Eb.
    split; [reflexivity|]. split; [exact E|]. split; [exact Hw|reflexivity].
Qed.

Lemma excel_createSimpleTablePdf (o : Excel.options) (text fileName : jsstring) :
  (0 < Excel.maxLinesPerPage o)%Z ->
  exists out,
    Excel.createPdfStructure o (Excel.splitIntoLines (Excel.cleanTableText text))
      fileName = Some out /\
    Excel.createSimpleTablePdf o text fileName
    = Some (Ok {| blob_data := out; blob_type := js "application/pdf" |}) /\
    counted_in_code_units
      (Excel.contentStreams o
         (Excel.splitIntoLines (Excel.cleanTableText text)) fileName) out /\
    (is_ascii fileName = true ->
     well_formed
       (Excel.contentStreams o
          (Excel.splitIntoLines (Excel.cleanTableText text)) fileName) out).
Proof.
  intros Hm. unfold Excel.createSimpleTablePdf.
  destruct (excel_counted o
              (Excel.splitIntoLines (Excel.cleanTableText text)) fileName Hm)
    as (out & E & Hc).
  rewrite E. exists out. split; [reflexivity|]. split; [reflexivity|].
  split; [exact Hc|]. intros Hf.
  apply counted_well_formed; [|exact Hc].
  apply excel_streams_ascii; [|exact Hf].
  apply ascii_excel_splitIntoLines, ascii_cleanTableText.
Qed.

(** X2: the Excel converter never lets a failure out either.  Whatever
    [XLSX.read] does with the buffer, [convertToPdf] returns a blob of type
    [application/pdf]: the bytes [createPdfStructure] writes for the lines
    of the table text or, when the workbook cannot be read, has no sheet or
    gives a blank text, of the error page for the message.  Every number in
    these bytes counts UTF-16 code units; when the file name is ASCII they
    are exact byte counts.  (Nothing is said of the text operators inside a
    content stream.) *)
Lemma excel_convertToPdf_returns (o : Excel.options)
    (toLowerCase toUpperCase : jsstring -> jsstring)
    (XLSX_read : bool -> result Excel.workbook) (fileName : jsstring) :
  (0 < Excel.maxLinesPerPage o)%Z ->
  exists out,
    Excel.convertToPdf toLowerCase toUpperCase XLSX_read o fileName
    = Some (Ok {| blob_data := out; blob_type := js "application/pdf" |}) /\
    Excel.createPdfStructure o
      (excel_lines toLowerCase toUpperCase XLSX_read o fileName) fileName
    = Some out /\
    counted_in_code_units
      (Excel.contentStreams o
         (excel_lines toLowerCase toUpperCase XLSX_read o fileName) fileName)
      out /\
    (is_ascii fileName = true ->
     well_formed
       (Excel.contentStreams o
          (excel_lines toLowerCase toUpperCase XLSX_read o fileName) fileName)
       out) /\
    match excel_failure toLowerCase toUpperCase XLSX_read o fileName with
    | Some message =>
        Excel.createErrorPdf o message fileName
        = Excel.convertToPdf toLowerCase toUpperCase XLSX_read o fileName
    | None =>
        Excel.createSimpleTablePdf o
          (excel_source toLowerCase toUpperCase XLSX_read o fileName) fileName
        = Excel.convertToPdf toLowerCase toUpperCase XLSX_read o fileName
    end.
Proof.
  intros Hm. unfold excel_lines.
  destruct (excel_createSimpleTablePdf o
              (excel_source toLowerCase toUpperCase XLSX_read o fileName)
              fileName Hm) as (out & E & Eb & Hc & Hw).
  exists out. unfold excel_source, excel_failure, Excel.convertToPdf in *.
  destruct (Excel.parseFile _ _ _) as [workbook|m].
  - destruct (Excel.SheetNames workbook) as [|n ns].
    + unfold Excel.createErrorPdf. rewrite Eb.
      split; [reflexivity|]. split; [exact E|]. split; [exact Hc|].
      split; [exact Hw|reflexivity].
    + destruct (trim (Excel.extractSimpleTableText o workbook)) as [|c r].
      * unfold Excel.createErrorPdf. rewrite Eb.
        split; [reflexivity|]. split; [exact E|]. split; [exact Hc|].
        split; [exact Hw|reflexivity].
      * rewrite Eb.
        split; [reflexivity|]. split; [exact E|]. split; [exact Hc|].
        split; [exact Hw|reflexivity].
  - unfold Excel.createErrorPdf. rewrite Eb.
    split; [reflexivity|]. split; [exact E|]. split; [exact Hc|].
    split; [exact Hw|reflexivity].
Qed.

(* ================================================================== *)
(** * The download loop *)
(* ================================================================== *)

Create HintDb quiet.

Section Download.

Variables accessKey secretKey sessionToken region : jsstring.
Variable SHA256 : jsstring -> bytes.
Variable HmacSHA256 : jsstring -> S3.hmacKey -> bytes.
Variable btoa : jsstring -> result jsstring.
Variable clock : nat -> jsstring.
Variable network : nat -> S3.request -> S3.fetched.
Variables bucketName fileName : jsstring.

Let attempt : nat -> S3.strategy -> S3.M S3.download :=
  S3.attempt accessKey secretKey sessionToken region SHA256 HmacSHA256 btoa
    clock network bucketName fileName.

Let tryAll : list S3.strategy -> nat -> option jsstring -> S3.M S3.download :=
  S3.tryAll accessKey secretKey sessionToken region SHA256 HmacSHA256 btoa
    clock network bucketName fileName.

Let downloadFile : S3.M S3.download :=
  S3.downloadFile accessKey secretKey sessionToken region SHA256 HmacSHA256 btoa
    clock network bucketName fileName.

Lemma quiet_ret {A} (a : A) : quiet (S3.ret a).
Proof. intros s. reflexivity. Qed.

Lemma quiet_throw {A} (e : jsstring) : quiet (@S3.throw A e).
Proof. intros s. reflexivity. Qed.

Lemma quiet_bind {A B} (m : S3.M A) (k : A -> S3.M B) :
  quiet m -> (forall a, quiet (k a)) -> quiet (S3.bind m k).
Proof.
  intros Hm Hk s. unfold S3.bind. specialize (Hm s).
  destruct (m s) as [[a|e] s']; simpl in *; [|assumption].
  now rewrite Hk.
Qed.

Lemma quiet_catch {A} (m : S3.M A) (h : jsstring -> S3.M A) :
  quiet m -> (forall e, quiet (h e)) -> quiet (S3.catch m h).
Proof.
  intros Hm Hh s. unfold S3.catch. specialize (Hm s).
  destruct (m s) as [[a|e] s']; simpl in *; [assumption|].
  now rewrite Hh.
Qed.

Lemma quiet_log (e : S3.event) : quiet (S3.log e).
Proof. intros s. reflexivity. Qed.

Lemma quiet_onProgress (p : nat) (m : jsstring) (u : option jsstring) :
  quiet (S3.onProgress p m u).
Proof. intros s. reflexivity. Qed.

Lemma quiet_setLast (u : jsstring) : quiet (S3.setLast u).
Proof. intros s. reflexivity. Qed.

Lemma quiet_getLast : quiet S3.getLast.
Proof. intros s. reflexivity. Qed.

Lemma quiet_now : quiet (S3.now clock).
Proof. intros s. reflexivity. Qed.

Lemma quiet_fetch (r : S3.request) : quiet (S3.fetch network r).
Proof. intros s. unfold S3.fetch. now destruct (network _ _). Qed.

Lemma quiet_liftOption {A} (e : jsstring) (o : option A) :
  quiet (S3.liftOption e o).
Proof. destruct o; [apply quiet_ret|apply quiet_throw]. Qed.

Lemma quiet_liftResult {A} (r : result A) : quiet (S3.liftResult r).
Proof. destruct r; [apply quiet_ret|apply quiet_throw]. Qed.

#[local] Hint Resolve quiet_ret quiet_throw quiet_log quiet_onProgress quiet_setLast
  quiet_getLast quiet_now quiet_fetch quiet_liftOption quiet_liftResult
  : quiet.

Ltac quiet_tac :=
  repeat first
    [ apply quiet_bind; [|intros ?]
    | apply quiet_catch; [|intros ?]
    | solve [auto with quiet]
    | match goal with
      | |- quiet (if ?b then _ else _) => destruct b
      | |- quiet (match ?x with _ => _ end) => destruct x
      end ].

Lemma quiet_fetchLoop (r : S3.request) (retries left : nat) :
  forall i, quiet (S3.fetchLoop network r retries left i).
Proof.
  induction left as [|left IH]; intros i; cbn [S3.fetchLoop]; quiet_tac.
Qed.

Lemma quiet_receive (failure u : jsstring) (resp : option S3.response) :
  quiet (S3.receive failure u resp).
Proof. unfold S3.receive. quiet_tac. Qed.

Lemma quiet_run (k : S3.strategy) :
  quiet (S3.run accessKey secretKey sessionToken region SHA256 HmacSHA256 btoa
           clock network k bucketName fileName).
Proof.
  destruct k; unfold S3.run, S3.downloadWithPresignedUrl,
    S3.downloadWithDirectSigning, S3.downloadWithSimpleAuth,
    S3.createPresignedUrl, S3.createSignedHeaders, S3.fetchWithRetry;
    quiet_tac; try apply quiet_fetchLoop; try apply quiet_receive.
Qed.

(** A round calls its own method and no other. *)
Lemma attempt_invoked (i : nat) (k : S3.strategy) (s : S3.state) :
  S3.invoked (snd (attempt i k s)) = S3.invoked s ++ [k].
Proof.
  unfold attempt, S3.attempt, S3.bind, S3.getLast, S3.onProgress, S3.log, S3.call.
  cbn [fst snd].
  match goal with
  | |- context [S3.run _ _ _ _ _ _ _ _ _ ?k _ _ ?s0] =>
      pose proof (quiet_run k s0) as Hq;
      destruct (S3.run accessKey secretKey sessionToken region SHA256 HmacSHA256
                  btoa clock network k bucketName fileName s0) as [[d|e] s']
  end; simpl in *; exact Hq.
Qed.

Lemma failing_invoked (todo : list S3.strategy) :
  forall i s le s' le',
    failing attempt todo i s le s' le' -> S3.invoked s' = S3.invoked s ++ todo.
Proof.
  induction todo as [|k todo IH]; intros i s le s' le' H;
    inversion H as [|? ? ? ? ? e s1 ? ? Ha Hc Hf]; subst.
  - now rewrite app_nil_r.
  - rewrite (IH _ _ _ _ _ Hf).
    pose proof (attempt_invoked i k s) as Hi. rewrite Ha in Hi. simpl in Hi.
    rewrite Hi, <- app_assoc. reflexivity.
Qed.

(** Rounds that fail without a credential issue hand over to the rest. *)
Lemma tryAll_failing (pre : list S3.strategy) :
  forall rest i s le s' le',
    failing attempt pre i s le s' le' ->
    tryAll (pre ++ rest) i le s = tryAll rest (i + length pre) le' s'.
Proof.
  induction pre as [|k pre IH]; intros rest i s le s' le' H;
    inversion H as [|? ? ? ? ? e s1 ? ? Ha Hc Hf]; subst.
  - simpl. now rewrite Nat.add_0_r.
  - cbn [app length]. unfold tryAll. cbn [S3.tryAll]. unfold S3.catch.
    fold attempt. rewrite Ha, Hc. fold tryAll.
    rewrite (IH rest _ _ _ _ _ Hf). f_equal. lia.
Qed.

Lemma downloadFile_tryAll (s : S3.state) :
  downloadFile s = tryAll S3.strategies 0 None (entering s).
Proof.
  unfold downloadFile, S3.downloadFile, S3.catch, S3.bind, entering.
  cbn [S3.onProgress S3.log fst snd]. fold tryAll.
  now destruct (tryAll _ _ _ _) as [[d|e] s'].
Qed.

(** C3: when a download method fails with a credential issue - an error
    whose message contains ["403"] or ["Access denied"], as every HTTP 403
    answer produces - [downloadFile] throws that very error at once: the
    state it ends in is the state of the failure, and none of the methods
    that follow in the list is called. *)
Theorem downloadFile_stops_on_credential_issue
    (pre post : list S3.strategy) (k : S3.strategy) (e : jsstring)
    (s s1 s2 : S3.state) (lastError : option jsstring) :
  S3.strategies = pre ++ k :: post ->
  failing attempt pre 0 (entering s) None s1 lastError ->
  attempt (length pre) k s1 = (Throw e, s2) ->
  S3.credentialIssue e = true ->
  downloadFile s = (Throw e, s2) /\
  S3.invoked s2 = S3.invoked s ++ pre ++ [k].
Proof.
  intros Hs Hpre Ha Hc. split.
  - rewrite downloadFile_tryAll, Hs.
    rewrite (tryAll_failing pre (k :: post) _ _ _ _ _ Hpre).
    unfold tryAll. cbn [S3.tryAll]. unfold S3.catch. fold attempt.
    cbn [Nat.add]. rewrite Ha, Hc. reflexivity.
  - pose proof (attempt_invoked (length pre) k s1) as Hi.
    rewrite Ha in Hi. cbn [snd] in Hi.
    rewrite Hi, (failing_invoked pre _ _ _ _ _ Hpre), <- app_assoc.
    reflexivity.
Qed.

(** C4 (as amended): on failures that are no credential issue,
    [downloadFile] calls the three methods in the fixed order pre-signed URL,
    signed headers, basic authentication; when all three fail it throws the
    error of the last method alone and returns no download.  The errors of
    the first two methods are not part of what is thrown. *)
Theorem downloadFile_all_fail (e1 e2 e3 : jsstring) (s s1 s2 s3 : S3.state) :
  attempt 0 S3.PresignedUrl (entering s) = (Throw e1, s1) ->
  S3.credentialIssue e1 = false ->
  attempt 1 S3.DirectSigning s1 = (Throw e2, s2) ->
  S3.credentialIssue e2 = false ->
  attempt 2 S3.SimpleAuth s2 = (Throw e3, s3) ->
  S3.credentialIssue e3 = false ->
  downloadFile s = (Throw e3, s3) /\
  S3.invoked s3
  = S3.invoked s ++ [S3.PresignedUrl; S3.DirectSigning; S3.SimpleAuth].
Proof.
  intros H1 C1 H2 C2 H3 C3.
  assert (F : failing attempt S3.strategies 0 (entering s) None s3 (Some e3)).
  { repeat (econstructor; [eassumption|assumption|]). constructor. }
  split.
  - rewrite downloadFile_tryAll.
    rewrite <- (app_nil_r S3.strategies).
    rewrite (tryAll_failing _ [] _ _ _ _ _ F). reflexivity.
  - now rewrite (failing_invoked _ _ _ _ _ _ F).
Qed.

End Download.

(* ================================================================== *)
(** * Concrete runs *)
(* ================================================================== *)

Lemma downloadFile_stops_on_credential_issue_witness :
  demo_downloadFile forbidden S3.initial
  = (Throw (js "Pre-signed URL download failed: 403 Forbidden"),
     snd (demo_attempt forbidden 0 S3.PresignedUrl (entering S3.initial)))
  /\ S3.invoked
       (snd (demo_attempt forbidden 0 S3.PresignedUrl (entering S3.initial)))
     = S3.invoked S3.initial ++ [] ++ [S3.PresignedUrl].
Proof.
  refine (downloadFile_stops_on_credential_issue
            (js "AKIAEXAMPLE") (js "secret") (js "token") (js "eu-west-1")
            (fun _ => []) (fun _ _ => []) (fun s => Ok s)
            (fun _ => js "2026-01-01T00:00:00.000Z") forbidden
            (js "bucket") (js "My File.pdf")
            [] [S3.DirectSigning; S3.SimpleAuth] S3.PresignedUrl
            (js "Pre-signed URL download failed: 403 Forbidden")
            S3.initial (entering S3.initial)
            (snd (demo_attempt forbidden 0 S3.PresignedUrl (entering S3.initial)))
            None eq_refl _ _ eq_refl).
  - constructor.
  - vm_compute. reflexivity.
Defined.

Lemma downloadFile_all_fail_witness :
  demo_downloadFile offline S3.initial
  = (Throw (js "net 8"),
     snd (demo_attempt offline 2 S3.SimpleAuth
            (snd (demo_attempt offline 1 S3.DirectSigning
                    (snd (demo_attempt offline 0 S3.PresignedUrl
                            (entering S3.initial)))))))
  /\ S3.invoked
       (snd (demo_attempt offline 2 S3.SimpleAuth
               (snd (demo_attempt offline 1 S3.DirectSigning
                       (snd (demo_attempt offline 0 S3.PresignedUrl
                               (entering S3.initial)))))))
     = S3.invoked S3.initial
       ++ [S3.PresignedUrl; S3.DirectSigning; S3.SimpleAuth].
Proof.
  refine (downloadFile_all_fail
            (js "AKIAEXAMPLE") (js "secret") (js "token") (js "eu-west-1")
            (fun _ => []) (fun _ _ => []) (fun s => Ok s)
            (fun _ => js "2026-01-01T00:00:00.000Z") offline
            (js "bucket") (js "My File.pdf")
            (js "net 2") (js "net 5") (js "net 8")
            S3.initial
            (snd (demo_attempt offline 0 S3.PresignedUrl (entering S3.initial)))
            (snd (demo_attempt offline 1 S3.DirectSigning
                    (snd (demo_attempt offline 0 S3.PresignedUrl
                            (entering S3.initial)))))
            (snd (demo_attempt offline 2 S3.SimpleAuth
                    (snd (demo_attempt offline 1 S3.DirectSigning
                            (snd (demo_attempt offline 0 S3.PresignedUrl
                                    (entering S3.initial)))))))
            _ eq_refl _ eq_refl _ eq_refl);
    vm_compute; reflexivity.
Defined.

(** C4 as stated fails: with every request rejected, the first method ends
    on the error ["net 2"], the second on ["net 5"], the third on ["net 8"]
    after nine requests in all - and what [downloadFile] throws is ["net 8"]
    alone, in which neither of the earlier errors occurs. *)
Lemma downloadFile_reports_last_error_only :
  fst (demo_attempt offline 0 S3.PresignedUrl (entering S3.initial))
  = Throw (js "net 2")
  /\ fst (demo_attempt offline 1 S3.DirectSigning
            (snd (demo_attempt offline 0 S3.PresignedUrl (entering S3.initial))))
     = Throw (js "net 5")
  /\ fst (demo_downloadFile offline S3.initial) = Throw (js "net 8")
  /\ includes (js "net 2") (js "net 8") = false
  /\ includes (js "net 5") (js "net 8") = false
  /\ S3.fetches (snd (demo_downloadFile offline S3.initial)) = 9.
Proof. vm_compute. repeat split. Qed.

(** C9: the key of scenario A. *)
Theorem encodeS3Key_scenario_A :
  S3.encodeS3Key (js "My File (v2).docx") = Some (js "My%20File%20%28v2%29.docx").
Proof. vm_compute. reflexivity. Qed.

Lemma encodeS3Key_round_trip_witness :
  exists encoded,
    S3.encodeS3Key (js "reports/My File (v2) [a]{b}#1?x&y=z+w.docx") = Some encoded /\
    decodeURIComponent encoded
    = Some (js "reports/My File (v2) [a]{b}#1?x&y=z+w.docx") /\
    encoded = flat_map image (js "reports/My File (v2) [a]{b}#1?x&y=z+w.docx") /\
    image 32 = js "%20" /\
    ~ In 43%N encoded.
Proof.
  apply encodeS3Key_round_trip.
  repeat (constructor; [split; [discriminate | left; reflexivity]|]).
  constructor.
Defined.

Lemma extractSimpleTableText_table_witness :
  Excel.extractSimpleTableText Excel.defaults demo_workbook
  = trim (flat_map (sheet_text Excel.defaults demo_workbook)
            (Excel.SheetNames demo_workbook))
  /\ (forall cell, 18 < length (trim cell) ->
        Excel.formatCell cell = firstn 15 (trim cell) ++ js "...")
  /\ (forall cell, length (trim cell) <= 18 -> Excel.formatCell cell = trim cell)
  /\ (forall cell, length (table_cell cell) = 20)
  /\ (forall cells, cells <> [] ->
        length (table_line cells) = 22 * length cells + 1
        /\ length (separator_line (length cells)) = 22 * length cells + 1).
Proof.
  apply extractSimpleTableText_table.
  intros name rows H. injection H as <-.
  repeat (constructor; [discriminate|]). constructor.
Defined.

(** C2 fails in the Excel converter for a file name outside ASCII.  With
    the name ["r\u00e9sum\u00e9.xlsx"] and a buffer [XLSX.read] rejects,
    [convertToPdf] returns the error document, but its content stream
    declares [/Length 540] for a body of 542 bytes, and [startxref] says
    879 while the table stands at 881. *)
Lemma excel_convertToPdf_non_ascii_file_name :
  let fileName := js "r\u00e9sum\u00e9.xlsx" in
  let message := js "Failed to parse XLSX: Unsupported file" in
  let lines :=
    Excel.splitIntoLines (Excel.cleanTableText (Excel.errorText message fileName)) in
  let stream := nth 0 (Excel.contentStreams Excel.defaults lines fileName) [] in
  let result :=
    Excel.convertToPdf lowerAscii upperAscii
      (fun _ => Throw (js "Unsupported file")) Excel.defaults fileName in
  result = Excel.createErrorPdf Excel.defaults message fileName
  /\ (exists blob,
        result = Some (Ok blob) /\
        at_offset 288
          (encode (Pdf.streamHead 4 540) ++ encode stream ++ encode Pdf.streamTail)
          (blob_data blob) = true /\
        at_offset 879 (encode (js "xref\n")) (blob_data blob) = false /\
        at_offset 881
          (encode (Pdf.xrefAndTrailer
                     (Excel.objectSection Excel.defaults lines fileName)))
          (blob_data blob) = true)
  /\ length (encode stream) = 542
  /\ Pdf.currentPos (Excel.objectSection Excel.defaults lines fileName) = 879.
Proof.
  cbv zeta. split; [vm_compute; reflexivity|]. split.
  - eexists. split; [vm_compute; reflexivity|]. vm_compute. repeat split.
  - vm_compute. split; reflexivity.
Qed.

(* ================================================================== *)
(** * Further properties of the text pipeline *)
(* ================================================================== *)

Lemma printable_trimStart (s : jsstring) : printable s -> printable (trimStart s).
Proof.
  induction 1 as [|c s Hc Hs IH]; simpl; [constructor|].
  destruct (is_space c); [assumption|now constructor].
Qed.

Lemma printable_trim (s : jsstring) : printable s -> printable (trim s).
Proof.
  intros H. unfold trim, trimEnd.
  apply Forall_rev, printable_trimStart, Forall_rev, printable_trimStart, H.
Qed.

Lemma printable_collapse_ws (s : jsstring) :
  Forall (fun c => (32 <= c <= 126)%N \/ c = 10%N) s ->
  forall b, printable (collapse_ws b s).
Proof.
  induction 1 as [|c s Hc Hs IH]; intros b; simpl; [constructor|].
  destruct (is_space c) eqn:E.
  - destruct b; [apply IH|]. constructor; [lia|apply IH].
  - constructor; [|apply IH].
    destruct Hc as [Hc|Hc]; [exact Hc|]. subst c. discriminate.
Qed.

Lemma printable_replace_nl_ws (s : jsstring) :
  printable s -> forall b, printable (replace_nl_ws b s).
Proof.
  induction 1 as [|c s Hc Hs IH]; intros b; simpl; [constructor|].
  destruct (b && is_space c); [apply IH|].
  replace (c =? 10)%N with false by (symmetry; apply N.eqb_neq; lia).
  constructor; [assumption|apply IH].
Qed.

Lemma printable_cleanText (text : jsstring) : printable (Docx.cleanText text).
Proof.
  unfold Docx.cleanText.
  apply printable_trim, printable_replace_nl_ws, printable_collapse_ws.
  apply Forall_map, Forall_forall. intros c _.
  destruct ((32 <=? c) && (c <=? 126) || (c =? 10))%N eqn:E; [|left; lia].
  apply orb_true_iff in E as [E|E].
  - apply andb_true_iff in E as [E1 E2].
    apply N.leb_le in E1, E2. left. lia.
  - apply N.eqb_eq in E. now right.
Qed.

Lemma printable_cleanTableText (text : jsstring) :
  printable (Excel.cleanTableText text).
Proof.
  unfold Excel.cleanTableText.
  apply printable_trim, printable_replace_nl_ws, printable_collapse_ws.
  apply Forall_map, Forall_forall. intros c _.
  destruct ((32 <=? c) && (c <=? 126) || (c =? 10) || (c =? 124)
            || (c =? 43) || (c =? 45))%N eqn:E; [|left; lia].
  repeat (apply orb_true_iff in E as [E|E]);
    try (apply N.eqb_eq in E; subst; (now right) || (left; lia)).
  apply andb_true_iff in E as [E1 E2].
  apply N.leb_le in E1, E2. left. lia.
Qed.

Lemma printable_no_newline (s : jsstring) : printable s -> ~ In 10%N s.
Proof.
  intros H Hin. unfold printable in H. rewrite Forall_forall in H.
  apply H in Hin. lia.
Qed.

(** X3: [cleanText] and [cleanTableText] return printable ASCII only: in
    particular no line break survives them, the [\s+] replacement turns
    every newline into a space before the text is split into paragraphs. *)
Theorem cleanText_printable (text : jsstring) :
  printable (Docx.cleanText text) /\ printable (Excel.cleanTableText text)
  /\ ~ In 10%N (Docx.cleanText text) /\ ~ In 10%N (Excel.cleanTableText text).
Proof.
  pose proof (printable_cleanText text) as HD.
  pose proof (printable_cleanTableText text) as HE.
  repeat split; try assumption; now apply printable_no_newline.
Qed.

(** ** No line is longer than the limit *)

Lemma wrapWord_lines_bound (m : nat) (st : list jsstring * jsstring) (w : jsstring) :
  Forall (fun l => length l <= m) (fst st) -> length (snd st) <= m ->
  Forall (fun l => length l <= m) (fst (Docx.wrapWord m st w)).
Proof.
  destruct st as [lines cur]. simpl. intros Hl Hc. unfold Docx.wrapWord.
  case_leb; [exact Hl|].
  destruct cur as [|c cur]; cbn [fst].
  - apply Forall_app. split; [assumption|]. constructor; [|constructor].
    unfold substring0. rewrite length_firstn. lia.
  - apply Forall_app. split; [assumption|]. constructor; [exact Hc|constructor].
Qed.

Lemma fold_wrapWord_lines_bound (m : nat) (ws : list jsstring) :
  forall st,
    Forall (fun l => length l <= m) (fst st) -> length (snd st) <= m ->
    Forall (fun l => length l <= m) (flush (fold_left (Docx.wrapWord m) ws st)).
Proof.
  induction ws as [|w ws IH]; intros st Hl Hc; cbn [fold_left].
  - unfold flush. destruct st as [lines cur]. cbn [fst snd] in *.
    destruct cur as [|c cur]; [exact Hl|].
    apply Forall_app. split; [exact Hl|]. constructor; [exact Hc|constructor].
  - apply IH; [now apply wrapWord_lines_bound | now apply wrapWord_bound].
Qed.

(** X4: Every line [splitIntoLines] of the DOCX converter returns is at most
    [maxCharsPerLine] characters long, whatever the text. *)
Theorem splitIntoLines_bound (o : Docx.options) (text : jsstring) :
  Forall (fun line => length line <= Docx.maxCharsPerLine o)
    (Docx.splitIntoLines o text).
Proof.
  unfold Docx.splitIntoLines.
  assert (H : forall ps lines,
            Forall (fun l => length l <= Docx.maxCharsPerLine o) lines ->
            Forall (fun l => length l <= Docx.maxCharsPerLine o)
              (fold_left (Docx.wrapParagraph (Docx.maxCharsPerLine o)) ps lines)).
  { induction ps as [|p ps IH]; intros lines Hl; simpl; [assumption|].
    apply IH. destruct (trim p) as [|c r] eqn:E.
    - unfold Docx.wrapParagraph. rewrite E. apply Forall_app. split; [assumption|].
      constructor; [simpl; lia|constructor].
    - rewrite docx_wrapParagraph_flush by congruence.
      apply fold_wrapWord_lines_bound; [assumption|simpl; lia]. }
  apply H. constructor.
Qed.

(** ** Pagination *)

Lemma firstn_add {A} (a b : nat) (l : list A) :
  firstn (a + b) l = firstn a l ++ firstn b (skipn a l).
Proof.
  revert l. induction a as [|a IH]; intros l; [reflexivity|].
  destruct l as [|x l]; simpl.
  - now destruct b.
  - now rewrite IH.
Qed.

Lemma pageLines_firstn (m : nat) (lines : list jsstring) (p : nat) :
  pageLines m lines p = firstn m (skipn (p * m) lines).
Proof.
  unfold pageLines, Pdf.slice.
  destruct (Nat.le_gt_cases (p * m + m) (length lines)) as [H|H].
  - rewrite Nat.min_l by assumption. f_equal. lia.
  - rewrite Nat.min_r by lia.
    rewrite (firstn_all2 (n := m)) by (rewrite length_skipn; lia).
    apply firstn_all2. rewrite length_skipn. lia.
Qed.

Lemma pages_firstn (m : nat) (lines : list jsstring) (k : nat) :
  concat (map (pageLines m lines) (seq 0 k)) = firstn (k * m) lines.
Proof.
  induction k as [|k IH]; [reflexivity|].
  rewrite seq_S, map_app, concat_app, IH. cbn [map concat Nat.add].
  rewrite app_nil_r, pageLines_firstn.
  replace (S k * m) with (k * m + m) by lia.
  now rewrite firstn_add.
Qed.

(** X5: Pagination loses nothing: the pages of [createPdfStructure], one after
    the other, are the input lines in their order; a page holds at most
    [maxLinesPerPage] lines, and these are what its content stream shows. *)
Theorem pagination_complete (o : Docx.options) (lines : list jsstring) :
  (0 < Docx.maxLinesPerPage o)%Z ->
  let m := Z.to_nat (Docx.maxLinesPerPage o) in
  concat (map (pageLines m lines) (seq 0 (Docx.totalPages o lines))) = lines
  /\ (forall p, length (pageLines m lines p) <= m)
  /\ (forall p, Docx.contentStream o m lines p
                = js "BT\n/F1 12 Tf\n50 750 Td\n"
                  ++ concat (map (Docx.showLine o) (pageLines m lines p))
                  ++ js "ET").
Proof.
  intros Hm m. split; [|split].
  - rewrite pages_firstn. apply firstn_all2.
    unfold Docx.totalPages. fold m. rewrite totalPages_ceil by lia.
    unfold ceil_div.
    pose proof (Nat.div_mod_eq (length lines) m) as E.
    pose proof (Nat.mod_upper_bound (length lines) m ltac:(lia)) as Hr.
    destruct (length lines mod m =? 0) eqn:Ez.
    + apply Nat.eqb_eq in Ez. nia.
    + nia.
  - intros p. rewrite pageLines_firstn, length_firstn. lia.
  - intros p. reflexivity.
Qed.

(* ================================================================== *)
(** * The cleaned text is one paragraph *)
(* ================================================================== *)

Lemma split_absent (c : N) (s : jsstring) : ~ In c s -> split c s = [s].
Proof.
  unfold split.
  assert (H : forall cur, ~ In c s -> split_aux c cur s = [rev cur ++ s]).
  { induction s as [|x s IH]; intros cur Hn; cbn [split_aux].
    - now rewrite app_nil_r.
    - destruct (N.eqb_spec x c) as [->|_]; [elim Hn; now left|].
      rewrite IH by (intros Hin; apply Hn; now right).
      cbn [rev]. now rewrite <- app_assoc. }
  intros Hn. now rewrite H.
Qed.

Lemma trimStart_suffix (s : jsstring) : exists sp, s = sp ++ trimStart s.
Proof.
  induction s as [|c s [sp IH]]; [now exists []|].
  cbn [trimStart]. destruct (is_space c).
  - exists (c :: sp). cbn [app]. now rewrite <- IH.
  - now exists [].
Qed.

Lemma trimStart_head (s : jsstring) (c : N) (r : jsstring) :
  trimStart s = c :: r -> is_space c = false.
Proof.
  induction s as [|x s IH]; cbn [trimStart]; [discriminate|].
  destruct (is_space x) eqn:E; [exact IH|].
  intros H. injection H as <- _. exact E.
Qed.

Lemma trimStart_idem (s : jsstring) : trimStart (trimStart s) = trimStart s.
Proof.
  destruct (trimStart s) as [|c r] eqn:E; [reflexivity|].
  cbn [trimStart]. now rewrite (trimStart_head s c r E).
Qed.

Lemma trimEnd_prefix (s : jsstring) : exists sp, s = trimEnd s ++ sp.
Proof.
  destruct (trimStart_suffix (rev s)) as [sp E].
  exists (rev sp). unfold trimEnd.
  rewrite <- rev_app_distr, <- E. symmetry. apply rev_involutive.
Qed.

Lemma trim_trim (s : jsstring) : trim (trim s) = trim s.
Proof.
  unfold trim.
  assert (E : trimStart (trimEnd (trimStart s)) = trimEnd (trimStart s)).
  { destruct (trimEnd_prefix (trimStart s)) as [sp Hsp].
    destruct (trimEnd (trimStart s)) as [|c r]; [reflexivity|].
    cbn [trimStart]. now rewrite (trimStart_head s c (r ++ sp) Hsp). }
  rewrite E. unfold trimEnd. now rewrite rev_involutive, trimStart_idem.
Qed.

(** X6: A table never reaches the page as a table.  [cleanTableText] leaves no
    line break, so the text is a single paragraph; when it holds a [|] or a
    [+], as every table row does, [splitIntoLines] keeps that paragraph
    whole: the whole text is one line, of which [escapePdfString] keeps
    the first 90 characters. *)
Theorem table_text_single_line (text : jsstring) :
  includes (js "|") (Excel.cleanTableText text)
  || includes (js "+") (Excel.cleanTableText text) = true ->
  Excel.splitIntoLines (Excel.cleanTableText text) = [Excel.cleanTableText text]
  /\ length (Excel.escapePdfString (Excel.cleanTableText text)) <= 90.
Proof.
  intros H. split.
  - unfold Excel.splitIntoLines.
    rewrite split_absent
      by apply printable_no_newline, printable_cleanTableText.
    cbn [fold_left]. unfold Excel.wrapParagraph.
    assert (Et : trim (Excel.cleanTableText text) = Excel.cleanTableText text).
    { unfold Excel.cleanTableText. apply trim_trim. }
    rewrite Et, H.
    destruct (Excel.cleanTableText text) as [|c r]; [discriminate H|reflexivity].
  - unfold Excel.escapePdfString.
    destruct (Excel.cleanTableText text) as [|c r]; [cbn [length]; lia|].
    unfold substring0. rewrite length_firstn. lia.
Qed.

Lemma table_text_single_line_witness :
  Excel.splitIntoLines (Excel.cleanTableText (js "| a | b |\n| c | d |"))
  = [Excel.cleanTableText (js "| a | b |\n| c | d |")]
  /\ length (Excel.escapePdfString
               (Excel.cleanTableText (js "| a | b |\n| c | d |"))) <= 90.
Proof.
  apply (table_text_single_line (js "| a | b |\n| c | d |")).
  vm_compute. reflexivity.
Defined.

(** X7: The DOCX converter loses the paragraphs in the same way: the cleaned
    text is wrapped as one paragraph. *)
Theorem docx_text_single_paragraph (o : Docx.options) (text : jsstring) :
  Docx.splitIntoLines o (Docx.cleanText text)
  = flush (fold_left (Docx.wrapWord (Docx.maxCharsPerLine o))
             (split_ws (Docx.cleanText text)) ([], []))
    ++ (match Docx.cleanText text with [] => [[]] | _ :: _ => [] end).
Proof.
  unfold Docx.splitIntoLines.
  rewrite split_absent by apply printable_no_newline, printable_cleanText.
  cbn [fold_left].
  assert (Et : trim (Docx.cleanText text) = Docx.cleanText text).
  { unfold Docx.cleanText. apply trim_trim. }
  destruct (Docx.cleanText text) as [|c r] eqn:E.
  - reflexivity.
  - rewrite docx_wrapParagraph_flush by (rewrite Et; discriminate).
    rewrite Et. now rewrite app_nil_r.
Qed.

(* ================================================================== *)
(** * The alphabet of an encoded key *)
(* ================================================================== *)

Lemma url_safe_hexdigit (x : N) : (x < 16)%N -> url_safe (hexdigit x) = true.
Proof.
  intros H.
  assert (E : In x (map N.of_nat (seq 0 16))).
  { apply in_map_iff. exists (N.to_nat x). split; [lia|].
    apply in_seq. lia. }
  simpl in E.
  repeat (destruct E as [<-|E]; [vm_compute; auto|]). destruct E.
Qed.

Lemma url_safe_octets (bs : list N) :
  Forall (fun b => (b < 256)%N) bs -> forallb url_safe (flat_map pct bs) = true.
Proof.
  induction 1 as [|b bs Hb _ IH]; [reflexivity|].
  cbn [flat_map]. rewrite forallb_app, IH, andb_true_r.
  unfold pct. cbn [forallb].
  rewrite (url_safe_hexdigit (b / 16)) by lia.
  rewrite (url_safe_hexdigit (b mod 16)) by lia.
  reflexivity.
Qed.

Lemma url_safe_encode1 (c : N) :
  key_char c -> forallb url_safe (encode1 c) = true.
Proof.
  intros Hk. unfold encode1.
  destruct (untouched c) eqn:Eu.
  - unfold escape1. destruct (uri_unescaped c) eqn:Ec.
    + rewrite postEncode_untouched by (simpl; now rewrite Eu).
      cbn [forallb]. rewrite andb_true_r.
      unfold uri_unescaped in Ec. unfold url_safe.
      destruct (is_alnum c); [reflexivity|].
      cbn [orb] in Ec |- *.
      apply existsb_exists in Ec as (x & Hx & E).
      apply N.eqb_eq in E. subst x. simpl in Hx.
      repeat (destruct Hx as [<-|Hx];
              [first [reflexivity | discriminate Eu]|]).
      destruct Hx.
    + assert (Ho : Forall (fun b => (b < 256)%N) (utf8_of_codepoint c)).
      { apply utf8_octets. destruct Hk as [_ [?|?]]; lia. }
      rewrite postEncode_untouched by (now apply untouched_octets).
      now apply url_safe_octets.
  - unfold untouched in Eu. apply negb_false_iff, special_cases in Eu.
    simpl in Eu.
    repeat (destruct Eu as [<-|Eu]; [vm_compute; reflexivity|]).
    destruct Eu.
Qed.

(** X9: An encoded key is made of letters, digits and [- _ . ~ % /] only: none
    of the characters that break a signature or a query string - space,
    [! ' ( ) * [ ] { } # ? & = +] - is left in it. *)
Theorem encodeS3Key_url_safe (key encoded : jsstring) :
  Forall key_char key ->
  S3.encodeS3Key key = Some encoded ->
  forallb url_safe encoded = true.
Proof.
  intros H E.
  rewrite (encodeS3Key_encode1' key H) in E. injection E as <-.
  induction H as [|c s Hc _ IH]; [reflexivity|].
  cbn [flat_map]. rewrite forallb_app, IH, andb_true_r.
  unfold encode1'. destruct (c =? 47)%N; [reflexivity|].
  now apply url_safe_encode1.
Qed.

Lemma encodeS3Key_url_safe_witness :
  forallb url_safe (js "a%20b/%5Bc%5D%2B%28d%29%3F.pdf") = true.
Proof.
  apply (encodeS3Key_url_safe (js "a b/[c]+(d)?.pdf")).
  - repeat (constructor; [split; [discriminate | left; reflexivity]|]).
    constructor.
  - vm_compute. reflexivity.
Defined.

(* ================================================================== *)
(** * A key that cannot be encoded *)
(* ================================================================== *)

Section Malformed.

Variables accessKey secretKey sessionToken region : jsstring.
Variable SHA256 : jsstring -> bytes.
Variable HmacSHA256 : jsstring -> S3.hmacKey -> bytes.
Variable btoa : jsstring -> result jsstring.
Variable clock : nat -> jsstring.
Variable network : nat -> S3.request -> S3.fetched.
Variables bucketName fileName : jsstring.

Let downloadFile : S3.M S3.download :=
  S3.downloadFile accessKey secretKey sessionToken region SHA256 HmacSHA256 btoa
    clock network bucketName fileName.

(** X13: When the key cannot be encoded - [encodeURIComponent] throws on a
    surrogate without its partner - every download method fails before it
    sends anything: all three are tried, no request goes out, and
    [downloadFile] throws the [URIError] of the last one. *)
Theorem downloadFile_malformed_key (s : S3.state) :
  S3.encodeS3Key fileName = None ->
  fst (downloadFile s) = Throw (js "URI malformed")
  /\ S3.fetches (snd (downloadFile s)) = S3.fetches s
  /\ S3.invoked (snd (downloadFile s)) = S3.invoked s ++ S3.strategies
  /\ S3.lastGeneratedPresignedUrl (snd (downloadFile s))
     = S3.lastGeneratedPresignedUrl s.
Proof.
  intros H. unfold downloadFile, S3.downloadFile, S3.strategies, S3.tryAll,
    S3.attempt, S3.run, S3.downloadWithPresignedUrl, S3.downloadWithDirectSigning,
    S3.downloadWithSimpleAuth, S3.createPresignedUrl.
  unfold S3.catch, S3.bind, S3.getLast, S3.onProgress, S3.log, S3.call,
    S3.liftOption, S3.throw.
  rewrite !H.
  change (S3.credentialIssue
            (js "Failed to create enhanced pre-signed URL: " ++ js "URI malformed"))
    with false.
  change (S3.credentialIssue (js "URI malformed")) with false.
  cbn [fst snd S3.fetches S3.invoked S3.lastGeneratedPresignedUrl].
  split; [reflexivity|]. split; [reflexivity|]. split; [|reflexivity].
  rewrite <- !app_assoc. reflexivity.
Qed.

End Malformed.

Lemma downloadFile_malformed_key_witness :
  let run :=
    S3.downloadFile (js "AKIAEXAMPLE") (js "secret") (js "token") (js "eu-west-1")
      (fun _ => []) (fun _ _ => []) (fun s => Ok s)
      (fun _ => js "2026-01-01T00:00:00.000Z") online
      (js "bucket") [55357%N] S3.initial in
  fst run = Throw (js "URI malformed")
  /\ S3.fetches (snd run) = S3.fetches S3.initial
  /\ S3.invoked (snd run) = S3.invoked S3.initial ++ S3.strategies
  /\ S3.lastGeneratedPresignedUrl (snd run)
     = S3.lastGeneratedPresignedUrl S3.initial.
Proof.
  apply (downloadFile_malformed_key
           (js "AKIAEXAMPLE") (js "secret") (js "token") (js "eu-west-1")
           (fun _ => []) (fun _ _ => []) (fun s => Ok s)
           (fun _ => js "2026-01-01T00:00:00.000Z") online
           (js "bucket") [55357%N] S3.initial).
  vm_compute. reflexivity.
Defined.

(* ================================================================== *)
(** * Witnesses *)
(* ================================================================== *)

Lemma pagination_complete_witness :
  let lines := repeat (js "line") 120 in
  let m := Z.to_nat (Docx.maxLinesPerPage Docx.defaults) in
  concat (map (pageLines m lines) (seq 0 (Docx.totalPages Docx.defaults lines)))
  = lines
  /\ (forall p, length (pageLines m lines p) <= m)
  /\ (forall p, Docx.contentStream Docx.defaults m lines p
                = js "BT\n/F1 12 Tf\n50 750 Td\n"
                  ++ concat (map (Docx.showLine Docx.defaults) (pageLines m lines p))
                  ++ js "ET").
Proof.
  apply (pagination_complete Docx.defaults (repeat (js "line") 120)).
  vm_compute. reflexivity.
Defined.

(* ================================================================== *)
(** * Further properties of the downloader *)
(* ================================================================== *)

Lemma decode_flat_map_encode1' (key : jsstring) :
  Forall key_char key -> decodeURIComponent (flat_map encode1' key) = Some key.
Proof.
  induction 1 as [|c s Hc _ IH]; [reflexivity|].
  cbn [flat_map].
  rewrite (decodeURIComponent_app _ _ [c]) by (now apply decode_encode1').
  now rewrite IH.
Qed.

(** X8: Encoding is stable: a key that [encodeS3Key] produced is returned
    unchanged when it is encoded again, since the function decodes its
    argument first. *)
Theorem encodeS3Key_stable (key encoded : jsstring) :
  Forall key_char key ->
  S3.encodeS3Key key = Some encoded ->
  S3.encodeS3Key encoded = Some encoded.
Proof.
  intros H E.
  rewrite (encodeS3Key_encode1' key H) in E. injection E as <-.
  transitivity (S3.encodeS3Key key); [|now apply encodeS3Key_encode1'].
  unfold S3.encodeS3Key.
  now rewrite (decode_flat_map_encode1' key H), (decode_plain key H).
Qed.

Lemma encodeS3Key_stable_witness :
  S3.encodeS3Key (js "My%20File%20%28v2%29.docx")
  = Some (js "My%20File%20%28v2%29.docx").
Proof.
  apply (encodeS3Key_stable (js "My File (v2).docx")).
  - repeat (constructor; [split; [discriminate | left; reflexivity]|]).
    constructor.
  - vm_compute. reflexivity.
Defined.

Lemma includes_app (p a b : jsstring) : includes p (a ++ p ++ b) = true.
Proof.
  induction a as [|x a IH].
  - cbn [app]. pose proof (prefixb_app p b) as H.
    destruct (p ++ b); cbn [includes]; now rewrite H.
  - cbn [app includes]. rewrite IH. apply orb_true_r.
Qed.

(** X10: A response with status 403 always ends a download method with an error
    that the loop of [downloadFile] takes for a credential issue. *)
Theorem forbidden_is_credential_issue (failure u : jsstring)
    (resp : S3.response) (s : S3.state) :
  S3.status resp = 403 ->
  S3.receive failure u (Some resp) s
  = (Throw (failure ++ js "403 " ++ S3.statusText resp), s)
  /\ S3.credentialIssue (failure ++ js "403 " ++ S3.statusText resp) = true.
Proof.
  intros H. split.
  - unfold S3.receive, S3.ok. rewrite H. cbn [Nat.leb negb andb].
    reflexivity.
  - unfold S3.credentialIssue.
    change (js "403 " ++ S3.statusText resp)
      with (js "403" ++ (js " " ++ S3.statusText resp)).
    now rewrite includes_app.
Qed.

Lemma forbidden_is_credential_issue_witness :
  S3.receive (js "Direct signed download failed: ") (js "https://b/k")
    (Some {| S3.status := 403; S3.statusText := js "Forbidden";
             S3.contentType := None; S3.arrayBuffer := Ok [] |}) S3.initial
  = (Throw (js "Direct signed download failed: " ++ js "403 " ++ js "Forbidden"),
     S3.initial)
  /\ S3.credentialIssue
       (js "Direct signed download failed: " ++ js "403 " ++ js "Forbidden") = true.
Proof.
  apply (forbidden_is_credential_issue (js "Direct signed download failed: ")
           (js "https://b/k")
           {| S3.status := 403; S3.statusText := js "Forbidden";
              S3.contentType := None; S3.arrayBuffer := Ok [] |} S3.initial).
  reflexivity.
Defined.

Section Requests.

Variables accessKey secretKey sessionToken region : jsstring.
Variable SHA256 : jsstring -> bytes.
Variable HmacSHA256 : jsstring -> S3.hmacKey -> bytes.
Variable btoa : jsstring -> result jsstring.
Variable clock : nat -> jsstring.
Variable network : nat -> S3.request -> S3.fetched.
Variables bucketName fileName : jsstring.

(** X11: [fetchWithRetry] sends one to three requests.  The first answer is
    returned as it is, whatever its status: only a rejected request is
    repeated.  After three rejections the third error is thrown, with
    delays of one and two seconds between the requests.  The loop never
    runs out, so the call never resolves to [undefined]. *)
Theorem fetchWithRetry_requests (r : S3.request) (s : S3.state) :
  let out := S3.fetchWithRetry network r s in
  S3.fetches s < S3.fetches (snd out) <= S3.fetches s + 3
  /\ (forall resp, network (S3.fetches s) r = S3.Resolved resp ->
        fst out = Ok (Some resp) /\
        S3.fetches (snd out) = S3.fetches s + 1 /\
        S3.trace (snd out) = S3.trace s ++ [S3.Fetch r])
  /\ (forall m0 m1 m2,
        network (S3.fetches s) r = S3.Rejected m0 ->
        network (S (S3.fetches s)) r = S3.Rejected m1 ->
        network (S (S (S3.fetches s))) r = S3.Rejected m2 ->
        fst out = Throw m2 /\
        S3.trace (snd out)
        = S3.trace s ++ [S3.Fetch r; S3.Sleep 1000; S3.Fetch r;
                         S3.Sleep 2000; S3.Fetch r])
  /\ fst out <> Ok None.
Proof.
  cbv zeta.
  unfold S3.fetchWithRetry, S3.fetchLoop, S3.catch, S3.bind, S3.fetch, S3.log,
    S3.ret, S3.throw.
  cbn [S3.fetches S3.trace fst snd Nat.eqb Nat.sub].
  destruct (network (S3.fetches s) r) as [m0|resp0] eqn:E0;
    cbn [S3.fetches S3.trace fst snd Nat.eqb Nat.sub].
  2:{ split; [lia|]. split; [|split; [|discriminate]].
      - intros resp H. injection H as <-. split; [reflexivity|].
        split; [lia|reflexivity].
      - intros ? ? ? H. discriminate. }
  destruct (network (S (S3.fetches s)) r) as [m1|resp1] eqn:E1;
    cbn [S3.fetches S3.trace fst snd Nat.eqb Nat.sub].
  2:{ split; [lia|]. split; [intros ? H; discriminate|].
      split; [|discriminate]. intros ? ? ? _ H. discriminate. }
  destruct (network (S (S (S3.fetches s))) r) as [m2|resp2] eqn:E2;
    cbn [S3.fetches S3.trace fst snd Nat.eqb Nat.sub].
  2:{ split; [lia|]. split; [intros ? H; discriminate|].
      split; [|discriminate]. intros ? ? ? _ _ H. discriminate. }
  split; [lia|]. split; [intros ? H; discriminate|].
  split; [|discriminate].
  intros ? ? ? _ _ H. injection H as <-. split; [reflexivity|].
  rewrite <- !app_assoc. reflexivity.
Qed.

Let attempt : nat -> S3.strategy -> S3.M S3.download :=
  S3.attempt accessKey secretKey sessionToken region SHA256 HmacSHA256 btoa
    clock network bucketName fileName.

Let downloadFile : S3.M S3.download :=
  S3.downloadFile accessKey secretKey sessionToken region SHA256 HmacSHA256 btoa
    clock network bucketName fileName.

(** X12: The first method that succeeds ends [downloadFile]: its result is
    returned, carrying as [presignedUrl] the URL last stored in
    [lastGeneratedPresignedUrl], and no later method is called. *)
Theorem downloadFile_returns_first_success
    (pre post : list S3.strategy) (k : S3.strategy) (d : S3.download)
    (s s1 s2 : S3.state) (lastError : option jsstring) :
  S3.strategies = pre ++ k :: post ->
  failing attempt pre 0 (entering s) None s1 lastError ->
  attempt (length pre) k s1 = (Ok d, s2) ->
  downloadFile s = (Ok d, s2) /\
  S3.invoked s2 = S3.invoked s ++ pre ++ [k] /\
  S3.presignedUrl d = S3.lastGeneratedPresignedUrl s2.
Proof.
  intros Hs Hpre Ha. split; [|split].
  - unfold downloadFile.
    rewrite (downloadFile_tryAll accessKey secretKey sessionToken region SHA256
               HmacSHA256 btoa clock network bucketName fileName s), Hs.
    rewrite (tryAll_failing accessKey secretKey sessionToken region SHA256
               HmacSHA256 btoa clock network bucketName fileName
               pre (k :: post) _ _ _ _ _ Hpre).
    cbn [S3.tryAll]. unfold S3.catch. fold attempt. cbn [Nat.add].
    now rewrite Ha.
  - pose proof (attempt_invoked accessKey secretKey sessionToken region SHA256
                  HmacSHA256 btoa clock network bucketName fileName
                  (length pre) k s1) as Hi.
    fold attempt in Hi. rewrite Ha in Hi. cbn [snd] in Hi.
    rewrite Hi.
    rewrite (failing_invoked accessKey secretKey sessionToken region SHA256
               HmacSHA256 btoa clock network bucketName fileName
               pre _ _ _ _ _ Hpre), <- app_assoc.
    reflexivity.
  - revert Ha. unfold attempt, S3.attempt, S3.bind, S3.getLast, S3.onProgress,
      S3.log, S3.call, S3.ret. cbn [fst snd].
    match goal with
    | |- context [S3.run ?a1 ?a2 ?a3 ?a4 ?a5 ?a6 ?a7 ?a8 ?a9 ?k ?b ?f ?s0] =>
        destruct (S3.run a1 a2 a3 a4 a5 a6 a7 a8 a9 k b f s0) as [[d'|e] s']
    end; intros H; [|discriminate].
    injection H as <- <-. reflexivity.
Qed.

End Requests.

Lemma downloadFile_returns_first_success_witness :
  let s2 := snd (demo_attempt online 0 S3.PresignedUrl (entering S3.initial)) in
  let d := {| S3.buffer := [37%N; 80%N; 68%N; 70%N];
              S3.dlContentType := js "application/pdf";
              S3.size := 4;
              S3.presignedUrl := S3.lastGeneratedPresignedUrl s2 |} in
  demo_downloadFile online S3.initial = (Ok d, s2)
  /\ S3.invoked s2 = S3.invoked S3.initial ++ [] ++ [S3.PresignedUrl]
  /\ S3.presignedUrl d = S3.lastGeneratedPresignedUrl s2.
Proof.
  refine (downloadFile_returns_first_success
            (js "AKIAEXAMPLE") (js "secret") (js "token") (js "eu-west-1")
            (fun _ => []) (fun _ _ => []) (fun s => Ok s)
            (fun _ => js "2026-01-01T00:00:00.000Z") online
            (js "bucket") (js "My File.pdf")
            [] [S3.DirectSigning; S3.SimpleAuth] S3.PresignedUrl
            _ S3.initial (entering S3.initial) _ None eq_refl _ _).
  - constructor.
  - vm_compute. reflexivity.
Defined.

Lemma docx_convertToPdf_returns_witness :
  exists out,
    Docx.convertToPdf Docx.defaults
      (Throw (js "Failed to extract text from DOCX: Could not find document.xml in DOCX file"))
    = Some (Ok {| blob_data := out; blob_type := js "application/pdf" |}) /\
    Docx.createPdfStructure Docx.defaults
      (docx_lines Docx.defaults
         (Throw (js "Failed to extract text from DOCX: Could not find document.xml in DOCX file")))
    = Some out /\
    well_formed
      (Docx.contentStreams Docx.defaults
         (docx_lines Docx.defaults
            (Throw (js "Failed to extract text from DOCX: Could not find document.xml in DOCX file"))))
      out /\
    Docx.createErrorPdf Docx.defaults
      (js "Failed to extract text from DOCX: Could not find document.xml in DOCX file")
    = Docx.convertToPdf Docx.defaults
        (Throw (js "Failed to extract text from DOCX: Could not find document.xml in DOCX file")).
Proof.
  apply (docx_convertToPdf_returns Docx.defaults
           (Throw (js "Failed to extract text from DOCX: Could not find document.xml in DOCX file"))).
  vm_compute. reflexivity.
Defined.

Lemma excel_convertToPdf_returns_witness :
  exists out,
    Excel.convertToPdf lowerAscii upperAscii
      (fun _ => Ok demo_workbook) Excel.defaults (js "report.xlsx")
    = Some (Ok {| blob_data := out; blob_type := js "application/pdf" |}) /\
    Excel.createPdfStructure Excel.defaults
      (excel_lines lowerAscii upperAscii (fun _ => Ok demo_workbook)
         Excel.defaults (js "report.xlsx")) (js "report.xlsx")
    = Some out /\
    well_formed
      (Excel.contentStreams Excel.defaults
         (excel_lines lowerAscii upperAscii (fun _ => Ok demo_workbook)
            Excel.defaults (js "report.xlsx")) (js "report.xlsx"))
      out /\
    Excel.createSimpleTablePdf Excel.defaults
      (Excel.extractSimpleTableText Excel.defaults demo_workbook)
      (js "report.xlsx")
    = Excel.convertToPdf lowerAscii upperAscii
        (fun _ => Ok demo_workbook) Excel.defaults (js "report.xlsx").
Proof.
  destruct (excel_convertToPdf_returns Excel.defaults lowerAscii upperAscii
              (fun _ => Ok demo_workbook) (js "report.xlsx"))
    as (out & E & Es & _ & Hw & Hs); [vm_compute; reflexivity|].
  exists out. split; [exact E|]. split; [exact Es|].
  split; [exact (Hw eq_refl)|]. exact Hs.
Defined.
